(** * Legacy HTML cleaner: a shallow embedding of [services/cleanerService.ts]

    The service file holds two variants of the conversion engine, each
    exporting [cleanHtml]:

    - the first one (module [V1]) sanitises the input with DOMPurify, rewrites
      the parsed tree and then cleans the rewritten tree up by DOM operations;
    - the second one (module [V2]) rewrites the parsed tree, flattens lists to
      bullet / number prefixes and cleans the serialised string up by regular
      expressions.

    The browser's HTML parser ([DOMParser]) and the sanitiser ([DOMPurify]) are
    not part of the repository: both are parameters of [cleanHtml] here.  What
    the engine does with the tree they hand over is embedded from the source. *)

From Stdlib Require Import List NArith ZArith Bool String Ascii Lia.
Import ListNotations.

Set Warnings "-register-all".

(* ================================================================== *)
(** * JavaScript strings and the string primitives the engine calls *)
(* ================================================================== *)

Module JS.

(** A JavaScript string is a sequence of UTF-16 code units. *)
Abbreviation char := N (only parsing).
Abbreviation jsstring := (list N) (only parsing).

(** An ASCII literal of the source, as code units. *)
Fixpoint lit (s : string) : jsstring :=
  match s with
  | EmptyString => []
  | String a rest => N_of_ascii a :: lit rest
  end.

(** U+2022, the bullet of the second variant's list prefix. *)
Definition bullet : char := 8226%N.

Definition char_eqb (a b : char) : bool := N.eqb a b.

Fixpoint str_eqb (a b : jsstring) : bool :=
  match a, b with
  | [], [] => true
  | x :: a', y :: b' => char_eqb x y && str_eqb a' b'
  | _, _ => false
  end.

Definition mem (x : jsstring) (l : list jsstring) : bool := existsb (str_eqb x) l.

(** The value stored under [key] in a table of string keys, if any. *)
Fixpoint assoc {A : Type} (key : jsstring) (table : list (jsstring * A)) : option A :=
  match table with
  | [] => None
  | (k, v) :: rest => if str_eqb k key then Some v else assoc key rest
  end.

(** [WhiteSpace] and [LineTerminator] code units: the class [\s] of a regular
    expression, and what [String.prototype.trim] and [parseInt] skip. *)
Definition isSpace (c : char) : bool :=
  ((9 <=? c) && (c <=? 13) || (c =? 32) || (c =? 160) || (c =? 5760)
   || (8192 <=? c) && (c <=? 8202) || (c =? 8232) || (c =? 8233)
   || (c =? 8239) || (c =? 8287) || (c =? 12288) || (c =? 65279))%N.

(** The class [\d]. *)
Definition isDigit (c : char) : bool := ((48 <=? c) && (c <=? 57))%N.

(** [[\n\r]]. *)
Definition isNewline (c : char) : bool := ((c =? 10) || (c =? 13))%N.

(** Comparison of a subject code unit with an ASCII letter of a pattern under
    the [i] flag: canonicalisation maps no code unit above 127 to an ASCII
    one, so only the two ASCII cases of the letter match. *)
Definition isUpper (c : char) : bool := ((65 <=? c) && (c <=? 90))%N.
Definition toLowerAscii (c : char) : char := if isUpper c then (c + 32)%N else c.
Definition char_eqbi (p c : char) : bool :=
  char_eqb (toLowerAscii p) (toLowerAscii c).

Fixpoint dropWhile (p : char -> bool) (s : jsstring) : jsstring :=
  match s with
  | [] => []
  | c :: rest => if p c then dropWhile p rest else s
  end.

Fixpoint spanLength (p : char -> bool) (s : jsstring) : nat :=
  match s with
  | [] => 0
  | c :: rest => if p c then S (spanLength p rest) else 0
  end.

(** [s.trim()]. *)
Definition trim (s : jsstring) : jsstring :=
  rev (dropWhile isSpace (rev (dropWhile isSpace s))).

(** [!s.trim()]: the string is empty or all white space. *)
Definition isBlank (s : jsstring) : bool := forallb isSpace s.

(** [s.startsWith(p)]. *)
Fixpoint startsWith (p s : jsstring) : bool :=
  match p, s with
  | [], _ => true
  | x :: p', y :: s' => char_eqb x y && startsWith p' s'
  | _ :: _, [] => false
  end.


(** [text.replace(/X+/g, ' ')] for a character class [X]: every maximal run
    of class members becomes one space. *)
Fixpoint collapseRuns (p : char -> bool) (inRun : bool) (s : jsstring) : jsstring :=
  match s with
  | [] => []
  | c :: rest =>
      if p c then (if inRun then collapseRuns p true rest
                   else 32%N :: collapseRuns p true rest)
      else c :: collapseRuns p false rest
  end.

(** ** The regular expressions of the source

    Every pattern of the service is a sequence of the pieces below.  In each
    of them a repetition is followed by a piece that no member of the repeated
    class can start, so the greedy, left-to-right reading of [matchPieces]
    finds exactly the match of the backtracking matcher. *)
Inductive piece : Type :=
| PChar (c : char)      (** a literal code unit *)
| PCharI (c : char)     (** a literal code unit under the [i] flag *)
| PSpaces               (** [\s*] *)
| PDigits1              (** [\d+] *)
| POpt (c : char).      (** [c?] *)

Definition pattern := list piece.

(** Length of the match of the pattern at the start of [s], if it matches. *)
Fixpoint matchPieces (ps : pattern) (s : jsstring) : option nat :=
  match ps with
  | [] => Some 0
  | PChar c :: ps' =>
      match s with
      | x :: s' => if char_eqb c x then option_map S (matchPieces ps' s') else None
      | [] => None
      end
  | PCharI c :: ps' =>
      match s with
      | x :: s' => if char_eqbi c x then option_map S (matchPieces ps' s') else None
      | [] => None
      end
  | PSpaces :: ps' =>
      let k := spanLength isSpace s in
      option_map (Nat.add k) (matchPieces ps' (skipn k s))
  | PDigits1 :: ps' =>
      let k := spanLength isDigit s in
      match k with
      | 0 => None
      | _ => option_map (Nat.add k) (matchPieces ps' (skipn k s))
      end
  | POpt c :: ps' =>
      match s with
      | x :: s' =>
          if char_eqb c x then option_map S (matchPieces ps' s')
          else matchPieces ps' s
      | [] => matchPieces ps' s
      end
  end.

(** The literal [s] as a pattern, exact or under the [i] flag. *)
Definition exact (s : string) : pattern := map PChar (lit s).
Definition nocase (s : string) : pattern := map PCharI (lit s).

(** [re.test(s)] for an unanchored pattern: it matches at some position. *)
Fixpoint test (ps : pattern) (s : jsstring) : bool :=
  match matchPieces ps s with
  | Some _ => true
  | None => match s with
            | [] => false
            | _ :: rest => test ps rest
            end
  end.

(** A matcher answers, for the text that starts at the current position,
    how many code units the pattern matches there and what replaces them. *)
Definition matcher := jsstring -> option (nat * jsstring).

(** [s.replace(re, ...)] with the [g] flag: scan from the left, replace the
    match found at the earliest position, resume behind it.  [skip] counts
    the code units of the current match still to be passed over.  No pattern
    of the service matches the empty string. *)
Fixpoint replaceFrom (m : matcher) (skip : nat) (s : jsstring) : jsstring :=
  match s with
  | [] => []
  | c :: rest =>
      match skip with
      | S k => replaceFrom m k rest
      | 0 =>
          match m s with
          | Some (S k, r) => r ++ replaceFrom m k rest
          | _ => c :: replaceFrom m 0 rest
          end
      end
  end.

Definition replaceAll (m : matcher) (s : jsstring) : jsstring := replaceFrom m 0 s.

(** A pattern replaced by a fixed text. *)
Definition replacing (ps : pattern) (by_ : jsstring) : matcher :=
  fun s => option_map (fun k => (k, by_)) (matchPieces ps s).

(** Decimal digits of a natural number, most significant first. *)
Fixpoint digitsFuel (fuel : nat) (n : N) (acc : jsstring) : jsstring :=
  match fuel with
  | 0 => acc
  | S fuel' =>
      let acc' := (48 + n mod 10)%N :: acc in
      if (n <? 10)%N then acc' else digitsFuel fuel' (n / 10)%N acc'
  end.

Definition digits (n : N) : jsstring := digitsFuel (S (N.to_nat (N.log2 n))) n [].

(** ** Numbers

    The running index of an ordered list is a Number that holds an integer
    or an infinity.  Such a Number is embedded as the integer it holds, in
    [Z]; the two infinities as [INFINITY] and [- INFINITY] ([2^1024], the
    first power of two behind the finite Numbers); [-0] as [0], like which
    it prints and steps. *)
Definition INFINITY : Z := (2 ^ 1024)%Z.

(** The Number value for an integer: the integer itself up to [2^53] in
    magnitude; behind that the nearest integer with a significand of 53
    bits, a tie going to the even significand; an infinity from
    [2^1024 - 2^970] on. *)
Definition toNumber (z : Z) : Z :=
  let a := Z.abs z in
  if (a <=? 2 ^ 53)%Z then z
  else
    let e := (Z.log2 a - 52)%Z in
    let q := (a / 2 ^ e)%Z in
    let r := (a mod 2 ^ e)%Z in
    let half := (2 ^ (e - 1))%Z in
    let q' := if (r <? half)%Z then q
              else if (half <? r)%Z then (q + 1)%Z
              else if Z.even q then q else (q + 1)%Z in
    (Z.sgn z * Z.min (q' * 2 ^ e) INFINITY)%Z.

(** [n++] and [n + 1] on Numbers: the sum is rounded to a Number.  From
    [2^53] on a step may leave the index where it is. *)
Definition increment (n : Z) : Z := toNumber (n + 1)%Z.

(** The plain decimal form of an integer. *)
Definition decimal (n : Z) : jsstring :=
  match n with
  | Z0 => lit "0"
  | Zpos p => digits (Npos p)
  | Zneg p => 45%N :: digits (Npos p)
  end.

(** The decimal number with the fewest significant digits that reads as the
    Number [a] (finite, from [2^53] on): the multiple of the highest power of
    ten [10^j] that does, the one nearest to [a] if there are two, with the
    even quotient if both are as near. *)
Fixpoint shortest (j : nat) (a : Z) : Z :=
  let p := (10 ^ Z.of_nat j)%Z in
  let below := (a / p * p)%Z in
  let above := (below + p)%Z in
  let okBelow := (0 <? below)%Z && (toNumber below =? a)%Z in
  let okAbove := (toNumber above =? a)%Z in
  if okBelow && okAbove then
    if (a - below <? above - a)%Z then below
    else if (above - a <? a - below)%Z then above
    else if Z.even (below / p) then below else above
  else if okBelow then below
  else if okAbove then above
  else match j with
       | O => a
       | S j' => shortest j' a
       end.

Fixpoint stripZeros (reversed : jsstring) : jsstring :=
  match reversed with
  | c :: rest => if (c =? 48)%N then stripZeros rest else reversed
  | [] => []
  end.

(** The form of a finite Number from [2^53] on: up to 21 digits are written
    out, the digits behind the significant ones as zeros; a longer number is
    written with an exponent. *)
Definition large (a : Z) : jsstring :=
  let ds := digits (Z.to_N (shortest (S (Z.to_nat (Z.log2 a / 3))) a)) in
  let n := List.length ds in
  if n <=? 21 then ds
  else
    match rev (stripZeros (rev ds)) with
    | [] => ds
    | d :: more =>
        d :: (match more with [] => [] | _ => 46%N :: more end)
          ++ lit "e+" ++ digits (N.of_nat (n - 1))
    end.

(** [`${n}`] for a Number that holds an integer or an infinity
    ([Number::toString], the digits chosen as the engines do). *)
Definition numberToString (n : Z) : jsstring :=
  let a := Z.abs n in
  if (a <? 2 ^ 53)%Z then decimal n
  else
    (if (n <? 0)%Z then [45%N] else [])
      ++ (if (INFINITY <=? a)%Z then lit "Infinity" else large a).

Fixpoint digitsValue (s : jsstring) (acc : N) : N :=
  match s with
  | [] => acc
  | c :: rest => digitsValue rest (10 * acc + (c - 48))%N
  end.

(** [parseInt(s, 10)]: skip leading white space, read an optional sign, then
    the longest run of decimal digits; the result is the Number value for
    the integer read (the engines round it correctly also behind the 20
    significant digits up to which the standard asks for it); [None] is
    [NaN] (no digit). *)
Definition parseInt10 (s : jsstring) : option Z :=
  let s1 := dropWhile isSpace s in
  let '(negative, s2) :=
    match s1 with
    | c :: rest => if (c =? 45)%N then (true, rest)
                   else if (c =? 43)%N then (false, rest) else (false, s1)
    | [] => (false, s1)
    end in
  let k := spanLength isDigit s2 in
  match k with
  | 0 => None
  | _ => let v := Z.of_N (digitsValue (firstn k s2) 0) in
         Some (toNumber (if negative then (- v)%Z else v))
  end.

End JS.

Import JS.

(* ================================================================== *)
(** * The DOM: parsed input trees and rewritten output trees *)
(* ================================================================== *)

Module Dom.

(** A node of the parsed document.  [tagName] holds [el.tagName.toLowerCase()],
    the only form in which the engine looks at a tag; [attributes] are in
    document order, names unique.  Nodes that are neither text nor element
    (comments) are [Other]. *)
Inductive node : Type :=
| Text (data : jsstring)
| Element (tagName : jsstring) (attributes : list (jsstring * jsstring))
          (childNodes : list node)
| Other.

(** What [parseFromString(_, 'text/html')] returns, as far as the engine
    looks at it: the elements of the head and the children of the body. *)
Record Document : Type := { head : list node; body : list node }.

(** [el.getAttribute(name)], [None] for [null]. *)
Definition getAttribute (name : jsstring) (attrs : list (jsstring * jsstring))
  : option jsstring := assoc name attrs.

(** [el.getAttribute(name) || '']. *)
Definition attributeOrEmpty (name : jsstring) (attrs : list (jsstring * jsstring))
  : jsstring :=
  match getAttribute name attrs with Some v => v | None => [] end.

(** [node.textContent] of an input node: the text of its descendants. *)
Fixpoint textContent (n : node) : jsstring :=
  match n with
  | Text data => data
  | Element _ _ children => flat_map textContent children
  | Other => []
  end.

(** Is there an element satisfying [p] in the subtree of [n] ([n] included)? *)
Fixpoint anyElement (p : jsstring -> bool) (n : node) : bool :=
  match n with
  | Element tag _ children => p tag || existsb (anyElement p) children
  | _ => false
  end.

(** [doc.querySelector('parsererror')] finds something. *)
Definition hasParserError (doc : Document) : bool :=
  existsb (anyElement (str_eqb (lit "parsererror"))) (head doc ++ body doc).

(** A node the engine creates: [document.createTextNode] or
    [document.createElement]; the engine never sets an attribute. *)
Inductive onode : Type :=
| OText (data : jsstring)
| OElem (tag : jsstring) (children : list onode).

(** What [processNode] returns when it is not [null]: one node, or a
    [DocumentFragment] with its children. *)
Inductive result : Type :=
| RNode (n : onode)
| RFrag (children : list onode).

(** The nodes that [parent.appendChild(r)] adds: a fragment gives up its
    children, any other node is added itself. *)
Definition nodesOf (r : result) : list onode :=
  match r with
  | RNode n => [n]
  | RFrag l => l
  end.

(** [if (processed) fragment.appendChild(processed)]. *)
Definition appended (processed : option result) : list onode :=
  match processed with
  | Some r => nodesOf r
  | None => []
  end.

(** [document.createElement(tag)] followed by [appendChild(content)]. *)
Definition wrap (content : result) (tag : string) : result :=
  RNode (OElem (lit tag) (nodesOf content)).

Definition br : onode := OElem (lit "br") [].

(** [fragment.hasChildNodes()]. *)
Definition hasChildNodes (fragment : list onode) : bool :=
  match fragment with [] => false | _ => true end.

(** [el.textContent] of an output node. *)
Fixpoint otextContent (n : onode) : jsstring :=
  match n with
  | OText data => data
  | OElem _ children => flat_map otextContent children
  end.

(** Serialisation of a text node: [&], no-break space, [<] and [>] are
    written as character references. *)
Definition escapeChar (c : char) : jsstring :=
  if (c =? 38)%N then lit "&amp;"
  else if (c =? 160)%N then lit "&nbsp;"
  else if (c =? 60)%N then lit "&lt;"
  else if (c =? 62)%N then lit "&gt;"
  else [c].

Definition escapeText (s : jsstring) : jsstring := flat_map escapeChar s.

(** Elements serialised without content and end tag. *)
Definition VOID_ELEMENTS : list jsstring :=
  map lit ["area"; "base"; "basefont"; "bgsound"; "br"; "col"; "embed";
           "frame"; "hr"; "img"; "input"; "keygen"; "link"; "meta"; "param";
           "source"; "track"; "wbr"]%string.

(** The HTML fragment serialisation of one node.  The engine only creates
    elements under which text is escaped. *)
Fixpoint serialize (n : onode) : jsstring :=
  match n with
  | OText data => escapeText data
  | OElem tag children =>
      lit "<" ++ tag ++ lit ">" ++
      (if mem tag VOID_ELEMENTS then []
       else flat_map serialize children ++ lit "</" ++ tag ++ lit ">")
  end.

(** [tempDiv.innerHTML]. *)
Definition innerHTML (children : list onode) : jsstring := flat_map serialize children.

End Dom.

Import Dom.

(* ================================================================== *)
(** * Types shared by both variants ([types.ts]) *)
(* ================================================================== *)

Inductive Mode : Type := standard | ai.

Record ConversionConfig : Type := {
  mode : Mode;
  useParagraphs : bool;
  convertDivsToP : bool;
  cleanAttributes : bool;
  aggressiveWhitespace : bool
}.

Record ProcessingStats : Type := {
  originalLength : nat;
  finalLength : nat;
  tagsRemoved : nat;
  attributesRemoved : nat
}.

(** The value [cleanHtml] returns; [error] is [None] when the property is
    absent. *)
Record Conversion : Type := {
  html : jsstring;
  stats : ProcessingStats;
  error : option jsstring
}.

(** A call that either returns or throws.  What is thrown is an object, as
    the errors of the two libraries and of the engine's own [throw] are; it
    is seen through its [message] (empty when it has none). *)
Inductive outcome (A : Type) : Type :=
| Returns (a : A)
| Throws (message : jsstring).
Arguments Returns {A} a.
Arguments Throws {A} message.

Definition bind {A B : Type} (x : outcome A) (f : A -> outcome B) : outcome B :=
  match x with
  | Returns a => f a
  | Throws m => Throws m
  end.

(** The two counters [processNode] updates: [tagsRemoved] and
    [attributesRemoved]. *)
Record counters : Type := { removedTags : nat; removedAttributes : nat }.

Definition noCounts : counters := {| removedTags := 0; removedAttributes := 0 |}.

Definition countTag (k : counters) : counters :=
  {| removedTags := S (removedTags k); removedAttributes := removedAttributes k |}.

Definition countAttribute (k : counters) : counters :=
  {| removedTags := removedTags k; removedAttributes := S (removedAttributes k) |}.

(** [Array.from(nodes).forEach(child => { const processed = f(child); if
    (processed) fragment.appendChild(processed) })], the counters threaded
    through the calls in order. *)
Definition forEachAppend (f : node -> counters -> option result * counters)
  : list node -> counters -> list onode * counters :=
  fix go (l : list node) (k : counters) : list onode * counters :=
    match l with
    | [] => ([], k)
    | child :: rest =>
        let '(processed, k1) := f child k in
        let '(more, k2) := go rest k1 in
        (appended processed ++ more, k2)
    end.

(** [while (s.startsWith('<br>')) s = s.substring(4)]. *)
Fixpoint stripLeadingBr (s : jsstring) : jsstring :=
  match s with
  | c1 :: (c2 :: (c3 :: (c4 :: rest))) =>
      if str_eqb [c1; c2; c3; c4] (lit "<br>") then stripLeadingBr rest else s
  | _ => s
  end.

(** The same loop on the reversed string, for the break spelled backwards. *)
Fixpoint stripLeadingRb (s : jsstring) : jsstring :=
  match s with
  | c1 :: (c2 :: (c3 :: (c4 :: rest))) =>
      if str_eqb [c1; c2; c3; c4] (lit ">rb<") then stripLeadingRb rest else s
  | _ => s
  end.

(** [while (s.endsWith('<br>')) s = s.substring(0, s.length - 4)]. *)
Definition stripTrailingBr (s : jsstring) : jsstring := rev (stripLeadingRb (rev s)).

(* ================================================================== *)
(** * First variant: rewriting and clean-up on the DOM *)
(* ================================================================== *)

Module V1.

(** Tags to ignore completely. *)
Definition IGNORE_TAGS : list jsstring :=
  map lit ["script"; "style"; "svg"; "xml"; "head"; "meta"; "link"; "object";
           "iframe"; "template"; "noscript"; "button"; "input"; "select";
           "textarea"]%string.

(** Tags that represent blocks (the first variant never reads this set). *)
Definition BLOCK_TAGS : list jsstring :=
  map lit ["div"; "p"; "h1"; "h2"; "h3"; "h4"; "h5"; "h6"; "article"; "section";
           "nav"; "aside"; "header"; "footer"; "blockquote"; "pre"; "figure";
           "li"; "tr"; "ul"; "ol"; "table"]%string.

Definition BASE_TAG_MAP : list (jsstring * jsstring) :=
  map (fun kv => (lit (fst kv), lit (snd kv)))
    [("strong", "b"); ("b", "b");
     ("em", "i"); ("i", "i"); ("cite", "i"); ("var", "i");
     ("u", "u"); ("ins", "u");
     ("sub", "sub"); ("sup", "sup");
     ("br", "br"); ("hr", "br");
     ("p", "p"); ("div", "p"); ("blockquote", "p"); ("pre", "p");
     ("address", "p"); ("center", "p");
     ("h1", "p"); ("h2", "p"); ("h3", "p"); ("h4", "p"); ("h5", "p"); ("h6", "p");
     ("article", "p"); ("section", "p"); ("main", "p"); ("nav", "p");
     ("aside", "p"); ("header", "p"); ("footer", "p");
     ("ul", "ul"); ("ol", "ol"); ("li", "li");
     ("dl", "p"); ("dd", "br"); ("dt", "b");
     ("table", "p"); ("tr", "br"); ("td", "span"); ("th", "b")]%string.

(** [BASE_TAG_MAP[tagName]].  A name the object only inherits (such as
    [constructor]) yields a value equal to no string and truthy, which the
    code below treats like [undefined], here [None]. *)
Definition lookupTag (tagName : jsstring) : option jsstring :=
  assoc tagName BASE_TAG_MAP.

(** [targetTag === 'x']. *)
Definition targetIs (targetTag : option jsstring) (x : string) : bool :=
  match targetTag with
  | Some t => str_eqb t (lit x)
  | None => false
  end.

Definition colon : piece := PChar 58%N.

(** [/font-weight\s*:\s*(bold|700|800|900)/i.test(style)]. *)
Definition isBoldStyle (style : jsstring) : bool :=
  let property := nocase "font-weight" ++ [PSpaces; colon; PSpaces] in
  test (property ++ nocase "bold") style
  || test (property ++ nocase "700") style
  || test (property ++ nocase "800") style
  || test (property ++ nocase "900") style.

(** [/font-style\s*:\s*italic/i.test(style)]. *)
Definition isItalicStyle (style : jsstring) : bool :=
  test (nocase "font-style" ++ [PSpaces; colon; PSpaces] ++ nocase "italic") style.

(** [/text-decoration\s*:\s*underline/i.test(style)]. *)
Definition isUnderlineStyle (style : jsstring) : bool :=
  test (nocase "text-decoration" ++ [PSpaces; colon; PSpaces] ++ nocase "underline")
       style.

(** [/^h[1-6]$/.test(tagName)]. *)
Definition isHeaderTag (tagName : jsstring) : bool :=
  match tagName with
  | [h; d] => (h =? 104)%N && (49 <=? d)%N && (d <=? 54)%N
  | _ => false
  end.

Record ConversionContext : Type := {
  insideListListItem : bool  (** an absent property reads as [false] *)
}.

Definition topContext : ConversionContext := {| insideListListItem := false |}.

(** The text-node branch of [processNode]. *)
Definition processText (config : ConversionConfig) (data : jsstring) : option result :=
  let text := collapseRuns isNewline false data in
  let text := if aggressiveWhitespace config
              then collapseRuns isSpace false text else text in
  match text with
  | [] => None
  | _ => Some (RNode (OText text))
  end.

(** The visual wrappers, innermost first: sub, sup, u, i, b. *)
Definition applyWrappers (tagName styleAttr : jsstring)
    (targetTag : option jsstring) (fragment : list onode) : result :=
  let result := RFrag fragment in
  let result := if targetIs targetTag "sub" then wrap result "sub" else result in
  let result := if targetIs targetTag "sup" then wrap result "sup" else result in
  let result := if targetIs targetTag "u" || isUnderlineStyle styleAttr
                then wrap result "u" else result in
  let result := if targetIs targetTag "i" || isItalicStyle styleAttr
                then wrap result "i" else result in
  let result := if targetIs targetTag "b" || isBoldStyle styleAttr
                   || isHeaderTag tagName || str_eqb tagName (lit "th")
                then wrap result "b" else result in
  result.

(** The element branch of [processNode] once the children are processed:
    the emptiness test, the wrappers and the block wrapper. *)
Definition buildElement (context : ConversionContext) (tagName styleAttr : jsstring)
    (fragment : list onode) : option result :=
  let targetTag := lookupTag tagName in
  if negb (hasChildNodes fragment) && negb (targetIs targetTag "br") then None
  else
    let result := applyWrappers tagName styleAttr targetTag fragment in
    if targetIs targetTag "p" then
      if insideListListItem context then Some result
      else Some (wrap result "p")
    else if targetIs targetTag "br" then Some (RNode br)
    else if targetIs targetTag "ul" then Some (wrap result "ul")
    else if targetIs targetTag "ol" then Some (wrap result "ol")
    else if targetIs targetTag "li" then Some (wrap result "li")
    else Some result.

Definition childContextOf (context : ConversionContext) (tagName : jsstring)
  : ConversionContext :=
  {| insideListListItem := str_eqb tagName (lit "li") || insideListListItem context |}.

(** [if (styleAttr) attributesRemoved++]. *)
Definition countStyle (styleAttr : jsstring) (k : counters) : counters :=
  match styleAttr with
  | [] => k
  | _ => countAttribute k
  end.

(** The DOM walker. *)
Fixpoint processNode (config : ConversionConfig) (n : node)
    (context : ConversionContext) (k : counters) {struct n}
  : option result * counters :=
  match n with
  | Text data => (processText config data, k)
  | Element tagName attrs children =>
      if mem tagName IGNORE_TAGS then (None, countTag k)
      else
        let styleAttr := attributeOrEmpty (lit "style") attrs in
        let k := countStyle styleAttr k in
        let childContext := childContextOf context tagName in
        let '(fragment, k) :=
          forEachAppend (fun child => processNode config child childContext)
                        children k in
        (buildElement context tagName styleAttr fragment, k)
  | Other => (None, k)
  end.

(** [querySelectorAll('b, i, u, sub, sup, p, li')]. *)
Definition EMPTY_CANDIDATES : list jsstring :=
  map lit ["b"; "i"; "u"; "sub"; "sup"; "p"; "li"]%string.

(** [el.querySelectorAll('br').length !== 0]: a [br] among the descendants. *)
Fixpoint containsBr (n : onode) : bool :=
  match n with
  | OText _ => false
  | OElem _ children =>
      existsb (fun c => match c with
                        | OText _ => false
                        | OElem t _ => str_eqb t (lit "br") || containsBr c
                        end) children
  end.

(** [cleanEmptyTags].  The loop visits the candidates in reverse document
    order, so every element is tested after its descendants; removing a
    blank, break-free descendant changes neither whether the text of an
    ancestor is blank nor whether it contains a break, hence every test has
    the outcome it has on the untouched tree, and a removed element takes its
    subtree along. *)
Fixpoint cleanEmptyTags (n : onode) : list onode :=
  match n with
  | OText _ => [n]
  | OElem tag children =>
      if mem tag EMPTY_CANDIDATES && isBlank (otextContent n) && negb (containsBr n)
      then []
      else [OElem tag (flat_map cleanEmptyTags children)]
  end.

(** The paragraph loop of line-break mode: each [p] gives way to its children
    followed by two breaks.  The loop takes the paragraphs in document order,
    an outer one before the ones it contains; those move up with the other
    children and are replaced in their turn, which ends in the tree computed
    here. *)
Fixpoint unwrapParagraphs (n : onode) : list onode :=
  match n with
  | OText _ => [n]
  | OElem tag children =>
      let inner := flat_map unwrapParagraphs children in
      if str_eqb tag (lit "p") then inner ++ [br; br]
      else [OElem tag inner]
  end.

(** The tree held by [tempDiv] when it is serialised. *)
Definition postProcess (config : ConversionConfig) (fragment : list onode)
  : list onode :=
  let cleaned := flat_map cleanEmptyTags fragment in
  if negb (useParagraphs config) then flat_map unwrapParagraphs cleaned
  else cleaned.

(** [innerHTML], [trim], then the two loops on [<br>]. *)
Definition finish (children : list onode) : jsstring :=
  stripTrailingBr (stripLeadingBr (trim (innerHTML children))).

Definition MALFORMED : jsstring := lit "Malformed HTML structure detected.".
Definition UNEXPECTED : jsstring :=
  lit "An unexpected error occurred during processing.".

Section Engine.

(** [DOMPurify.sanitize(_, {FORBID_TAGS, FORBID_ATTR})] and
    [new DOMParser().parseFromString(_, 'text/html')]. *)
Variable sanitize : jsstring -> outcome jsstring.
Variable parseFromString : jsstring -> outcome Document.

(** The body of the [try] block. *)
Definition attempt (rawHtml : jsstring) (config : ConversionConfig)
  : outcome Conversion :=
  bind (sanitize rawHtml) (fun cleanInput =>
  bind (parseFromString cleanInput) (fun doc =>
  if hasParserError doc then Throws MALFORMED
  else
    let '(resultFragment, k) :=
      forEachAppend (fun n => processNode config n topContext) (body doc) noCounts in
    let finalHtml := finish (postProcess config resultFragment) in
    Returns {| html := finalHtml;
               stats := {| originalLength := List.length rawHtml;
                           finalLength := List.length finalHtml;
                           tagsRemoved := removedTags k;
                           attributesRemoved := removedAttributes k |};
               error := None |})).

Definition zeroStats : ProcessingStats :=
  {| originalLength := 0; finalLength := 0; tagsRemoved := 0; attributesRemoved := 0 |}.

(** [cleanHtml]: the [try] block and its [catch]. *)
Definition cleanHtml (rawHtml : jsstring) (config : ConversionConfig) : Conversion :=
  match attempt rawHtml config with
  | Returns r => r
  | Throws message =>
      {| html := [];
         stats := zeroStats;
         error := Some (match message with [] => UNEXPECTED | _ => message end) |}
  end.

End Engine.

End V1.

(* ================================================================== *)
(** * Second variant: lists flattened to prefixes, clean-up by patterns *)
(* ================================================================== *)

Module V2.

(** Tags to ignore completely (content and all). *)
Definition IGNORE_TAGS : list jsstring :=
  map lit ["script"; "style"; "svg"; "xml"; "head"; "meta"; "link"; "object";
           "iframe"; "template"; "noscript"; "button"; "input"; "select";
           "textarea"]%string.

(** Block tags that should generally trigger a paragraph or break. *)
Definition BLOCK_TAGS : list jsstring :=
  map lit ["div"; "p"; "h1"; "h2"; "h3"; "h4"; "h5"; "h6"; "article"; "section";
           "nav"; "aside"; "header"; "footer"; "blockquote"; "pre"; "figure";
           "li"; "tr"; "ul"; "ol"; "table"]%string.

Definition BASE_TAG_MAP : list (jsstring * jsstring) :=
  map (fun kv => (lit (fst kv), lit (snd kv)))
    [("strong", "b"); ("b", "b");
     ("em", "i"); ("i", "i"); ("cite", "i"); ("var", "i");
     ("u", "u"); ("ins", "u");
     ("sub", "sub"); ("sup", "sup");
     ("br", "br"); ("hr", "br");
     ("p", "p"); ("div", "p"); ("blockquote", "p"); ("pre", "p");
     ("address", "p"); ("center", "p");
     ("h1", "p"); ("h2", "p"); ("h3", "p"); ("h4", "p"); ("h5", "p"); ("h6", "p");
     ("article", "p"); ("section", "p"); ("main", "p"); ("nav", "p");
     ("aside", "p"); ("header", "p"); ("footer", "p");
     ("ul", "p"); ("ol", "p"); ("dl", "p");
     ("li", "br"); ("dd", "br"); ("dt", "b");
     ("table", "p"); ("tr", "br"); ("td", "span"); ("th", "b")]%string.

(** [BASE_TAG_MAP[tagName]], inherited names read as in the first variant. *)
Definition lookupTag (tagName : jsstring) : option jsstring :=
  assoc tagName BASE_TAG_MAP.

Definition targetIs (targetTag : option jsstring) (x : string) : bool :=
  match targetTag with
  | Some t => str_eqb t (lit x)
  | None => false
  end.

Definition colon : piece := PChar 58%N.

(** [/font-weight\s*:\s*(bold|700|800|900)/i.test(style)]. *)
Definition isBoldStyle (style : jsstring) : bool :=
  let property := nocase "font-weight" ++ [PSpaces; colon; PSpaces] in
  test (property ++ nocase "bold") style
  || test (property ++ nocase "700") style
  || test (property ++ nocase "800") style
  || test (property ++ nocase "900") style.

(** [/font-style\s*:\s*italic/i.test(style)]. *)
Definition isItalicStyle (style : jsstring) : bool :=
  test (nocase "font-style" ++ [PSpaces; colon; PSpaces] ++ nocase "italic") style.

(** [/text-decoration\s*:\s*underline/i.test(style)]. *)
Definition isUnderlineStyle (style : jsstring) : bool :=
  test (nocase "text-decoration" ++ [PSpaces; colon; PSpaces] ++ nocase "underline")
       style.

(** [/^h[1-6]$/.test(tagName)]. *)
Definition isHeaderTag (tagName : jsstring) : bool :=
  match tagName with
  | [h; d] => (h =? 104)%N && (49 <=? d)%N && (d <=? 54)%N
  | _ => false
  end.

Inductive ListType : Type := ul | ol.

Record ConversionContext : Type := {
  insideListListItem : bool;          (** absent reads as [false] *)
  parentListType : option ListType;
  listIndex : option Z
}.

Definition topContext : ConversionContext :=
  {| insideListListItem := false; parentListType := None; listIndex := None |}.

(** The pre-check: no block tag among the elements under the body, and a
    body text that is not blank. *)
Definition hasBlockStructure (doc : Document) : bool :=
  existsb (anyElement (fun tag => mem tag BLOCK_TAGS)) (body doc).

Definition treatAsPlainText (doc : Document) : bool :=
  negb (hasBlockStructure doc) && negb (isBlank (flat_map textContent (body doc))).

(** The text-node branch: the node itself is handed on, its text
    standardised unless the input counts as plain text. *)
Definition processText (config : ConversionConfig) (plain : bool) (data : jsstring)
  : option result :=
  match data with
  | [] => None
  | _ =>
      let text :=
        if negb plain then
          let t := collapseRuns isNewline false data in
          if aggressiveWhitespace config then collapseRuns isSpace false t else t
        else data in
      Some (RNode (OText text))
  end.

(** Target tag after the context override: inside a list item, blocks
    become breaks. *)
Definition targetTagOf (context : ConversionContext) (tagName : jsstring)
  : option jsstring :=
  let targetTag := lookupTag tagName in
  if insideListListItem context
     && (targetIs targetTag "p" || isHeaderTag tagName || str_eqb tagName (lit "div"))
  then Some (lit "br")
  else targetTag.

(** Initial value of [nextListIndex]. *)
Definition firstListIndex (tagName : jsstring) (attrs : list (jsstring * jsstring)) : Z :=
  if str_eqb tagName (lit "ol") then
    match getAttribute (lit "start") attrs with
    | Some (c :: startAttr) =>
        match parseInt10 (c :: startAttr) with
        | Some parsed => parsed
        | None => 1%Z
        end
    | _ => 1%Z
    end
  else 1%Z.

(** The visual prefix. *)
Definition prefixOf (context : ConversionContext) (tagName : jsstring) : jsstring :=
  if str_eqb tagName (lit "li") then
    match parentListType context, listIndex context with
    | Some ol, Some index => numberToString index ++ lit ". "
    | _, _ => [bullet; 32%N]
    end
  else if str_eqb tagName (lit "td") then lit " "
  else [].

Definition prefixNodes (prefix : jsstring) : list onode :=
  match prefix with
  | [] => []
  | _ => [OText prefix]
  end.

Definition childBaseContextOf (context : ConversionContext) (tagName : jsstring)
  : ConversionContext :=
  {| insideListListItem :=
       str_eqb tagName (lit "li")
       || (insideListListItem context && negb (mem tagName BLOCK_TAGS));
     parentListType :=
       if str_eqb tagName (lit "ul") then Some ul
       else if str_eqb tagName (lit "ol") then Some ol
       else parentListType context;
     listIndex := None |}.

(** [child.nodeName.toLowerCase() === 'li']. *)
Definition isListItemNode (child : node) : bool :=
  match child with
  | Element tag _ _ => str_eqb tag (lit "li")
  | _ => false
  end.

(** Does an appended node set [hasContent]?  A text node that is blank does
    not, unless the input counts as plain text. *)
Definition givesContent (plain : bool) (processed : result) : bool :=
  match processed with
  | RNode (OText text) => negb (isBlank text && negb plain)
  | _ => true
  end.

(** The loop over the children of an element: what is appended to the
    fragment, whether [hasContent] was set, and the counters.  [next] is
    [nextListIndex], a Number: each [li] child of an [ol] is handed its
    value, and [nextListIndex++] steps it in Number arithmetic. *)
Definition forEachChild
    (visit : node -> ConversionContext -> counters -> option result * counters)
    (plain : bool) (inOl : bool) (base : ConversionContext)
  : list node -> Z -> counters -> list onode * bool * counters :=
  fix go (l : list node) (next : Z) (k : counters) : list onode * bool * counters :=
    match l with
    | [] => ([], false, k)
    | child :: rest =>
        let numbered := inOl && isListItemNode child in
        let childContext :=
          if numbered
          then {| insideListListItem := insideListListItem base;
                  parentListType := parentListType base;
                  listIndex := Some next |}
          else base in
        let next' := if numbered then increment next else next in
        let '(processed, k1) := visit child childContext k in
        let '(more, hasMore, k2) := go rest next' k1 in
        match processed with
        | Some r => (nodesOf r ++ more, givesContent plain r || hasMore, k2)
        | None => (more, hasMore, k2)
        end
    end.

(** The wrappers, innermost first: sub, sup, u, i, b. *)
Definition applyWrappers (tagName styleAttr : jsstring)
    (targetTag : option jsstring) (fragment : list onode) : result :=
  let result := RFrag fragment in
  let result := if targetIs targetTag "sub" then wrap result "sub" else result in
  let result := if targetIs targetTag "sup" then wrap result "sup" else result in
  let result := if targetIs targetTag "u" || isUnderlineStyle styleAttr
                then wrap result "u" else result in
  let result := if targetIs targetTag "i" || isItalicStyle styleAttr
                then wrap result "i" else result in
  let result := if targetIs targetTag "b" || isBoldStyle styleAttr
                   || isHeaderTag tagName || str_eqb tagName (lit "th")
                then wrap result "b" else result in
  result.

(** The element branch once the children are processed. *)
Definition buildElement (context : ConversionContext) (tagName styleAttr : jsstring)
    (fragment : list onode) (hasContent : bool) : option result :=
  let targetTag := targetTagOf context tagName in
  if negb hasContent && negb (targetIs targetTag "br")
     && negb (str_eqb tagName (lit "td"))
  then None
  else
    let result := applyWrappers tagName styleAttr targetTag fragment in
    if targetIs targetTag "p" then Some (wrap result "p")
    else if targetIs targetTag "br" then Some (RFrag (br :: nodesOf result))
    else Some result.

Fixpoint processNode (config : ConversionConfig) (plain : bool) (n : node)
    (context : ConversionContext) (k : counters) {struct n}
  : option result * counters :=
  match n with
  | Text data => (processText config plain data, k)
  | Element tagName attrs children =>
      if mem tagName IGNORE_TAGS then (None, countTag k)
      else
        let styleAttr := attributeOrEmpty (lit "style") attrs in
        let prefix := prefixNodes (prefixOf context tagName) in
        let '(appendedNodes, hasContent, k) :=
          forEachChild (processNode config plain) plain
                       (str_eqb tagName (lit "ol"))
                       (childBaseContextOf context tagName)
                       children (firstListIndex tagName attrs) k in
        (buildElement context tagName styleAttr (prefix ++ appendedNodes) hasContent, k)
  | Other => (None, k)
  end.

(** ** The clean-up patterns *)

Definition gt : piece := PChar 62%N.

(** [/\n/g] to [<br>]. *)
Definition newlineToBr : matcher := replacing [PChar 10%N] (lit "<br>").

(** [/<br\s*\/?>/gi] to [<br>]. *)
Definition normalizeBr : matcher :=
  replacing (nocase "<br" ++ [PSpaces; POpt 47%N; gt]) (lit "<br>").

(** [/(•|\d+\.)\s*<br>/g] to ['$1 ']: the marker is kept, the white space
    and the break behind it become one space. *)
Definition markerBreak : matcher :=
  fun s =>
    let marker :=
      match matchPieces [PChar bullet] s with
      | Some k => Some k
      | None => matchPieces [PDigits1; PChar 46%N] s
      end in
    match marker with
    | Some k1 =>
        match matchPieces (PSpaces :: exact "<br>") (skipn k1 s) with
        | Some k2 => Some (k1 + k2, firstn k1 s ++ lit " ")
        | None => None
        end
    | None => None
    end.

(** [/<p>\s*<p>/gi] and [/<\/p>\s*<\/p>/gi]. *)
Definition nestedOpenP : matcher :=
  replacing (nocase "<p>" ++ [PSpaces] ++ nocase "<p>") (lit "<p>").
Definition nestedCloseP : matcher :=
  replacing (nocase "</p>" ++ [PSpaces] ++ nocase "</p>") (lit "</p>").

(** [/<p>\s*<br>/gi] to [<p>]. *)
Definition leadingBreakInP : matcher :=
  replacing (nocase "<p>" ++ [PSpaces] ++ nocase "<br>") (lit "<p>").

(** [/<p>/gi] to nothing, [/<\/p>/gi] to [<br><br>]. *)
Definition openP : matcher := replacing (nocase "<p>") [].
Definition closeP : matcher := replacing (nocase "</p>") (lit "<br><br>").

(** [/<x>\s*<\/x>/g] to nothing. *)
Definition emptyPair (tag : string) : matcher :=
  replacing (exact ("<" ++ tag ++ ">") ++ [PSpaces] ++ exact ("</" ++ tag ++ ">")) [].

(** The regex clean-up, steps 1 to 8.  [/^(<br>)+/] and [/(<br>)+$/] remove
    the longest run of breaks at the start and at the end, which is what the
    two loops of [stripLeadingBr] and [stripTrailingBr] do. *)
Definition cleanup (config : ConversionConfig) (plain : bool) (finalHtml : jsstring)
  : jsstring :=
  let finalHtml := if plain then replaceAll newlineToBr finalHtml else finalHtml in
  let finalHtml := replaceAll normalizeBr finalHtml in
  let finalHtml := replaceAll markerBreak finalHtml in
  let finalHtml := replaceAll nestedOpenP finalHtml in
  let finalHtml := replaceAll nestedCloseP finalHtml in
  let finalHtml := replaceAll leadingBreakInP finalHtml in
  let finalHtml :=
    if negb (useParagraphs config)
    then replaceAll closeP (replaceAll openP finalHtml)
    else finalHtml in
  let finalHtml := replaceAll (emptyPair "b") finalHtml in
  let finalHtml := replaceAll (emptyPair "i") finalHtml in
  let finalHtml := replaceAll (emptyPair "u") finalHtml in
  let finalHtml := replaceAll (emptyPair "sub") finalHtml in
  let finalHtml := replaceAll (emptyPair "sup") finalHtml in
  let finalHtml := replaceAll (emptyPair "p") finalHtml in
  let finalHtml := trim finalHtml in
  let finalHtml := stripLeadingBr finalHtml in
  stripTrailingBr finalHtml.

Definition MALFORMED : jsstring := lit "Malformed HTML structure detected.".
Definition COULD_NOT_PARSE : jsstring :=
  lit "Could not parse the provided content. It may contain unsupported binary data or malformed tags.".

Section Engine.

(** [new DOMParser().parseFromString(_, 'text/html')]. *)
Variable parseFromString : jsstring -> outcome Document.

(** The body of the [try] block. *)
Definition attempt (rawHtml : jsstring) (config : ConversionConfig)
  : outcome Conversion :=
  bind (parseFromString rawHtml) (fun doc =>
  if hasParserError doc then Throws MALFORMED
  else
    let plain := treatAsPlainText doc in
    let '(resultFragment, k) :=
      forEachAppend (fun n => processNode config plain n topContext)
                    (body doc) noCounts in
    let finalHtml := cleanup config plain (innerHTML resultFragment) in
    Returns {| html := finalHtml;
               stats := {| originalLength := List.length rawHtml;
                           finalLength := List.length finalHtml;
                           tagsRemoved := removedTags k;
                           attributesRemoved := removedAttributes k |};
               error := None |}).

Definition zeroStats : ProcessingStats :=
  {| originalLength := 0; finalLength := 0; tagsRemoved := 0; attributesRemoved := 0 |}.

(** [cleanHtml]: whatever is thrown inside the [try] block is answered with
    the same message. *)
Definition cleanHtml (rawHtml : jsstring) (config : ConversionConfig) : Conversion :=
  match attempt rawHtml config with
  | Returns r => r
  | Throws _ => {| html := []; stats := zeroStats; error := Some COULD_NOT_PARSE |}
  end.

End Engine.

End V2.

(* ================================================================== *)
(** * Vocabulary of the properties *)
(* ================================================================== *)

Module Spec.

(** The tags of the legacy dialect. *)
Definition LEGACY_TAGS : list jsstring :=
  map lit ["b"; "i"; "u"; "sub"; "sup"; "p"; "br"; "ul"; "ol"; "li"]%string.

(** The dialect without the paragraph. *)
Definition LINE_BREAK_TAGS : list jsstring :=
  map lit ["b"; "i"; "u"; "sub"; "sup"; "br"; "ul"; "ol"; "li"]%string.

(** What may stand between [<] and [>] in markup over [tags]: a tag name
    (start tag without attribute) or [/] and the name of a tag that has an
    end tag. *)
Definition tagTexts (tags : list jsstring) : list jsstring :=
  tags ++ map (cons 47%N) (filter (fun t => negb (mem t VOID_ELEMENTS)) tags).

(** Reading markup: outside any tag, or behind a [<] with the code units
    read since. *)
Inductive scanState : Type :=
| Outside
| Inside (name : jsstring).

(** Code units of the tag texts: lower-case letters and [/]. *)
Definition isNameChar (c : char) : bool :=
  ((97 <=? c) && (c <=? 122) || (c =? 47))%N.

Definition scanStep (texts : list jsstring) (st : scanState) (c : char)
  : option scanState :=
  match st with
  | Outside =>
      if (c =? 60)%N then Some (Inside [])
      else if (c =? 62)%N then None
      else Some Outside
  | Inside name =>
      if (c =? 62)%N then (if mem name texts then Some Outside else None)
      else if isNameChar c then Some (Inside (name ++ [c]))
      else None
  end.

Fixpoint scan (texts : list jsstring) (st : scanState) (s : jsstring)
  : option scanState :=
  match s with
  | [] => Some st
  | c :: rest =>
      match scanStep texts st c with
      | Some st' => scan texts st' rest
      | None => None
      end
  end.

(** [s] is text in which every [<] opens, and every [>] closes, a start or
    end tag over [tags] that is spelled in lower case and has no attribute. *)
Definition onlyTags (tags : list jsstring) (s : jsstring) : bool :=
  match scan (tagTexts tags) Outside s with
  | Some Outside => true
  | _ => false
  end.

(** Code units other than [<] and [>]. *)
Definition plainChar (c : char) : bool := negb (c =? 60)%N && negb (c =? 62)%N.

(** All element tags of an output tree are among [tags]. *)
Fixpoint treeOver (tags : list jsstring) (n : onode) : bool :=
  match n with
  | OText _ => true
  | OElem tag children => mem tag tags && forallb (treeOver tags) children
  end.

(** A matcher that keeps text inside the markup over [texts]: it only
    matches at a code unit that cannot stand inside a tag, what it matches
    ends outside any tag, and so does what it puts in its place. *)
Definition keepsMarkup (texts : list jsstring) (m : matcher) : Prop :=
  forall s k r, m s = Some (S k, r) ->
    (exists c rest, s = c :: rest /\ (c =? 62)%N = false /\ isNameChar c = false)
    /\ S k <= List.length s
    /\ (forall st, scan texts Outside (firstn (S k) s) = Some st -> st = Outside)
    /\ scan texts Outside r = Some Outside.

(** Patterns that start with the literal [<] and end with the literal [>]. *)
Definition isLiteral (c : char) (p : piece) : bool :=
  match p with
  | PChar x | PCharI x => char_eqb x c
  | _ => false
  end.

Fixpoint endsWithGt (ps : pattern) : bool :=
  match ps with
  | [] => false
  | [p] => isLiteral 62%N p
  | _ :: ps' => endsWithGt ps'
  end.

Definition tagShaped (ps : pattern) : bool :=
  match ps with
  | p :: _ => isLiteral 60%N p && endsWithGt ps
  | [] => false
  end.

(** While a tag [<w>] is being removed: inside a tag, what was read and
    what follows do not spell [w>]. *)
Definition pending (w : jsstring) (st : scanState) (s : jsstring) : Prop :=
  match st with
  | Outside => True
  | Inside name => startsWith (w ++ [62%N]) (name ++ s) = false
  end.

(** The tag texts without [w]. *)
Definition without (w : jsstring) (texts : list jsstring) : list jsstring :=
  filter (fun t => negb (str_eqb t w)) texts.

(** The texts a pattern matches, read declaratively. *)
Fixpoint Lang (ps : pattern) (m : jsstring) : Prop :=
  match ps with
  | [] => m = []
  | PChar c :: ps' => exists m', m = c :: m' /\ Lang ps' m'
  | PCharI c :: ps' => exists x m', m = x :: m' /\ char_eqbi c x = true /\ Lang ps' m'
  | PSpaces :: ps' =>
      exists ws m', m = ws ++ m' /\ forallb isSpace ws = true /\ Lang ps' m'
  | PDigits1 :: ps' =>
      exists ds m', m = ds ++ m' /\ ds <> [] /\ forallb isDigit ds = true /\ Lang ps' m'
  | POpt c :: ps' => Lang ps' m \/ exists m', m = c :: m' /\ Lang ps' m'
  end.

(** Patterns of literals in which every [\s*] is followed by a literal that
    is not white space: for them the greedy reading of [matchPieces] loses
    no match. *)
Fixpoint spaceGuarded (ps : pattern) : bool :=
  match ps with
  | [] => true
  | PSpaces :: ps' =>
      match ps' with
      | PChar c :: _ | PCharI c :: _ => negb (isSpace c) && spaceGuarded ps'
      | _ => false
      end
  | PChar _ :: ps' | PCharI _ :: ps' => spaceGuarded ps'
  | _ => false
  end.

(** Some part of [s] is matched by the pattern. *)
Definition occursIn (ps : pattern) (s : jsstring) : Prop :=
  exists before m after, s = before ++ m ++ after /\ Lang ps m.

(** [property], white space, a colon, white space, [value]; letters in
    either case. *)
Definition declaration (property value : string) : pattern :=
  nocase property ++ [PSpaces; PChar 58%N; PSpaces] ++ nocase value.

Definition declaresBold (style : jsstring) : Prop :=
  exists value, In value ["bold"; "700"; "800"; "900"]%string
                /\ occursIn (declaration "font-weight" value) style.

Definition declaresItalic (style : jsstring) : Prop :=
  occursIn (declaration "font-style" "italic") style.

(** A text-decoration whose value begins with [underline]. *)
Definition declaresUnderlineFirst (style : jsstring) : Prop :=
  occursIn (declaration "text-decoration" "underline") style.

(** A text-decoration whose value contains [underline]: the word stands
    anywhere behind the colon, before the end of the declaration. *)
Definition declaresUnderlineWithin (style : jsstring) : Prop :=
  exists before name ws middle word after,
    style = before ++ name ++ ws ++ [58%N] ++ middle ++ word ++ after
    /\ Lang (nocase "text-decoration") name
    /\ forallb isSpace ws = true
    /\ forallb (fun c => negb (c =? 59)%N) middle = true
    /\ Lang (nocase "underline") word.

(** An output tree read back as an input tree: elements without attributes,
    text as it is. *)
Fixpoint readBack (n : onode) : node :=
  match n with
  | OText data => Text data
  | OElem tag children => Element tag [] (map readBack children)
  end.

(** Inline and list tags of the dialect. *)
Definition WRAPPER_TAGS : list jsstring :=
  map lit ["sub"; "sup"; "u"; "i"; "b"; "ul"; "ol"; "li"]%string.

(** Output trees as the first walker leaves them under a context with the
    given [insideListListItem]: normalised text; [br] without children;
    other elements of the dialect with at least one child; no paragraph
    inside a list item. *)
Fixpoint settled (config : ConversionConfig) (inside : bool) (n : onode) : bool :=
  match n with
  | OText data =>
      match V1.processText config data with
      | Some (RNode (OText data')) => str_eqb data' data
      | _ => false
      end
  | OElem tag children =>
      if str_eqb tag (lit "br") then negb (hasChildNodes children)
      else (mem tag WRAPPER_TAGS || negb inside && str_eqb tag (lit "p"))
           && hasChildNodes children
           && forallb (settled config (str_eqb tag (lit "li") || inside)) children
  end.

(** Number of elements the walker reaches (not inside a discarded subtree)
    that have a non-empty style attribute. *)
Fixpoint styledElements (n : node) : nat :=
  match n with
  | Element tag attrs children =>
      if mem tag V1.IGNORE_TAGS then 0
      else (match attributeOrEmpty (lit "style") attrs with [] => 0 | _ => 1 end)
           + list_sum (map styledElements children)
  | _ => 0
  end.

(** Number of [li] elements in a list of nodes. *)
Definition listItems (l : list node) : nat :=
  List.length (filter V2.isListItemNode l).

(** The context a child of an element receives in the second variant: the
    base context, with the running index for an [li] child of an [ol]. *)
Definition contextOfChild (inOl : bool) (base : V2.ConversionContext) (next : Z)
    (child : node) : V2.ConversionContext :=
  if inOl && V2.isListItemNode child
  then {| V2.insideListListItem := V2.insideListListItem base;
          V2.parentListType := V2.parentListType base;
          V2.listIndex := Some next |}
  else base.

(** [nextListIndex] once the children [l] have been visited: stepped once
    for each [li] among them. *)
Definition indexAfter (inOl : bool) (next : Z) (l : list node) : Z :=
  if inOl then Nat.iter (listItems l) increment next else next.

(** The marker of a list item. *)
Definition markerOf (context : V2.ConversionContext) : jsstring :=
  match V2.parentListType context, V2.listIndex context with
  | Some V2.ol, Some index => numberToString index ++ lit ". "
  | _, _ => [bullet; 32%N]
  end.

(** [hasContent] as one processed child sets it. *)
Definition contentOf (plain : bool) (processed : option result) : bool :=
  match processed with
  | Some r => V2.givesContent plain r
  | None => false
  end.

(** The safe integers, on which Number arithmetic is integer arithmetic. *)
Definition safeInteger (n : Z) : Prop := (Z.abs n < 2 ^ 53)%Z.

End Spec.

(* ================================================================== *)
(** * Sample environment

    Answers of the sanitiser and of the HTML parser on the few inputs the
    examples below run the engine on.  A text that is not tabulated is
    answered with an exception; no example relies on that. *)
(* ================================================================== *)

Module Sample.

Definition element (tag : string) (children : list node) : node :=
  Element (lit tag) [] children.

Definition styled (tag style : string) (children : list node) : node :=
  Element (lit tag) [(lit "style", lit style)] children.

Definition text (data : string) : node := Text (lit data).

(** The sanitiser is called with [FORBID_TAGS: ['style', 'script']]: the
    script element goes, content included.  The other inputs hold nothing
    it removes and come back unchanged. *)
Definition sanitize (dirty : jsstring) : outcome jsstring :=
  if str_eqb dirty (lit "<script>alert(1)</script>Safe text")
  then Returns (lit "Safe text")
  else Returns dirty.

Definition PARSES : list (jsstring * list node) :=
  [ (lit "<ul><li><p>Item</p></li></ul>",
     [element "ul" [element "li" [element "p" [text "Item"]]]]);
    (lit "<h1>Title</h1><p>Body</p>",
     [element "h1" [text "Title"]; element "p" [text "Body"]]);
    (lit "<b></b><p>   </p>",
     [element "b" []; element "p" [text "   "]]);
    (lit "<body><script>alert(1)</script>Safe text",
     [element "script" [text "alert(1)"]; text "Safe text"]);
    (lit "Safe text", [text "Safe text"]);
    (lit "<br> a", [element "br" []; text " a"]);
    (lit " a", [text "a"]);
    (lit "<p style=" ++ [34%N] ++ lit "color:red" ++ [34%N] ++ lit ">x</p>",
     [styled "p" "color:red" [text "x"]]);
    (lit "<ol><div><li>x</li></div></ol>",
     [element "ol" [element "div" [element "li" [text "x"]]]]);
    (lit "<ul><li>a<p></p></li></ul>",
     [element "ul" [element "li" [text "a"; element "p" []]]]);
    (lit "<parsererror>x</parsererror>",
     [element "parsererror" [text "x"]])
  ].

Definition parseFromString (markup : jsstring) : outcome Document :=
  match assoc markup PARSES with
  | Some children => Returns {| head := []; body := children |}
  | None => Throws (lit "not tabulated")
  end.

Definition paragraphs (aggressive : bool) : ConversionConfig :=
  {| mode := standard; useParagraphs := true; convertDivsToP := true;
     cleanAttributes := true; aggressiveWhitespace := aggressive |}.

Definition lineBreaks (aggressive : bool) : ConversionConfig :=
  {| mode := standard; useParagraphs := false; convertDivsToP := true;
     cleanAttributes := true; aggressiveWhitespace := aggressive |}.

End Sample.

(* ================================================================== *)
(** * The output panels ([components/LegacyOutput.tsx]) and the word count *)
(* ================================================================== *)

Module Output.

(** [text.split(/\s+/)]: the pieces between the runs of white space.  A run
    at the very start or end leaves an empty piece there, and the empty
    string gives one empty piece.  [current] collects the piece being read;
    [inRun] tells that the previous code unit was white space. *)
Fixpoint splitSpaces (inRun : bool) (current : jsstring) (s : jsstring)
  : list jsstring :=
  match s with
  | [] => [current]
  | c :: rest =>
      if isSpace c then
        if inRun then splitSpaces true current rest
        else current :: splitSpaces true [] rest
      else splitSpaces false (current ++ [c]) rest
  end.

(** [text.trim().split(/\s+/).filter(w => w.length > 0).length]; the same
    expression counts the words of the editor in [App.tsx]. *)
Definition getWordCount (text : jsstring) : nat :=
  List.length (filter (fun w => 0 <? List.length w)
                      (splitSpaces false [] (trim text))).

Record Counts : Type := { words : nat; chars : nat }.

(** The statistics of [LegacyCodeViewer]. *)
Definition codeViewerStats (html : jsstring) : Counts :=
  match html with
  | [] => {| words := 0; chars := 0 |}
  | _ => {| words := getWordCount html; chars := List.length html |}
  end.

End Output.

(* ================================================================== *)
(** * The generative clean-up ([services/geminiService.ts]) *)
(* ================================================================== *)

Module Gemini.

(** What is handed to [ai.models.generateContent]; the constant
    [temperature: 0.1], a floating-point number, is left out. *)
Record Request : Type := {
  apiKey : jsstring;
  model : jsstring;
  contents : jsstring;
  systemInstruction : jsstring
}.

Definition paragraphRule (config : ConversionConfig) : jsstring :=
  if useParagraphs config then lit "Paragraphs -> <p>"
  else lit "Paragraphs -> <br><br> (Do NOT use <p> tags)".

Definition systemPrompt (config : ConversionConfig) : jsstring :=
  ([10%N]
    ++ lit "    You are a strictly compliant Legacy HTML Converter. "
    ++ [10%N]
    ++ lit "    Your goal is to take input text (which might be messy HTML, RTF content, or plain text) and convert it into a specific subset of HTML tags."
    ++ [10%N]
    ++ lit "    "
    ++ [10%N]
    ++ lit "    RULES:"
    ++ [10%N]
    ++ lit "    1. ALLOWED TAGS ONLY: <b>, <i>, <u>, <sub>, <sup>, <p>, <br>, <ul>, <ol>, <li>."
    ++ [10%N]
    ++ lit "    2. STRICTLY FORBIDDEN: <div>, <span>, <style>, classes, ids, or inline styles."
    ++ [10%N]
    ++ lit "    3. MAPPING:"
    ++ [10%N]
    ++ lit "       - Bold/Strong -> <b>"
    ++ [10%N]
    ++ lit "       - Italic/Em -> <i>"
    ++ [10%N]
    ++ lit "       - Underline/Ins -> <u>"
    ++ [10%N]
    ++ lit "       - ")
    ++ paragraphRule config ++
  ([10%N]
    ++ lit "    4. Clean up whitespace. Do not leave empty tags like <b></b>."
    ++ [10%N]
    ++ lit "    5. Return ONLY the HTML snippet. Do not wrap in markdown code blocks. Do not add <html> or <body> tags."
    ++ [10%N]
    ++ lit "  ").

Section Service.

(** [process.env.API_KEY] ([None] when undefined) and the remote call, which
    answers with [response.text] ([None] when undefined) or throws. *)
Variable API_KEY : option jsstring.
Variable generateContent : Request -> outcome (option jsstring).

Definition cleanWithGemini (input : jsstring) (config : ConversionConfig)
  : outcome jsstring :=
  match API_KEY with
  | None | Some [] => Throws (lit "API Key is missing")
  | Some key =>
      match generateContent {| apiKey := key;
                               model := lit "gemini-2.5-flash";
                               contents := input;
                               systemInstruction := systemPrompt config |} with
      | Returns (Some text) => Returns (trim text)
      | Returns None => Returns []
      | Throws message => Throws message
      end
  end.

End Service.

End Gemini.

(* ================================================================== *)
(** * The callers ([App.tsx])

    [App.tsx] comes in two variants as well: one around a [contentEditable]
    element with its own undo history, one around an editor component with
    the generative mode.  Both call [cleanHtml] of the service, which is a
    parameter here so that either engine can stand in. *)
(* ================================================================== *)

(** [if (result.error)]: the property is there and not the empty string. *)
Definition truthy (s : option jsstring) : bool :=
  match s with
  | Some (_ :: _) => true
  | _ => false
  end.

Module App1.

Record View : Type := { outputHtml : jsstring; errorMsg : option jsstring }.

Section Convert.

Variable cleanHtml : jsstring -> ConversionConfig -> Conversion.

(** [handleConvert]; [editor] is [editorRef.current] seen through its
    [innerHTML], [None] when the reference is empty. *)
Definition handleConvert (editor : option jsstring) (config : ConversionConfig)
    (view : View) : View :=
  match editor with
  | None => view
  | Some rawInput =>
      let view := {| outputHtml := outputHtml view; errorMsg := None |} in
      if isBlank rawInput then view
      else
        let result := cleanHtml rawInput config in
        if truthy (error result)
        then {| outputHtml := []; errorMsg := error result |}
        else {| outputHtml := html result; errorMsg := errorMsg view |}
  end.

End Convert.

(** The undo history: the [history] and [historyIndex] states. *)
Record History : Type := { history : list jsstring; historyIndex : nat }.

(** [prev[historyIndex] === newContent]; an index past the end reads
    [undefined], which equals no string. *)
Definition isCurrent (entries : list jsstring) (index : nat) (content : jsstring)
  : bool :=
  match nth_error entries index with
  | Some entry => str_eqb entry content
  | None => false
  end.

(** [addToHistory].  Both updates are functional updates of the latest
    state; [seenIndex] is the [historyIndex] of the closure in which the call
    was made (the call may come from a timer set in an earlier render). *)
Definition addToHistory (seenIndex : nat) (newContent : jsstring) (h : History)
  : History :=
  {| history :=
       if isCurrent (history h) seenIndex newContent then history h
       else firstn (seenIndex + 1) (history h) ++ [newContent];
     historyIndex := historyIndex h + 1 |}.

(** What assigning [history[i]] to [innerHTML] writes: the entry, or the
    text [undefined] when there is none. *)
Definition written (entries : list jsstring) (index : nat) : jsstring :=
  match nth_error entries index with
  | Some entry => entry
  | None => lit "undefined"
  end.

(** [handleUndo] and [handleRedo], called from the current render with the
    editor in place: the new state and the editor's content ([None]: left
    as it is). *)
Definition handleUndo (h : History) : History * option jsstring :=
  if 0 <? historyIndex h then
    let newIndex := historyIndex h - 1 in
    ({| history := history h; historyIndex := newIndex |},
     Some (written (history h) newIndex))
  else (h, None).

Definition handleRedo (h : History) : History * option jsstring :=
  if historyIndex h <? List.length (history h) - 1 then
    let newIndex := historyIndex h + 1 in
    ({| history := history h; historyIndex := newIndex |},
     Some (written (history h) newIndex))
  else (h, None).

(** [handleClear], as far as the history goes and as the state stands once
    the timer set by the handler has run; [currentContent] is the editor's
    [innerHTML].  Every call of [addToHistory] is made from the closure of
    the render the handler belongs to, the one in the timer included, hence
    with the [historyIndex] of that render. *)
Definition handleClear (currentContent : jsstring) (h : History) : History :=
  if isCurrent (history h) (historyIndex h) currentContent
  then addToHistory (historyIndex h) [] h
  else
    let recorded := addToHistory (historyIndex h) currentContent h in
    let cleared := addToHistory (historyIndex h) [] recorded in
    {| history := history cleared; historyIndex := historyIndex cleared + 1 |}.

End App1.

Module App2.

Record View : Type := {
  outputHtml : jsstring;
  errorMsg : option jsstring;
  isLoading : bool
}.

(** The editor component, seen through [getHTML()] and [getText()]. *)
Record Editor : Type := { getHTML : jsstring; getText : jsstring }.

Definition AI_FAILED : jsstring :=
  lit "AI Conversion failed. Ensure API key is set or try Standard mode.".

Section Convert.

Variable cleanHtml : jsstring -> ConversionConfig -> Conversion.
Variable cleanWithGemini : jsstring -> ConversionConfig -> outcome jsstring.

(** [handleConvert], as the view stands when the handler has run to its
    end (the awaited call included). *)
Definition handleConvert (editor : option Editor) (config : ConversionConfig)
    (view : View) : View :=
  match editor with
  | None => view
  | Some ed =>
      let view := {| outputHtml := outputHtml view; errorMsg := None;
                     isLoading := isLoading view |} in
      let rawInput := getHTML ed in
      if isBlank (getText ed) then view
      else
        match mode config with
        | ai =>
            match cleanWithGemini rawInput config with
            | Returns resultHtml =>
                {| outputHtml := resultHtml; errorMsg := errorMsg view;
                   isLoading := false |}
            | Throws _ =>
                {| outputHtml := outputHtml view; errorMsg := Some AI_FAILED;
                   isLoading := false |}
            end
        | standard =>
            let result := cleanHtml rawInput config in
            if truthy (error result)
            then {| outputHtml := []; errorMsg := error result;
                    isLoading := isLoading view |}
            else {| outputHtml := html result; errorMsg := errorMsg view;
                    isLoading := isLoading view |}
        end
  end.

End Convert.

End App2.

(* ================================================================== *)
(** * Vocabulary of the further properties *)
(* ================================================================== *)

Module Extra.

(** [s.endsWith(p)]. *)
Definition endsWith (p s : jsstring) : bool := startsWith (rev p) (rev s).

(** The tags the second variant builds, with and without the paragraph. *)
Definition FLAT_TAGS : list jsstring :=
  map lit ["b"; "i"; "u"; "sub"; "sup"; "p"; "br"]%string.
Definition FLAT_LINE_TAGS : list jsstring :=
  map lit ["b"; "i"; "u"; "sub"; "sup"; "br"]%string.

(** Number of discarded elements the walker meets: elements with a tag of
    [IGNORE_TAGS] that do not lie inside another such element. *)
Fixpoint discardedElements (n : node) : nat :=
  match n with
  | Element tag _ children =>
      if mem tag V1.IGNORE_TAGS then 1
      else list_sum (map discardedElements children)
  | _ => 0
  end.

(** No paragraph element below a list item. *)
Fixpoint noParagraphInItem (inside : bool) (n : onode) : bool :=
  match n with
  | OText _ => true
  | OElem tag children =>
      negb (inside && str_eqb tag (lit "p"))
      && forallb (noParagraphInItem (str_eqb tag (lit "li") || inside)) children
  end.

(** A [br] element among the nodes or below them. *)
Definition holdsBr (l : list onode) : bool :=
  existsb (fun c => match c with
                    | OText _ => false
                    | OElem t _ => str_eqb t (lit "br") || V1.containsBr c
                    end) l.

(** Every [b], [i], [u], [sub], [sup], [p] and [li] element of the tree has
    text that is not blank, or a [br] below it. *)
Fixpoint wrappersFilled (n : onode) : bool :=
  match n with
  | OText _ => true
  | OElem tag children =>
      (negb (mem tag V1.EMPTY_CANDIDATES)
       || negb (isBlank (otextContent n)) || V1.containsBr n)
      && forallb wrappersFilled children
  end.

(** No two white-space code units in a row. *)
Fixpoint singleSpaced (s : jsstring) : bool :=
  match s with
  | [] => true
  | c :: rest =>
      match rest with
      | [] => true
      | d :: _ => negb (isSpace c && isSpace d) && singleSpaced rest
      end
  end.

(** All text of the tree is made of code units satisfying [P]. *)
Fixpoint textsAll (P : char -> bool) (n : onode) : bool :=
  match n with
  | OText data => forallb P data
  | OElem _ children => forallb (textsAll P) children
  end.

Definition notLineFeed (c : char) : bool := negb (c =? 10)%N.
Definition notNewline (c : char) : bool := negb (isNewline c).

(** The tree with every attribute dropped except [style] (first variant),
    and except [style] and [start] (second variant). *)
Definition kept (name : jsstring) (attrs : list (jsstring * jsstring))
  : list (jsstring * jsstring) :=
  match getAttribute name attrs with
  | Some v => [(name, v)]
  | None => []
  end.

Fixpoint keepStyle (n : node) : node :=
  match n with
  | Element tag attrs children =>
      Element tag (kept (lit "style") attrs) (map keepStyle children)
  | _ => n
  end.

Fixpoint keepStyleAndStart (n : node) : node :=
  match n with
  | Element tag attrs children =>
      Element tag (kept (lit "style") attrs ++ kept (lit "start") attrs)
              (map keepStyleAndStart children)
  | _ => n
  end.

(** Number of words that begin in [s]: maximal runs of code units that are
    not white space; [inWord] tells that such a run is already under way. *)
Fixpoint countWords (inWord : bool) (s : jsstring) : nat :=
  match s with
  | [] => 0
  | c :: rest =>
      if isSpace c then countWords false rest
      else (if inWord then 0 else 1) + countWords true rest
  end.

(** The index points at an entry of the history. *)
Definition inRange (h : App1.History) : Prop :=
  App1.historyIndex h < List.length (App1.history h).

End Extra.

Import Spec.
Import Extra.

(* ================================================================== *)
(** * Strings: basic facts *)
(* ================================================================== *)

Lemma str_eqb_eq (a b : jsstring) : str_eqb a b = true <-> a = b.
Proof.
  revert b; induction a as [|x a IH]; intros [|y b]; simpl; split; intro H;
    try reflexivity; try discriminate.
  - apply andb_true_iff in H as [Hx Hr]. apply N.eqb_eq in Hx.
    apply IH in Hr. now subst.
  - injection H as -> ->. apply andb_true_iff; split;
      [apply N.eqb_refl | now apply IH].
Qed.

Lemma str_eqb_refl (a : jsstring) : str_eqb a a = true.
Proof. now apply str_eqb_eq. Qed.

Lemma str_eqb_neq (a b : jsstring) : str_eqb a b = false <-> a <> b.
Proof.
  split.
  - intros H E. apply str_eqb_eq in E. congruence.
  - intro H. destruct (str_eqb a b) eqn:E; [|reflexivity].
    apply str_eqb_eq in E. contradiction.
Qed.

Lemma mem_In (x : jsstring) (l : list jsstring) : mem x l = true <-> In x l.
Proof.
  unfold mem. rewrite existsb_exists. split.
  - intros (y & Hy & E). apply str_eqb_eq in E. now subst.
  - intro H. exists x. split; [assumption | apply str_eqb_refl].
Qed.

Lemma isBlank_app (a b : jsstring) : isBlank (a ++ b) = isBlank a && isBlank b.
Proof. apply forallb_app. Qed.

(** Induction on output trees, the children handled by [Forall]. *)
Lemma onode_induction (P : onode -> Prop) :
  (forall data, P (OText data)) ->
  (forall tag children, Forall P children -> P (OElem tag children)) ->
  forall n, P n.
Proof.
  intros HT HE.
  fix IH 1. intros [data | tag children].
  - apply HT.
  - apply HE. induction children as [|c cs IHcs]; constructor.
    + apply IH.
    + apply IHcs.
Qed.

(** Induction on input trees. *)
Lemma node_induction (P : node -> Prop) :
  (forall data, P (Text data)) ->
  (forall tag attrs children, Forall P children -> P (Element tag attrs children)) ->
  P Other ->
  forall n, P n.
Proof.
  intros HT HE HO.
  fix IH 1. intros [data | tag attrs children |].
  - apply HT.
  - apply HE. induction children as [|c cs IHcs]; constructor.
    + apply IH.
    + apply IHcs.
  - apply HO.
Qed.

(* ================================================================== *)
(** * Reading markup: the scanner *)
(* ================================================================== *)

Section Scanner.

Variable texts : list jsstring.

Lemma scan_app (st : scanState) (a b : jsstring) :
  scan texts st (a ++ b) =
  match scan texts st a with
  | Some st' => scan texts st' b
  | None => None
  end.
Proof.
  revert st; induction a as [|c a IH]; intro st; simpl; [reflexivity|].
  destruct (scanStep texts st c); [apply IH | reflexivity].
Qed.

(** Plain code units leave the scanner outside. *)
Lemma scan_plain (s : jsstring) :
  forallb plainChar s = true -> scan texts Outside s = Some Outside.
Proof.
  induction s as [|c s IH]; simpl; [reflexivity|].
  intro H. apply andb_true_iff in H as [Hc Hs].
  unfold plainChar in Hc. apply andb_true_iff in Hc as [H1 H2].
  apply negb_true_iff in H1, H2. rewrite H1, H2. now apply IH.
Qed.

Lemma isSpace_plain (c : char) : isSpace c = true -> plainChar c = true.
Proof.
  unfold isSpace, plainChar. intro H.
  destruct (N.eqb_spec c 60) as [->|]; [discriminate H|].
  destruct (N.eqb_spec c 62) as [->|]; [discriminate H|]. reflexivity.
Qed.

Lemma isNameChar_not_gt (c : char) : isNameChar c = true -> (c =? 62)%N = false.
Proof.
  unfold isNameChar. intro H. destruct (N.eqb_spec c 62) as [->|]; [discriminate H|].
  reflexivity.
Qed.

Lemma scan_inside_name (acc name rest : jsstring) :
  forallb isNameChar name = true ->
  scan texts (Inside acc) (name ++ rest) = scan texts (Inside (acc ++ name)) rest.
Proof.
  revert acc; induction name as [|c name IH]; intros acc H; simpl.
  - now rewrite app_nil_r.
  - simpl in H. apply andb_true_iff in H as [Hc Hn].
    rewrite (isNameChar_not_gt _ Hc), Hc. rewrite IH by assumption.
    now rewrite <- app_assoc.
Qed.

(** A tag whose text is listed takes the scanner from outside to outside. *)
Lemma scan_tag (name rest : jsstring) :
  forallb isNameChar name = true -> mem name texts = true ->
  scan texts Outside (lit "<" ++ name ++ lit ">" ++ rest) = scan texts Outside rest.
Proof.
  intros Hn Hm. cbn [lit app N_of_ascii]. simpl scan at 1.
  change (scanStep texts Outside (N_of_ascii "<")) with (Some (Inside [])).
  rewrite scan_inside_name by assumption. simpl. now rewrite Hm.
Qed.

(** Behind a [>] the scanner is outside. *)
Lemma scan_ends_gt (st st' : scanState) (pre : jsstring) :
  scan texts st (pre ++ [62%N]) = Some st' -> st' = Outside.
Proof.
  rewrite scan_app. destruct (scan texts st pre) as [[|name]|]; simpl; try discriminate.
  destruct (mem name texts); [|discriminate]. now intros [= <-].
Qed.

(** A code unit that is neither [>] nor a name character stops the scanner
    inside a tag. *)
Lemma scan_inside_stops (name : jsstring) (c : char) (rest : jsstring) :
  (c =? 62)%N = false -> isNameChar c = false ->
  scan texts (Inside name) (c :: rest) = None.
Proof. intros H1 H2. simpl. now rewrite H1, H2. Qed.

End Scanner.

(* ================================================================== *)
(** * Serialised trees are markup over their tags *)
(* ================================================================== *)

Section Markup.

Variable tags : list jsstring.
Hypothesis tags_named : forallb (forallb isNameChar) tags = true.

Lemma tag_named (tag : jsstring) : mem tag tags = true -> forallb isNameChar tag = true.
Proof.
  intro H. apply mem_In in H.
  rewrite forallb_forall in tags_named. now apply tags_named.
Qed.

Lemma open_listed (tag : jsstring) :
  mem tag tags = true -> mem tag (tagTexts tags) = true.
Proof.
  intro H. apply mem_In. unfold tagTexts. apply in_or_app. left. now apply mem_In.
Qed.

Lemma close_listed (tag : jsstring) :
  mem tag tags = true -> mem tag VOID_ELEMENTS = false ->
  mem (47%N :: tag) (tagTexts tags) = true.
Proof.
  intros H V. apply mem_In. unfold tagTexts. apply in_or_app. right.
  apply in_map. apply filter_In. split; [now apply mem_In | now rewrite V].
Qed.

Lemma escapeText_plain (data : jsstring) : forallb plainChar (escapeText data) = true.
Proof.
  induction data as [|c data IH]; [reflexivity|].
  unfold escapeText in *. simpl. rewrite forallb_app, IH, andb_true_r.
  unfold escapeChar.
  destruct (N.eqb_spec c 38); [reflexivity|].
  destruct (N.eqb_spec c 160); [reflexivity|].
  destruct (N.eqb_spec c 60) as [|n60]; [reflexivity|].
  destruct (N.eqb_spec c 62) as [|n62]; [reflexivity|].
  simpl. unfold plainChar.
  apply N.eqb_neq in n60, n62. now rewrite n60, n62.
Qed.

Lemma scan_serialize (n : onode) :
  treeOver tags n = true ->
  forall rest, scan (tagTexts tags) Outside (serialize n ++ rest)
               = scan (tagTexts tags) Outside rest.
Proof.
  induction n as [data | tag children IH] using onode_induction; intros Hn rest.
  - simpl. rewrite scan_app, scan_plain; [reflexivity | apply escapeText_plain].
  - simpl in Hn. apply andb_true_iff in Hn as [Ht Hc].
    assert (Hkids : forall rest',
      scan (tagTexts tags) Outside (flat_map serialize children ++ rest')
      = scan (tagTexts tags) Outside rest').
    { clear Ht. induction children as [|c cs IHcs]; intro rest'; [reflexivity|].
      simpl in Hc. apply andb_true_iff in Hc as [Hc1 Hc2].
      inversion IH as [|? ? Hhead Htail]; subst.
      simpl. rewrite <- app_assoc. rewrite Hhead by assumption.
      now apply IHcs. }
    cbn [serialize]. repeat rewrite <- app_assoc.
    rewrite scan_tag; [|now apply tag_named | now apply open_listed].
    destruct (mem tag VOID_ELEMENTS) eqn:V; [reflexivity|].
    repeat rewrite <- app_assoc. rewrite Hkids.
    change (lit "</" ++ tag ++ lit ">" ++ rest)
      with (lit "<" ++ (47%N :: tag) ++ lit ">" ++ rest).
    apply scan_tag.
    + simpl. now rewrite tag_named.
    + now apply close_listed.
Qed.

Lemma onlyTags_innerHTML (children : list onode) :
  forallb (treeOver tags) children = true ->
  onlyTags tags (innerHTML children) = true.
Proof.
  intro H. unfold onlyTags.
  assert (E : scan (tagTexts tags) Outside (innerHTML children) = Some Outside).
  { unfold innerHTML. induction children as [|c cs IH]; [reflexivity|].
    simpl in H. apply andb_true_iff in H as [H1 H2].
    simpl. rewrite scan_serialize by assumption. now apply IH. }
  now rewrite E.
Qed.

End Markup.

(* ================================================================== *)
(** * Trimming keeps markup *)
(* ================================================================== *)

Section Trimming.

Variable texts : list jsstring.

Lemma scan_dropWhile_space (s : jsstring) :
  scan texts Outside (dropWhile isSpace s) = scan texts Outside s.
Proof.
  induction s as [|c s IH]; [reflexivity|]. simpl.
  destruct (isSpace c) eqn:E; [|reflexivity].
  rewrite IH. apply isSpace_plain in E. unfold plainChar in E.
  apply andb_true_iff in E as [E1 E2]. apply negb_true_iff in E1, E2.
  now rewrite E1, E2.
Qed.

(** White space read inside a tag stops the scanner. *)
Lemma isSpace_stops (c : char) :
  isSpace c = true -> (c =? 62)%N = false /\ isNameChar c = false.
Proof.
  unfold isSpace, isNameChar. intro H. split.
  - destruct (N.eqb_spec c 62) as [->|]; [discriminate H | reflexivity].
  - destruct (N.eqb_spec c 47) as [->|]; [discriminate H|].
    rewrite orb_false_r. apply andb_false_iff.
    destruct (N.leb_spec 97 c) as [L|]; [|now left]. right.
    destruct (N.leb_spec c 122) as [U|]; [|reflexivity].
    exfalso. revert H. 
    repeat match goal with
           | |- context [(?a =? ?b)%N] => destruct (N.eqb_spec a b); [lia|]
           | |- context [(?a <=? ?b)%N] => destruct (N.leb_spec a b); try lia
           end; simpl; discriminate.
Qed.

Lemma dropWhile_split (s : jsstring) :
  exists ws, s = ws ++ dropWhile isSpace s /\ forallb isSpace ws = true.
Proof.
  induction s as [|c s (ws & E & H)]; [now exists []|]. simpl.
  destruct (isSpace c) eqn:Ec.
  - exists (c :: ws). simpl. rewrite Ec, H. split; [now f_equal | reflexivity].
  - now exists [].
Qed.

(** Dropping white space at the end. *)
Lemma scan_drop_trailing_space (s ws : jsstring) :
  forallb isSpace ws = true ->
  scan texts Outside (s ++ ws) = Some Outside -> scan texts Outside s = Some Outside.
Proof.
  rewrite scan_app. destruct (scan texts Outside s) as [[|name]|]; try discriminate.
  - reflexivity.
  - destruct ws as [|c ws]; simpl; [discriminate|].
    intros Hws. apply andb_true_iff in Hws as [Hc _].
    destruct (isSpace_stops _ Hc) as [E1 E2]. now rewrite E1, E2.
Qed.

Lemma scan_trim (s : jsstring) :
  scan texts Outside s = Some Outside -> scan texts Outside (trim s) = Some Outside.
Proof.
  intro H. unfold trim.
  rewrite <- scan_dropWhile_space in H.
  destruct (dropWhile_split (rev (dropWhile isSpace s))) as (ws & E & Hws).
  set (t := dropWhile isSpace (rev (dropWhile isSpace s))) in *.
  assert (E' : dropWhile isSpace s = rev t ++ rev ws).
  { rewrite <- rev_app_distr, <- E. now rewrite rev_involutive. }
  rewrite E' in H. apply scan_drop_trailing_space with (ws := rev ws); [|assumption].
  rewrite forallb_forall in *. intros x Hx. apply Hws. now apply in_rev.
Qed.

Lemma scan_stripLeadingBr (s : jsstring) :
  mem (lit "br") texts = true ->
  scan texts Outside s = Some Outside ->
  scan texts Outside (stripLeadingBr s) = Some Outside.
Proof.
  intro Hbr.
  assert (G : forall n s, List.length s <= n -> scan texts Outside s = Some Outside ->
                          scan texts Outside (stripLeadingBr s) = Some Outside).
  { clear s. induction n as [|n IH]; intros s L H.
    - destruct s; [assumption | simpl in L; lia].
    - destruct s as [|c1 [|c2 [|c3 [|c4 rest]]]]; try assumption.
      cbn [stripLeadingBr].
      destruct (str_eqb [c1; c2; c3; c4] (lit "<br>")) eqn:E; [|assumption].
      apply str_eqb_eq in E. injection E as -> -> -> ->.
      apply IH; [simpl in L; lia|].
      change (scan texts Outside (lit "<" ++ lit "br" ++ lit ">" ++ rest) = Some Outside) in H.
      rewrite scan_tag in H; [assumption | reflexivity | assumption]. }
  now apply (G (List.length s)).
Qed.

Lemma stripLeadingRb_split (s : jsstring) :
  exists n, s = List.concat (repeat (lit ">rb<") n) ++ stripLeadingRb s.
Proof.
  assert (G : forall k s, List.length s <= k ->
              exists n, s = List.concat (repeat (lit ">rb<") n) ++ stripLeadingRb s).
  { clear s. induction k as [|k IH]; intros s L.
    - destruct s; [now exists 0 | simpl in L; lia].
    - destruct s as [|c1 [|c2 [|c3 [|c4 rest]]]]; try (now exists 0).
      cbn [stripLeadingRb].
      destruct (str_eqb [c1; c2; c3; c4] (lit ">rb<")) eqn:E; [|now exists 0].
      apply str_eqb_eq in E. injection E as -> -> -> ->.
      destruct (IH rest) as (n & En); [simpl in L; lia|].
      exists (S n). simpl. now repeat f_equal. }
  now apply (G (List.length s)).
Qed.

Lemma scan_drop_trailing_br (s : jsstring) (n : nat) :
  scan texts Outside (s ++ rev (List.concat (repeat (lit ">rb<") n))) = Some Outside ->
  scan texts Outside s = Some Outside.
Proof.
  induction n as [|n IH]; cbn [repeat List.concat].
  - simpl. now rewrite app_nil_r.
  - rewrite rev_app_distr, app_assoc. intro H. apply IH.
    revert H. rewrite scan_app.
    destruct (scan texts Outside (s ++ rev (List.concat (repeat (lit ">rb<") n))))
      as [[|name]|]; [reflexivity | | discriminate].
    simpl. discriminate.
Qed.

Lemma scan_stripTrailingBr (s : jsstring) :
  scan texts Outside s = Some Outside ->
  scan texts Outside (stripTrailingBr s) = Some Outside.
Proof.
  intro H. unfold stripTrailingBr.
  destruct (stripLeadingRb_split (rev s)) as (n & E).
  apply scan_drop_trailing_br with (n := n).
  rewrite <- rev_app_distr, <- E. now rewrite rev_involutive.
Qed.

End Trimming.

(* ================================================================== *)
(** * The walkers only build elements of the dialect *)
(* ================================================================== *)

Lemma treeOver_wrap (tags : list jsstring) (content : result) (tag : string) :
  mem (lit tag) tags = true ->
  forallb (treeOver tags) (nodesOf content) = true ->
  forallb (treeOver tags) (nodesOf (wrap content tag)) = true.
Proof. intros Ht Hc. simpl. now rewrite Ht, Hc. Qed.

Lemma forEachAppend_all (P : onode -> bool)
    (f : node -> counters -> option result * counters) (l : list node) :
  Forall (fun child => forall k, forallb P (appended (fst (f child k))) = true) l ->
  forall k, forallb P (fst (forEachAppend f l k)) = true.
Proof.
  induction 1 as [|child rest Hc _ IH]; intro k; [reflexivity|].
  simpl. specialize (Hc k). destruct (f child k) as [processed k1].
  specialize (IH k1). destruct (forEachAppend f rest k1) as [more k2].
  simpl in *. now rewrite forallb_app, Hc, IH.
Qed.

Ltac split_ifs :=
  repeat match goal with
         | |- context [if ?b then _ else _] => destruct b eqn:?
         end.

Lemma V1_applyWrappers_over (tagName styleAttr : jsstring)
    (targetTag : option jsstring) (fragment : list onode) :
  forallb (treeOver LEGACY_TAGS) fragment = true ->
  forallb (treeOver LEGACY_TAGS)
          (nodesOf (V1.applyWrappers tagName styleAttr targetTag fragment)) = true.
Proof.
  intro H. unfold V1.applyWrappers.
  split_ifs; repeat (apply treeOver_wrap; [reflexivity|]); exact H.
Qed.

Lemma V1_buildElement_over (context : V1.ConversionContext)
    (tagName styleAttr : jsstring) (fragment : list onode) :
  forallb (treeOver LEGACY_TAGS) fragment = true ->
  forallb (treeOver LEGACY_TAGS)
          (appended (V1.buildElement context tagName styleAttr fragment)) = true.
Proof.
  intro H. unfold V1.buildElement.
  pose proof (V1_applyWrappers_over tagName styleAttr (V1.lookupTag tagName) _ H) as W.
  split_ifs; cbn [appended]; try reflexivity;
    try (apply treeOver_wrap; [reflexivity | exact W]); exact W.
Qed.

Lemma V1_processText_over (tags : list jsstring) (config : ConversionConfig)
    (data : jsstring) :
  forallb (treeOver tags) (appended (V1.processText config data)) = true.
Proof.
  unfold V1.processText.
  destruct (if aggressiveWhitespace config then _ else _); reflexivity.
Qed.

Lemma V1_processNode_over (config : ConversionConfig) (n : node) :
  forall context k,
    forallb (treeOver LEGACY_TAGS)
            (appended (fst (V1.processNode config n context k))) = true.
Proof.
  induction n as [data | tagName attrs children IH |] using node_induction;
    intros context k.
  - apply V1_processText_over.
  - cbn [V1.processNode]. destruct (mem tagName V1.IGNORE_TAGS); [reflexivity|].
    match goal with
    | |- context [forEachAppend ?f children ?k0] =>
        pose proof (forEachAppend_all (treeOver LEGACY_TAGS) f children) as A;
        specialize (A (Forall_impl _ (fun child Hc k1 => Hc _ k1) IH) k0);
        destruct (forEachAppend f children k0) as [fragment k']
    end.
    now apply V1_buildElement_over.
  - reflexivity.
Qed.

Lemma V1_body_over (config : ConversionConfig) (nodes : list node) (k : counters) :
  forallb (treeOver LEGACY_TAGS)
    (fst (forEachAppend (fun n => V1.processNode config n V1.topContext) nodes k)) = true.
Proof.
  apply forEachAppend_all. apply Forall_forall. intros n _ k'.
  apply V1_processNode_over.
Qed.

Lemma flat_map_all {A : Type} (P : A -> bool) (f : A -> list A) (l : list A) :
  Forall (fun x => P x = true -> forallb P (f x) = true) l ->
  forallb P l = true -> forallb P (flat_map f l) = true.
Proof.
  induction 1 as [|x l Hx _ IH]; intro H; [reflexivity|].
  simpl in H. apply andb_true_iff in H as [H1 H2].
  simpl. rewrite forallb_app, Hx, IH; auto.
Qed.

Lemma cleanEmptyTags_over (tags : list jsstring) (n : onode) :
  treeOver tags n = true -> forallb (treeOver tags) (V1.cleanEmptyTags n) = true.
Proof.
  induction n as [data | tag children IH] using onode_induction; intro H.
  - reflexivity.
  - cbn [V1.cleanEmptyTags]. split_ifs; [reflexivity|].
    simpl in H. apply andb_true_iff in H as [Ht Hc].
    simpl. rewrite Ht, andb_true_r. simpl. now apply flat_map_all.
Qed.

Lemma LINE_BREAK_in_LEGACY (tag : jsstring) :
  mem tag LINE_BREAK_TAGS = true -> mem tag LEGACY_TAGS = true.
Proof.
  intro H. apply mem_In in H. apply mem_In.
  simpl in H. simpl. intuition.
Qed.

Lemma treeOver_LINE_BREAK_LEGACY (n : onode) :
  treeOver LINE_BREAK_TAGS n = true -> treeOver LEGACY_TAGS n = true.
Proof.
  induction n as [data | tag children IH] using onode_induction; intro H;
    [reflexivity|].
  simpl in H. apply andb_true_iff in H as [Ht Hc].
  cbn [treeOver]. rewrite (LINE_BREAK_in_LEGACY _ Ht). simpl.
  clear Ht. induction IH as [|c cs Hc1 _ IHcs]; [reflexivity|].
  simpl in Hc. apply andb_true_iff in Hc as [H1 H2].
  simpl. now rewrite Hc1, IHcs.
Qed.

Lemma LEGACY_without_p (tag : jsstring) :
  mem tag LEGACY_TAGS = true -> str_eqb tag (lit "p") = false ->
  mem tag LINE_BREAK_TAGS = true.
Proof.
  intros H E. apply mem_In in H. apply mem_In. apply str_eqb_neq in E.
  simpl in H. simpl. intuition. 
Qed.

Lemma unwrapParagraphs_over (n : onode) :
  treeOver LEGACY_TAGS n = true ->
  forallb (treeOver LINE_BREAK_TAGS) (V1.unwrapParagraphs n) = true.
Proof.
  induction n as [data | tag children IH] using onode_induction; intro H.
  - reflexivity.
  - simpl in H. apply andb_true_iff in H as [Ht Hc].
    assert (K : forallb (treeOver LINE_BREAK_TAGS)
                        (flat_map V1.unwrapParagraphs children) = true).
    { clear Ht. induction IH as [|c cs Hc1 _ IHcs]; [reflexivity|].
      simpl in Hc. apply andb_true_iff in Hc as [H1 H2].
      simpl. rewrite forallb_app, Hc1, IHcs; auto. }
    cbn [V1.unwrapParagraphs]. destruct (str_eqb tag (lit "p")) eqn:E.
    + rewrite forallb_app, K. reflexivity.
    + cbn [forallb treeOver]. rewrite (LEGACY_without_p _ Ht E), K. reflexivity.
Qed.

Lemma flat_map_over (tags tags' : list jsstring) (f : onode -> list onode)
    (l : list onode) :
  (forall n, treeOver tags n = true -> forallb (treeOver tags') (f n) = true) ->
  forallb (treeOver tags) l = true -> forallb (treeOver tags') (flat_map f l) = true.
Proof.
  intros Hf. induction l as [|x l IH]; intro H; [reflexivity|].
  simpl in H. apply andb_true_iff in H as [H1 H2].
  simpl. rewrite forallb_app, Hf, IH; auto.
Qed.

Lemma forallb_LINE_BREAK_LEGACY (l : list onode) :
  forallb (treeOver LINE_BREAK_TAGS) l = true -> forallb (treeOver LEGACY_TAGS) l = true.
Proof.
  rewrite !forallb_forall. intros H x Hx. apply treeOver_LINE_BREAK_LEGACY. now apply H.
Qed.

Lemma V1_postProcess_over (config : ConversionConfig) (fragment : list onode) :
  forallb (treeOver LEGACY_TAGS) fragment = true ->
  forallb (treeOver LEGACY_TAGS) (V1.postProcess config fragment) = true
  /\ (useParagraphs config = false ->
      forallb (treeOver LINE_BREAK_TAGS) (V1.postProcess config fragment) = true).
Proof.
  intro H. unfold V1.postProcess.
  pose proof (flat_map_over _ _ _ _ (cleanEmptyTags_over LEGACY_TAGS) H) as C.
  destruct (useParagraphs config); simpl.
  - split; [assumption | discriminate].
  - pose proof (flat_map_over _ _ _ _ unwrapParagraphs_over C) as U.
    split; [now apply forallb_LINE_BREAK_LEGACY | now intros _].
Qed.

Lemma onlyTags_scan (tags : list jsstring) (s : jsstring) :
  onlyTags tags s = true <-> scan (tagTexts tags) Outside s = Some Outside.
Proof.
  unfold onlyTags. destruct (scan (tagTexts tags) Outside s) as [[|]|];
    split; congruence.
Qed.

Lemma V1_finish_onlyTags (tags : list jsstring) (children : list onode) :
  forallb (forallb isNameChar) tags = true ->
  mem (lit "br") tags = true ->
  forallb (treeOver tags) children = true ->
  onlyTags tags (V1.finish children) = true.
Proof.
  intros Hn Hbr H. apply onlyTags_scan. unfold V1.finish.
  apply scan_stripTrailingBr, scan_stripLeadingBr; [now apply open_listed|].
  apply scan_trim. apply onlyTags_scan. now apply onlyTags_innerHTML.
Qed.

Lemma V2_applyWrappers_over (tagName styleAttr : jsstring)
    (targetTag : option jsstring) (fragment : list onode) :
  forallb (treeOver LEGACY_TAGS) fragment = true ->
  forallb (treeOver LEGACY_TAGS)
          (nodesOf (V2.applyWrappers tagName styleAttr targetTag fragment)) = true.
Proof.
  intro H. unfold V2.applyWrappers.
  split_ifs; repeat (apply treeOver_wrap; [reflexivity|]); exact H.
Qed.

Lemma V2_buildElement_over (context : V2.ConversionContext)
    (tagName styleAttr : jsstring) (fragment : list onode) (hasContent : bool) :
  forallb (treeOver LEGACY_TAGS) fragment = true ->
  forallb (treeOver LEGACY_TAGS)
          (appended (V2.buildElement context tagName styleAttr fragment hasContent))
  = true.
Proof.
  intro H. unfold V2.buildElement.
  pose proof (V2_applyWrappers_over tagName styleAttr
                (V2.targetTagOf context tagName) _ H) as W.
  split_ifs; cbn [appended]; try reflexivity.
  - apply treeOver_wrap; [reflexivity | exact W].
  - cbn [nodesOf forallb]. now rewrite W.
  - exact W.
Qed.

Lemma V2_forEachChild_all (P : onode -> bool)
    (visit : node -> V2.ConversionContext -> counters -> option result * counters)
    (plain inOl : bool) (base : V2.ConversionContext) (l : list node) :
  Forall (fun child => forall c k, forallb P (appended (fst (visit child c k))) = true) l ->
  forall next k,
    forallb P (fst (fst (V2.forEachChild visit plain inOl base l next k))) = true.
Proof.
  induction 1 as [|child rest Hc _ IH]; intros next k; [reflexivity|].
  cbn [V2.forEachChild].
  match goal with
  | |- context [visit child ?c k] =>
      specialize (Hc c k); destruct (visit child c k) as [processed k1]
  end.
  match goal with
  | |- context [V2.forEachChild visit plain inOl base rest ?n k1] =>
      specialize (IH n k1);
      destruct (V2.forEachChild visit plain inOl base rest n k1) as [[more hasMore] k2]
  end.
  simpl in *. destruct processed as [r|]; simpl in *.
  - now rewrite forallb_app, Hc, IH.
  - exact IH.
Qed.

Lemma V2_prefix_over (context : V2.ConversionContext) (tagName : jsstring) :
  forallb (treeOver LEGACY_TAGS) (V2.prefixNodes (V2.prefixOf context tagName)) = true.
Proof. unfold V2.prefixNodes. now destruct (V2.prefixOf context tagName). Qed.

Lemma V2_processNode_over (config : ConversionConfig) (plain : bool) (n : node) :
  forall context k,
    forallb (treeOver LEGACY_TAGS)
            (appended (fst (V2.processNode config plain n context k))) = true.
Proof.
  induction n as [data | tagName attrs children IH |] using node_induction;
    intros context k.
  - simpl. unfold V2.processText. now destruct data.
  - cbn [V2.processNode]. destruct (mem tagName V2.IGNORE_TAGS); [reflexivity|].
    match goal with
    | |- context [V2.forEachChild ?f ?p ?o ?b children ?n0 ?k0] =>
        pose proof (V2_forEachChild_all (treeOver LEGACY_TAGS) f p o b children IH n0 k0) as A;
        destruct (V2.forEachChild f p o b children n0 k0) as [[nodes hasContent] k']
    end.
    cbn [fst] in *. apply V2_buildElement_over.
    now rewrite forallb_app, V2_prefix_over, A.
  - reflexivity.
Qed.

Lemma V2_body_over (config : ConversionConfig) (plain : bool) (nodes : list node)
    (k : counters) :
  forallb (treeOver LEGACY_TAGS)
    (fst (forEachAppend (fun n => V2.processNode config plain n V2.topContext) nodes k))
  = true.
Proof.
  apply forEachAppend_all. apply Forall_forall. intros n _ k'.
  apply V2_processNode_over.
Qed.

(* ================================================================== *)
(** * Replacing matches inside markup *)
(* ================================================================== *)

Lemma replaceFrom_skip (m : matcher) (s : jsstring) :
  forall k, replaceFrom m k s = replaceFrom m 0 (skipn k s).
Proof.
  induction s as [|c s IH]; intro k.
  - now destruct k.
  - destruct k as [|k]; [reflexivity|]. simpl. apply IH.
Qed.

Lemma replaceAll_step (m : matcher) (c : char) (rest : jsstring) :
  replaceAll m (c :: rest) =
  match m (c :: rest) with
  | Some (S k, r) => r ++ replaceAll m (skipn k rest)
  | _ => c :: replaceAll m rest
  end.
Proof.
  unfold replaceAll. simpl. destruct (m (c :: rest)) as [[[|k] r]|]; try reflexivity.
  now rewrite replaceFrom_skip.
Qed.

Lemma scan_replaceAll (texts : list jsstring) (m : matcher) :
  keepsMarkup texts m ->
  forall s st, scan texts st s = Some Outside ->
               scan texts st (replaceAll m s) = Some Outside.
Proof.
  intro K.
  assert (G : forall n s st, List.length s <= n -> scan texts st s = Some Outside ->
                             scan texts st (replaceAll m s) = Some Outside).
  { induction n as [|n IH]; intros s st L H.
    - destruct s; [assumption | simpl in L; lia].
    - destruct s as [|c rest]; [assumption|].
      rewrite replaceAll_step.
      destruct (m (c :: rest)) as [[[|k] r]|] eqn:M.
      + simpl in H |- *. destruct (scanStep texts st c); [|discriminate].
        apply IH; [simpl in L; lia | assumption].
      + destruct (K _ _ _ M) as ((c' & rest' & E & G1 & G2) & Len & Ends & Repl).
        injection E as <- <-.
        destruct st as [|name];
          [|now rewrite (scan_inside_stops texts name c rest G1 G2) in H].
        rewrite <- (firstn_skipn (S k) (c :: rest)) in H.
        rewrite scan_app in H.
        destruct (scan texts Outside (firstn (S k) (c :: rest))) as [st'|] eqn:F;
          [|discriminate].
        rewrite (Ends _ eq_refl) in H.
        rewrite scan_app, Repl. apply IH; [|exact H].
        simpl in L. rewrite length_skipn. lia.
      + simpl in H |- *. destruct (scanStep texts st c); [|discriminate].
        apply IH; [simpl in L; lia | assumption]. }
  intros s st. now apply (G (List.length s)).
Qed.

Lemma spanLength_le (p : char -> bool) (s : jsstring) : spanLength p s <= List.length s.
Proof. induction s as [|c s IH]; simpl; [lia|]. destruct (p c); simpl; lia. Qed.

Lemma matchPieces_length (ps : pattern) :
  forall s k, matchPieces ps s = Some k -> k <= List.length s.
Proof.
  induction ps as [|p ps IH]; intros s k H.
  - injection H as <-. lia.
  - destruct p as [c | c | | | c]; cbn [matchPieces] in H.
    + destruct s as [|x s]; [discriminate|]. destruct (char_eqb c x); [|discriminate].
      destruct (matchPieces ps s) as [k'|] eqn:E; [|discriminate].
      injection H as <-. apply IH in E. simpl. lia.
    + destruct s as [|x s]; [discriminate|]. destruct (char_eqbi c x); [|discriminate].
      destruct (matchPieces ps s) as [k'|] eqn:E; [|discriminate].
      injection H as <-. apply IH in E. simpl. lia.
    + destruct (matchPieces ps (skipn (spanLength isSpace s) s)) as [k'|] eqn:E;
        [|discriminate].
      injection H as <-. apply IH in E. rewrite length_skipn in E.
      pose proof (spanLength_le isSpace s). lia.
    + destruct (spanLength isDigit s) as [|n] eqn:D; [discriminate|].
      destruct (matchPieces ps (skipn (S n) s)) as [k'|] eqn:E; [|discriminate].
      injection H as <-. apply IH in E. rewrite length_skipn in E.
      pose proof (spanLength_le isDigit s). lia.
    + destruct s as [|x s]; [now apply IH|].
      destruct (char_eqb c x).
      * destruct (matchPieces ps s) as [k'|] eqn:E; [|discriminate].
        injection H as <-. apply IH in E. simpl. lia.
      * now apply IH.
Qed.

Lemma firstn_add (n k : nat) (s : jsstring) :
  firstn (n + k) s = firstn n s ++ firstn k (skipn n s).
Proof.
  revert s; induction n as [|n IH]; intro s; [reflexivity|].
  destruct s as [|c s]; simpl.
  - now destruct k.
  - now rewrite IH.
Qed.

Lemma char_eqbi_nonletter (p x : char) :
  (p < 65)%N -> char_eqbi p x = true -> x = p.
Proof.
  unfold char_eqbi, char_eqb, toLowerAscii, isUpper. intros Hp H.
  destruct (N.leb_spec 65 p); [lia|]. cbn [andb] in H.
  destruct (N.leb_spec 65 x); destruct (N.leb_spec x 90); cbn [andb] in H;
    apply N.eqb_eq in H; lia.
Qed.

Lemma char_eqbi_gt (c x : char) :
  char_eqb c 62%N = true -> char_eqbi c x = true -> x = 62%N.
Proof.
  unfold char_eqb. intros E H. apply N.eqb_eq in E. subst c.
  now apply char_eqbi_nonletter in H.
Qed.

Lemma char_eqbi_lt (c x : char) :
  char_eqb c 60%N = true -> char_eqbi c x = true -> x = 60%N.
Proof.
  unfold char_eqb. intros E H. apply N.eqb_eq in E. subst c.
  now apply char_eqbi_nonletter in H.
Qed.

(** What a pattern ending in [>] matches ends in [>]. *)
Lemma matchPieces_ends_gt (ps : pattern) :
  endsWithGt ps = true ->
  forall s k, matchPieces ps s = Some k -> exists pre, firstn k s = pre ++ [62%N].
Proof.
  induction ps as [|p ps IH]; intros Hg s k H; [discriminate|].
  destruct ps as [|q ps'].
  - (* the last piece *)
    destruct p as [c | c | | | c]; try discriminate; cbn [matchPieces option_map] in H;
      destruct s as [|x s]; try discriminate.
    + destruct (char_eqb c x) eqn:E; [|discriminate].
      assert (k = 1) as -> by congruence.
      exists []. cbn [endsWithGt isLiteral] in Hg. unfold char_eqb in *.
      apply N.eqb_eq in E. apply N.eqb_eq in Hg. subst. reflexivity.
    + destruct (char_eqbi c x) eqn:E; [|discriminate].
      assert (k = 1) as -> by congruence.
      exists []. now rewrite (char_eqbi_gt c x Hg E).
  - assert (Hg' : endsWithGt (q :: ps') = true) by exact Hg.
    specialize (IH Hg'). clear Hg Hg'. remember (q :: ps') as qs eqn:Eqs. clear Eqs.
    destruct p as [c | c | | | c]; cbn [matchPieces option_map] in H.
    + destruct s as [|x s]; [discriminate|]. destruct (char_eqb c x); [|discriminate].
      destruct (matchPieces qs s) as [k'|] eqn:E; [|discriminate].
      injection H as <-. destruct (IH _ _ E) as (pre & Ep).
      exists (x :: pre). simpl. now rewrite Ep.
    + destruct s as [|x s]; [discriminate|]. destruct (char_eqbi c x); [|discriminate].
      destruct (matchPieces qs s) as [k'|] eqn:E; [|discriminate].
      injection H as <-. destruct (IH _ _ E) as (pre & Ep).
      exists (x :: pre). simpl. now rewrite Ep.
    + destruct (matchPieces qs (skipn (spanLength isSpace s) s)) as [k'|] eqn:E;
        [|discriminate].
      injection H as <-. destruct (IH _ _ E) as (pre & Ep).
      exists (firstn (spanLength isSpace s) s ++ pre).
      now rewrite firstn_add, Ep, app_assoc.
    + destruct (spanLength isDigit s) as [|n] eqn:D; [discriminate|].
      destruct (matchPieces qs (skipn (S n) s)) as [k'|] eqn:E; [|discriminate].
      injection H as <-. destruct (IH _ _ E) as (pre & Ep).
      exists (firstn (S n) s ++ pre).
      etransitivity; [apply (firstn_add (S n) k' s)|].
      now rewrite Ep, app_assoc.
    + destruct s as [|x s]; [now apply IH|].
      destruct (char_eqb c x).
      * destruct (matchPieces qs s) as [k'|] eqn:E; [|discriminate].
        injection H as <-. destruct (IH _ _ E) as (pre & Ep).
        exists (x :: pre). simpl. now rewrite Ep.
      * now apply IH.
Qed.

Lemma matchPieces_starts_lt (p : piece) (ps : pattern) (s : jsstring) (k : nat) :
  isLiteral 60%N p = true -> matchPieces (p :: ps) s = Some k ->
  exists rest, s = 60%N :: rest.
Proof.
  intros Hp H. destruct p as [c | c | | | c]; try discriminate; cbn [matchPieces] in H;
    destruct s as [|x s]; try discriminate.
  - destruct (char_eqb c x) eqn:E; [|discriminate]. exists s.
    simpl in Hp. unfold char_eqb in *. apply N.eqb_eq in E, Hp. now subst.
  - destruct (char_eqbi c x) eqn:E; [|discriminate]. exists s.
    now rewrite (char_eqbi_lt c x Hp E).
Qed.

(** A tag-shaped pattern replaced by markup keeps markup. *)
Lemma keepsMarkup_replacing (texts : list jsstring) (ps : pattern) (r : jsstring) :
  tagShaped ps = true -> scan texts Outside r = Some Outside ->
  keepsMarkup texts (replacing ps r).
Proof.
  intros Hs Hr s k r' M. unfold replacing in M.
  destruct (matchPieces ps s) as [k'|] eqn:E; [|discriminate].
  injection M as -> <-.
  destruct ps as [|p ps]; [discriminate|].
  apply andb_true_iff in Hs as [H1 H2].
  destruct (matchPieces_starts_lt p ps s (S k) H1 E) as (rest & ->).
  repeat split.
  - now exists 60%N, rest.
  - now apply matchPieces_length in E.
  - intros st F. destruct (matchPieces_ends_gt _ H2 _ _ E) as (pre & Ep).
    rewrite Ep in F. now apply scan_ends_gt in F.
  - exact Hr.
Qed.

Lemma keepsMarkup_newlineToBr (texts : list jsstring) :
  mem (lit "br") texts = true -> keepsMarkup texts V2.newlineToBr.
Proof.
  intros Hbr s k r M. unfold V2.newlineToBr, replacing in M. cbn [matchPieces] in M.
  destruct s as [|x s]; [discriminate|].
  destruct (char_eqb 10%N x) eqn:E; [|discriminate].
  injection M as <- <-. unfold char_eqb in E. apply N.eqb_eq in E. subst x.
  repeat split.
  - now exists 10%N, s.
  - simpl. lia.
  - simpl. now intros st [= <-].
  - exact (scan_tag texts (lit "br") [] eq_refl Hbr).
Qed.

Lemma span_firstn (p : char -> bool) (s : jsstring) :
  forallb p (firstn (spanLength p s) s) = true.
Proof.
  induction s as [|c s IH]; [reflexivity|]. simpl.
  destruct (p c) eqn:E; [|reflexivity]. simpl. now rewrite E, IH.
Qed.

Lemma isDigit_plain (c : char) : isDigit c = true -> plainChar c = true.
Proof.
  unfold isDigit, plainChar. intro H. apply andb_true_iff in H as [H1 H2].
  apply N.leb_le in H1, H2.
  destruct (N.eqb_spec c 60); [lia|]. destruct (N.eqb_spec c 62); [lia|]. reflexivity.
Qed.

Lemma forallb_impl (p q : char -> bool) (s : jsstring) :
  (forall c, p c = true -> q c = true) -> forallb p s = true -> forallb q s = true.
Proof.
  intros I. rewrite !forallb_forall. intros H x Hx. apply I. now apply H.
Qed.

Lemma isDigit_stops (c : char) :
  isDigit c = true -> (c =? 62)%N = false /\ isNameChar c = false.
Proof.
  unfold isDigit, isNameChar. intro H. apply andb_true_iff in H as [H1 H2].
  apply N.leb_le in H1, H2. split.
  - destruct (N.eqb_spec c 62); [lia | reflexivity].
  - destruct (N.eqb_spec c 47); [lia|]. destruct (N.leb_spec 97 c); [lia|]. reflexivity.
Qed.

(** What [markerBreak] matches: a marker of plain code units, then what
    [\s*<br>] matches. *)
Lemma markerBreak_inv (s : jsstring) (k : nat) (r : jsstring) :
  V2.markerBreak s = Some (k, r) ->
  exists k1 k2 c rest,
    k = k1 + k2 /\ r = firstn k1 s ++ lit " "
    /\ s = c :: rest /\ (c =? 62)%N = false /\ isNameChar c = false
    /\ 1 <= k1 <= List.length s
    /\ forallb plainChar (firstn k1 s) = true
    /\ matchPieces (PSpaces :: exact "<br>") (skipn k1 s) = Some k2.
Proof.
  unfold V2.markerBreak. intro H.
  destruct (matchPieces [PChar bullet] s) as [k1|] eqn:B.
  - destruct (matchPieces (PSpaces :: exact "<br>") (skipn k1 s)) as [k2|] eqn:T;
      [|discriminate].
    injection H as <- <-. cbn [matchPieces option_map] in B.
    destruct s as [|c rest]; [discriminate|].
    destruct (char_eqb bullet c) eqn:E; [|discriminate].
    assert (k1 = 1) as -> by congruence.
    unfold char_eqb in E. apply N.eqb_eq in E. subst c.
    exists 1, k2, bullet, rest. repeat split; try reflexivity; try assumption.
    simpl. lia.
  - destruct (matchPieces [PDigits1; PChar 46%N] s) as [k1|] eqn:D; [|discriminate].
    destruct (matchPieces (PSpaces :: exact "<br>") (skipn k1 s)) as [k2|] eqn:T;
      [|discriminate].
    injection H as <- <-.
    pose proof (matchPieces_length _ _ _ D) as L.
    cbn [matchPieces option_map] in D.
    destruct (spanLength isDigit s) as [|n] eqn:Sp; [discriminate|].
    destruct (skipn (S n) s) as [|dot after] eqn:Sk; [discriminate|].
    destruct (char_eqb 46%N dot) eqn:E; [|discriminate].
    cbn [option_map] in D. assert (k1 = S n + 1) as -> by congruence.
    unfold char_eqb in E. apply N.eqb_eq in E. subst dot.
    destruct s as [|c rest]; [discriminate|].
    assert (Hc : isDigit c = true).
    { simpl in Sp. destruct (isDigit c); [reflexivity | discriminate]. }
    destruct (isDigit_stops _ Hc) as [G1 G2].
    exists (S n + 1), k2, c, rest. repeat split; try assumption; try lia.
    rewrite firstn_add, Sk, forallb_app. apply andb_true_iff. split; [|reflexivity].
    rewrite <- Sp. apply forallb_impl with (p := isDigit); [apply isDigit_plain|].
    apply span_firstn.
Qed.

Lemma keepsMarkup_markerBreak (texts : list jsstring) : keepsMarkup texts V2.markerBreak.
Proof.
  intros s k r M.
  destruct (markerBreak_inv _ _ _ M)
    as (k1 & k2 & c & rest & Ek & Er & Es & G1 & G2 & [L1 L2] & P & T).
  repeat split.
  - now exists c, rest.
  - rewrite Ek. apply matchPieces_length in T. rewrite length_skipn in T. lia.
  - intros st F. rewrite Ek, firstn_add in F.
    destruct (matchPieces_ends_gt (PSpaces :: exact "<br>") eq_refl _ _ T) as (pre & Ep).
    rewrite Ep, app_assoc in F. now apply scan_ends_gt in F.
  - rewrite Er. apply scan_plain. now rewrite forallb_app, P.
Qed.

(** ** Removing one tag from markup *)

Lemma matchPieces_literal (w s : jsstring) :
  startsWith w s = true -> matchPieces (map PCharI w) s = Some (List.length w).
Proof.
  revert s; induction w as [|p w IH]; intros s H; [reflexivity|].
  destruct s as [|c s]; [discriminate|]. simpl in H.
  apply andb_true_iff in H as [Hc Hs]. unfold char_eqb in Hc. apply N.eqb_eq in Hc.
  subst c. cbn [map matchPieces].
  unfold char_eqbi, char_eqb. rewrite N.eqb_refl. now rewrite (IH _ Hs).
Qed.

Lemma startsWith_app (w rest : jsstring) : startsWith w (w ++ rest) = true.
Proof.
  induction w as [|c w IH]; [reflexivity|]. simpl.
  unfold char_eqb. now rewrite N.eqb_refl.
Qed.

Lemma mem_without (w name : jsstring) (texts : list jsstring) :
  mem name texts = true -> name <> w -> mem name (without w texts) = true.
Proof.
  intros H N. apply mem_In. apply mem_In in H. unfold without.
  apply filter_In. split; [assumption|].
  apply negb_true_iff. now apply str_eqb_neq.
Qed.

Lemma endsWithGt_snoc (ps : pattern) : endsWithGt (ps ++ [PCharI 62%N]) = true.
Proof.
  induction ps as [|p ps IH]; [reflexivity|].
  cbn [app endsWithGt]. destruct (ps ++ [PCharI 62%N]) eqn:E; [|exact IH].
  now destruct ps.
Qed.

Lemma scan_remove_tag (texts : list jsstring) (w r : jsstring) :
  scan (without w texts) Outside r = Some Outside ->
  forall s st,
    scan texts st s = Some Outside -> pending w st s ->
    scan (without w texts) st
         (replaceAll (replacing (map PCharI (60%N :: w ++ [62%N])) r) s)
    = Some Outside.
Proof.
  intro Hr. set (ps := map PCharI (60%N :: w ++ [62%N])).
  assert (Shaped : tagShaped ps = true).
  { unfold ps. cbn [map tagShaped isLiteral]. rewrite map_app.
    change (endsWithGt (PCharI 60%N :: map PCharI w ++ map PCharI [62%N]))
      with (endsWithGt ((PCharI 60%N :: map PCharI w) ++ [PCharI 62%N])).
    now rewrite endsWithGt_snoc. }
  assert (G : forall n s st, List.length s <= n ->
              scan texts st s = Some Outside -> pending w st s ->
              scan (without w texts) st (replaceAll (replacing ps r) s) = Some Outside).
  { induction n as [|n IH]; intros s st L H P.
    - destruct s; [assumption | simpl in L; lia].
    - destruct s as [|c rest]; [assumption|].
      rewrite replaceAll_step.
      destruct (replacing ps r (c :: rest)) as [[k r']|] eqn:M.
      + (* a match: the tag is removed *)
        unfold replacing in M.
        destruct (matchPieces ps (c :: rest)) as [k0|] eqn:E; [|discriminate].
        injection M as -> <-.
        destruct (matchPieces_starts_lt (PCharI 60%N) (map PCharI (w ++ [62%N]))
                    (c :: rest) k eq_refl E) as (rest' & Ec).
        injection Ec as -> <-.
        destruct st as [|name]; [|discriminate H].
        pose proof (matchPieces_length _ _ _ E) as Lk.
        destruct k as [|k].
        { exfalso. clear - E. unfold ps in E. cbn [map matchPieces] in E.
          destruct (char_eqbi 60%N 60%N); [|discriminate].
          destruct (matchPieces (map PCharI (w ++ [62%N])) rest); discriminate. }
        pose proof Shaped as Sh. unfold tagShaped, ps in Sh. cbn [map] in Sh.
        apply andb_true_iff in Sh as [_ S2].
        destruct (matchPieces_ends_gt ps S2 _ _ E) as (pre & Ep).
        rewrite <- (firstn_skipn (S k) (60%N :: rest)) in H.
        rewrite scan_app, Ep in H.
        destruct (scan texts Outside (pre ++ [62%N])) as [st'|] eqn:F; [|discriminate].
        apply scan_ends_gt in F. subst st'.
        rewrite scan_app, Hr. apply IH; [|exact H | exact I].
        simpl in L. cbn [skipn] in *. rewrite length_skipn. lia.
      + (* no match here *)
        assert (NoTag : c = 60%N -> startsWith (w ++ [62%N]) rest = false).
        { intros ->. destruct (startsWith (w ++ [62%N]) rest) eqn:Sw; [|reflexivity].
          exfalso. unfold replacing in M.
          assert (Spell : startsWith (60%N :: w ++ [62%N]) (60%N :: rest) = true)
            by exact Sw.
          apply matchPieces_literal in Spell. fold ps in Spell.
          now rewrite Spell in M. }
        cbn [scan] in H |- *.
        destruct st as [|name]; cbn [scanStep] in H |- *.
        * destruct (N.eqb_spec c 60) as [C|C].
          -- apply IH; [simpl in L; lia | assumption | now apply NoTag].
          -- destruct (c =? 62)%N; [discriminate|].
             apply IH; [simpl in L; lia | assumption | exact I].
        * destruct (N.eqb_spec c 62) as [C|C].
          -- destruct (mem name texts) eqn:Mn; [|discriminate].
             rewrite mem_without; [apply IH; [simpl in L; lia | assumption | exact I]
                                  | assumption |].
             intros ->. subst c. cbn [pending] in P.
             change (w ++ 62%N :: rest) with (w ++ [62%N] ++ rest) in P.
             rewrite app_assoc, startsWith_app in P. discriminate.
          -- destruct (isNameChar c); [|discriminate].
             apply IH; [simpl in L; lia | assumption|].
             cbn [pending] in *. now rewrite <- app_assoc. }
  intros s st. now apply (G (List.length s)).
Qed.

(* ================================================================== *)
(** * The clean-up of the second variant keeps markup *)
(* ================================================================== *)

Ltac keep_replaced :=
  apply scan_replaceAll;
  [ apply keepsMarkup_replacing; [reflexivity | first [reflexivity | assumption]] | ].

(** Steps 7 and 8: empty pairs, trimming, boundary breaks. *)
Lemma V2_cleanup_tail (texts : list jsstring) (s : jsstring) :
  mem (lit "br") texts = true ->
  scan texts Outside s = Some Outside ->
  scan texts Outside
    (stripTrailingBr (stripLeadingBr (trim
      (replaceAll (V2.emptyPair "p")
      (replaceAll (V2.emptyPair "sup")
      (replaceAll (V2.emptyPair "sub")
      (replaceAll (V2.emptyPair "u")
      (replaceAll (V2.emptyPair "i")
      (replaceAll (V2.emptyPair "b") s))))))))) = Some Outside.
Proof.
  intros Hbr H.
  apply scan_stripTrailingBr, scan_stripLeadingBr; [assumption|].
  apply scan_trim.
  unfold V2.emptyPair. do 6 keep_replaced. exact H.
Qed.

(** Steps 1 to 5. *)
Lemma V2_cleanup_head (plain : bool) (s : jsstring) :
  scan (tagTexts LEGACY_TAGS) Outside s = Some Outside ->
  scan (tagTexts LEGACY_TAGS) Outside
    (replaceAll V2.leadingBreakInP
    (replaceAll V2.nestedCloseP
    (replaceAll V2.nestedOpenP
    (replaceAll V2.markerBreak
    (replaceAll V2.normalizeBr
       (if plain then replaceAll V2.newlineToBr s else s)))))) = Some Outside.
Proof.
  intro H.
  unfold V2.leadingBreakInP, V2.nestedCloseP, V2.nestedOpenP.
  do 3 keep_replaced.
  apply scan_replaceAll; [apply keepsMarkup_markerBreak|].
  unfold V2.normalizeBr. keep_replaced.
  destruct plain; [|exact H].
  apply scan_replaceAll; [now apply keepsMarkup_newlineToBr | exact H].
Qed.

Lemma V2_cleanup_legacy (config : ConversionConfig) (plain : bool) (s : jsstring) :
  onlyTags LEGACY_TAGS s = true ->
  onlyTags LEGACY_TAGS (V2.cleanup config plain s) = true.
Proof.
  rewrite !onlyTags_scan. intro H. unfold V2.cleanup.
  apply V2_cleanup_tail; [reflexivity|].
  pose proof (V2_cleanup_head plain s H) as Head.
  destruct (negb (useParagraphs config)); [|exact Head].
  unfold V2.closeP, V2.openP. do 2 keep_replaced. exact Head.
Qed.

Lemma V2_cleanup_lineBreaks (config : ConversionConfig) (plain : bool) (s : jsstring) :
  useParagraphs config = false ->
  onlyTags LEGACY_TAGS s = true ->
  onlyTags LINE_BREAK_TAGS (V2.cleanup config plain s) = true.
Proof.
  rewrite !onlyTags_scan. intros Mode H. unfold V2.cleanup. rewrite Mode.
  cbn [negb].
  apply V2_cleanup_tail; [reflexivity|].
  pose proof (V2_cleanup_head plain s H) as Head.
  change (tagTexts LINE_BREAK_TAGS)
    with (without (lit "/p") (without (lit "p") (tagTexts LEGACY_TAGS))).
  apply (scan_remove_tag (without (lit "p") (tagTexts LEGACY_TAGS)) (lit "/p")
           (lit "<br><br>") eq_refl); [|exact I].
  apply (scan_remove_tag (tagTexts LEGACY_TAGS) (lit "p") [] eq_refl);
    [exact Head | exact I].
Qed.

(* ================================================================== *)
(** * Tag closure and the mode switch *)
(* ================================================================== *)

(** What [onlyTags] accepts and what it refuses. *)
Example onlyTags_accepts :
  onlyTags LEGACY_TAGS (lit "a &lt; b<p><b>x</b><br>y</p><ul><li>z</li></ul>") = true.
Proof. reflexivity. Qed.

Example onlyTags_refuses :
  onlyTags LEGACY_TAGS (lit "<div>x</div>") = false
  /\ onlyTags LEGACY_TAGS (lit "<p class=x>y</p>") = false
  /\ onlyTags LEGACY_TAGS (lit "<P>y</P>") = false
  /\ onlyTags LEGACY_TAGS (lit "<br/>") = false
  /\ onlyTags LEGACY_TAGS (lit "a < b") = false
  /\ onlyTags LINE_BREAK_TAGS (lit "<p>y</p>") = false.
Proof. repeat split; reflexivity. Qed.

Lemma V1_html_onlyTags (sanitize : jsstring -> outcome jsstring)
    (parseFromString : jsstring -> outcome Document)
    (rawHtml : jsstring) (config : ConversionConfig) :
  onlyTags LEGACY_TAGS (html (V1.cleanHtml sanitize parseFromString rawHtml config)) = true
  /\ (useParagraphs config = false ->
      onlyTags LINE_BREAK_TAGS
        (html (V1.cleanHtml sanitize parseFromString rawHtml config)) = true).
Proof.
  unfold V1.cleanHtml, V1.attempt.
  destruct (sanitize rawHtml) as [cleanInput | m]; cbn [bind]; [|now split].
  destruct (parseFromString cleanInput) as [doc | m]; cbn [bind]; [|now split].
  destruct (hasParserError doc); [now split|].
  pose proof (V1_body_over config (body doc) noCounts) as B.
  destruct (forEachAppend _ (body doc) noCounts) as [fragment k]. cbn [fst] in B.
  destruct (V1_postProcess_over config fragment B) as [P1 P2].
  cbn [html]. split.
  - now apply V1_finish_onlyTags.
  - intro Mode. apply V1_finish_onlyTags; [reflexivity | reflexivity | now apply P2].
Qed.

Lemma V2_html_onlyTags (parseFromString : jsstring -> outcome Document)
    (rawHtml : jsstring) (config : ConversionConfig) :
  onlyTags LEGACY_TAGS (html (V2.cleanHtml parseFromString rawHtml config)) = true
  /\ (useParagraphs config = false ->
      onlyTags LINE_BREAK_TAGS (html (V2.cleanHtml parseFromString rawHtml config)) = true).
Proof.
  unfold V2.cleanHtml, V2.attempt.
  destruct (parseFromString rawHtml) as [doc | m]; cbn [bind]; [|now split].
  destruct (hasParserError doc); [now split|].
  pose proof (V2_body_over config (V2.treatAsPlainText doc) (body doc) noCounts) as B.
  destruct (forEachAppend _ (body doc) noCounts) as [fragment k]. cbn [fst] in B.
  pose proof (onlyTags_innerHTML LEGACY_TAGS eq_refl fragment B) as S.
  cbn [html]. split.
  - now apply V2_cleanup_legacy.
  - intro Mode. now apply V2_cleanup_lineBreaks.
Qed.

(** What [onlyTags] means for a [<]: it opens a listed tag text that is
    closed by the next [>]. *)
Lemma scan_inside_closes (texts : list jsstring) (post : jsstring) :
  forall acc, scan texts (Inside acc) post = Some Outside ->
              exists name rest, post = name ++ 62%N :: rest
                                /\ mem (acc ++ name) texts = true.
Proof.
  induction post as [|c post IH]; intros acc H; [discriminate|].
  cbn [scan scanStep] in H. destruct (N.eqb_spec c 62) as [-> | C].
  - destruct (mem acc texts) eqn:M; [|discriminate].
    exists [], post. now rewrite app_nil_r.
  - destruct (isNameChar c); [|discriminate].
    destruct (IH _ H) as (name & rest & -> & M).
    exists (c :: name), rest. split; [reflexivity|]. now rewrite <- app_assoc in M.
Qed.

Lemma onlyTags_opens (tags : list jsstring) (s : jsstring) :
  onlyTags tags s = true ->
  forall pre post, s = pre ++ 60%N :: post ->
    exists name rest, post = name ++ 62%N :: rest /\ In name (tagTexts tags).
Proof.
  rewrite onlyTags_scan. intros H pre post ->. rewrite scan_app in H.
  destruct (scan (tagTexts tags) Outside pre) as [[|acc]|]; try discriminate.
  - cbn [scan scanStep] in H. change (60 =? 60)%N with true in H. cbv iota in H.
    destruct (scan_inside_closes _ _ _ H) as (name & rest & -> & M).
    exists name, rest. split; [reflexivity | now apply mem_In].
Qed.

(** C1 — Tag closure.  Whatever the sanitiser and the parser hand over,
    for every input and every configuration the [html] that [cleanHtml]
    returns (in either variant) is text in which every [<] opens, and every
    [>] closes, a tag of {b, i, u, sub, sup, p, br, ul, ol, li} written as
    [<name>] or [</name>]: no other element, and no attribute on any.  (The
    [html] of a failure is empty, so it need not be set apart.)  In
    particular, whatever follows a [<] of the output is one of the ten names,
    or [/] and one of the nine names with an end tag, and then [>]. *)
Theorem C1_tag_closure :
  forall (sanitize : jsstring -> outcome jsstring)
         (parseFromString : jsstring -> outcome Document)
         (rawHtml : jsstring) (config : ConversionConfig) (output : jsstring),
    output = html (V1.cleanHtml sanitize parseFromString rawHtml config)
    \/ output = html (V2.cleanHtml parseFromString rawHtml config) ->
    onlyTags LEGACY_TAGS output = true
    /\ (forall pre post,
           output = pre ++ 60%N :: post ->
           exists name rest,
             post = name ++ 62%N :: rest /\ In name (tagTexts LEGACY_TAGS)).
Proof.
  intros sanitize parseFromString rawHtml config output Which.
  assert (Closed : onlyTags LEGACY_TAGS output = true).
  { destruct Which as [-> | ->]; [apply V1_html_onlyTags | apply V2_html_onlyTags]. }
  split; [exact Closed | now apply onlyTags_opens].
Qed.

Lemma C1_tag_closure_witness :
  html (V1.cleanHtml Sample.sanitize Sample.parseFromString
          (lit "<ul><li><p>Item</p></li></ul>") (Sample.paragraphs true))
  = [] ++ 60%N :: lit "ul><li>Item</li></ul>"
  /\ exists name rest,
       lit "ul><li>Item</li></ul>" = name ++ 62%N :: rest
       /\ In name (tagTexts LEGACY_TAGS).
Proof.
  split; [reflexivity|].
  exact (proj2 (C1_tag_closure Sample.sanitize Sample.parseFromString
                  (lit "<ul><li><p>Item</p></li></ul>") (Sample.paragraphs true)
                  _ (or_introl eq_refl))
               [] (lit "ul><li>Item</li></ul>") eq_refl).
Defined.

(** C5 — Mode switch.  With [useParagraphs] off, the [html] of either
    variant holds no paragraph tag: it is markup over the dialect without
    [p].  The first variant replaces each paragraph element by its
    (unwrapped) children followed by two breaks; the second one drops each
    [<p>] and puts [<br><br>] for each [</p>].  When the sanitiser leaves
    [<h1>Title</h1><p>Body</p>] as it is and the parser reads it as a heading
    and a paragraph, both variants answer [<b>Title</b><br><br>Body]. *)
Theorem C5_line_break_mode :
  forall (sanitize : jsstring -> outcome jsstring)
         (parseFromString : jsstring -> outcome Document)
         (config : ConversionConfig),
    useParagraphs config = false ->
    (forall rawHtml,
        onlyTags LINE_BREAK_TAGS
          (html (V1.cleanHtml sanitize parseFromString rawHtml config)) = true
        /\ onlyTags LINE_BREAK_TAGS
             (html (V2.cleanHtml parseFromString rawHtml config)) = true)
    /\ (forall children,
           V1.unwrapParagraphs (OElem (lit "p") children)
           = flat_map V1.unwrapParagraphs children ++ [br; br])
    /\ (forall rest,
           V2.openP (lit "<p>" ++ rest) = Some (3, [])
           /\ V2.closeP (lit "</p>" ++ rest) = Some (4, lit "<br><br>"))
    /\ (sanitize (lit "<h1>Title</h1><p>Body</p>")
          = Returns (lit "<h1>Title</h1><p>Body</p>") ->
        parseFromString (lit "<h1>Title</h1><p>Body</p>")
          = Returns {| head := [];
                       body := [Sample.element "h1" [Sample.text "Title"];
                                Sample.element "p" [Sample.text "Body"]] |} ->
        let first := V1.cleanHtml sanitize parseFromString
                       (lit "<h1>Title</h1><p>Body</p>") config in
        let second := V2.cleanHtml parseFromString
                        (lit "<h1>Title</h1><p>Body</p>") config in
        html first = lit "<b>Title</b><br><br>Body" /\ error first = None
        /\ html second = lit "<b>Title</b><br><br>Body" /\ error second = None).
Proof.
  intros sanitize parseFromString config Mode.
  split; [|split; [|split]].
  - intro rawHtml. split; [now apply V1_html_onlyTags | now apply V2_html_onlyTags].
  - reflexivity.
  - intro rest. split; reflexivity.
  - intros Hs Hp first second. subst first second.
    unfold V1.cleanHtml, V1.attempt, V2.cleanHtml, V2.attempt.
    rewrite Hs. cbn [bind]. rewrite Hp.
    destruct config as [m u c a w]. cbn in Mode. subst u.
    destruct w; repeat split; reflexivity.
Qed.

Lemma C5_line_break_mode_witness :
  useParagraphs (Sample.lineBreaks true) = false
  /\ Sample.sanitize (lit "<h1>Title</h1><p>Body</p>")
     = Returns (lit "<h1>Title</h1><p>Body</p>")
  /\ html (V2.cleanHtml Sample.parseFromString (lit "<h1>Title</h1><p>Body</p>")
             (Sample.lineBreaks true))
     = lit "<b>Title</b><br><br>Body"
  /\ onlyTags LINE_BREAK_TAGS
       (html (V1.cleanHtml Sample.sanitize Sample.parseFromString (lit " a")
                (Sample.lineBreaks true))) = true.
Proof.
  pose proof (C5_line_break_mode Sample.sanitize Sample.parseFromString
                (Sample.lineBreaks true) eq_refl) as (Closed & _ & _ & Example).
  specialize (Example eq_refl eq_refl). cbv zeta in Example.
  destruct Example as (_ & _ & Second & _).
  split; [reflexivity | split; [reflexivity | split]].
  - exact Second.
  - exact (proj1 (Closed (lit " a"))).
Defined.

(* ================================================================== *)
(** * Failures *)
(* ================================================================== *)

Lemma V1_cleanHtml_cases (sanitize : jsstring -> outcome jsstring)
    (parseFromString : jsstring -> outcome Document)
    (rawHtml : jsstring) (config : ConversionConfig) :
  (exists r, V1.attempt sanitize parseFromString rawHtml config = Returns r
             /\ V1.cleanHtml sanitize parseFromString rawHtml config = r
             /\ error r = None)
  \/ (exists m, V1.attempt sanitize parseFromString rawHtml config = Throws m
                /\ V1.cleanHtml sanitize parseFromString rawHtml config
                   = {| html := []; stats := V1.zeroStats;
                        error := Some (match m with
                                       | [] => V1.UNEXPECTED
                                       | _ => m
                                       end) |}).
Proof.
  unfold V1.cleanHtml.
  destruct (V1.attempt sanitize parseFromString rawHtml config) as [r | m] eqn:A.
  - left. exists r. repeat split. unfold V1.attempt in A.
    destruct (sanitize rawHtml) as [c|]; [|discriminate]. cbn [bind] in A.
    destruct (parseFromString c) as [doc|]; [|discriminate]. cbn [bind] in A.
    destruct (hasParserError doc); [discriminate|].
    destruct (forEachAppend _ (body doc) noCounts) as [fragment k].
    now injection A as <-.
  - right. now exists m.
Qed.

Lemma V2_cleanHtml_cases (parseFromString : jsstring -> outcome Document)
    (rawHtml : jsstring) (config : ConversionConfig) :
  (exists r, V2.attempt parseFromString rawHtml config = Returns r
             /\ V2.cleanHtml parseFromString rawHtml config = r
             /\ error r = None)
  \/ (exists m, V2.attempt parseFromString rawHtml config = Throws m
                /\ V2.cleanHtml parseFromString rawHtml config
                   = {| html := []; stats := V2.zeroStats;
                        error := Some V2.COULD_NOT_PARSE |}).
Proof.
  unfold V2.cleanHtml.
  destruct (V2.attempt parseFromString rawHtml config) as [r | m] eqn:A.
  - left. exists r. repeat split. unfold V2.attempt in A.
    destruct (parseFromString rawHtml) as [doc|]; [|discriminate]. cbn [bind] in A.
    destruct (hasParserError doc); [discriminate|].
    destruct (forEachAppend _ (body doc) noCounts) as [fragment k].
    now injection A as <-.
  - right. now exists m.
Qed.

(** C8 — Error containment.  Whatever the sanitiser and the parser do,
    [cleanHtml] returns a record, and the record is determined by what they
    do.  First variant: when the sanitiser throws, when the parser throws on
    the sanitised text, or when the document holds a [parsererror] element,
    the record has an empty [html], the four statistics at zero and [error]
    set: to the message of what was thrown (the fixed text when the message
    is empty) or to the text thrown for the [parsererror]; in the one case
    left, both calls returning a document without [parsererror], [error] is
    absent.  Second variant: the same three cases (the parser reads the raw
    input), each answered with the one fixed message; absent otherwise.  In
    both variants a record with [error] set has an empty [html] and all four
    statistics at zero.  What is thrown is an object here, as the errors of
    the two libraries and of the engine's own [throw] are; the first
    variant reads its [message]. *)
Theorem C8_error_containment :
  forall (sanitize : jsstring -> outcome jsstring)
         (parseFromString : jsstring -> outcome Document)
         (rawHtml : jsstring) (config : ConversionConfig),
    let failure (message : jsstring) :=
      {| html := [];
         stats := {| originalLength := 0; finalLength := 0;
                     tagsRemoved := 0; attributesRemoved := 0 |};
         error := Some message |} in
    let shown (message : jsstring) :=
      match message with [] => V1.UNEXPECTED | _ => message end in
    let first := V1.cleanHtml sanitize parseFromString rawHtml config in
    let second := V2.cleanHtml parseFromString rawHtml config in
    (forall m, sanitize rawHtml = Throws m -> first = failure (shown m))
    /\ (forall cleanInput m,
           sanitize rawHtml = Returns cleanInput ->
           parseFromString cleanInput = Throws m ->
           first = failure (shown m))
    /\ (forall cleanInput doc,
           sanitize rawHtml = Returns cleanInput ->
           parseFromString cleanInput = Returns doc ->
           hasParserError doc = true ->
           first = failure V1.MALFORMED)
    /\ (forall cleanInput doc,
           sanitize rawHtml = Returns cleanInput ->
           parseFromString cleanInput = Returns doc ->
           hasParserError doc = false ->
           error first = None)
    /\ (forall m, parseFromString rawHtml = Throws m ->
                  second = failure V2.COULD_NOT_PARSE)
    /\ (forall doc,
           parseFromString rawHtml = Returns doc -> hasParserError doc = true ->
           second = failure V2.COULD_NOT_PARSE)
    /\ (forall doc,
           parseFromString rawHtml = Returns doc -> hasParserError doc = false ->
           error second = None)
    /\ (forall r, r = first \/ r = second -> error r <> None ->
                  html r = []
                  /\ originalLength (stats r) = 0 /\ finalLength (stats r) = 0
                  /\ tagsRemoved (stats r) = 0 /\ attributesRemoved (stats r) = 0).
Proof.
  intros sanitize parseFromString rawHtml config failure shown first second.
  subst first second. unfold V1.cleanHtml, V1.attempt, V2.cleanHtml, V2.attempt.
  repeat apply conj.
  - now intros m ->.
  - intros cleanInput m -> . cbn [bind]. now intros ->.
  - intros cleanInput doc ->. cbn [bind]. intros ->. cbn [bind]. now intros ->.
  - intros cleanInput doc ->. cbn [bind]. intros ->. cbn [bind]. intros ->.
    now destruct (forEachAppend _ (body doc) noCounts).
  - now intros m ->.
  - intros doc ->. cbn [bind]. now intros ->.
  - intros doc ->. cbn [bind]. intros ->.
    now destruct (forEachAppend _ (body doc) noCounts).
  - intros r Which Failed. destruct Which as [-> | ->].
    + destruct (V1_cleanHtml_cases sanitize parseFromString rawHtml config)
        as [(r & _ & E & Ok) | (m & _ & E)];
        unfold V1.cleanHtml, V1.attempt in E; rewrite E in *.
      * contradiction.
      * repeat split.
    + destruct (V2_cleanHtml_cases parseFromString rawHtml config)
        as [(r & _ & E & Ok) | (m & _ & E)];
        unfold V2.cleanHtml, V2.attempt in E; rewrite E in *.
      * contradiction.
      * repeat split.
Qed.

Lemma C8_error_containment_witness :
  (Sample.parseFromString (lit "<parsererror>x</parsererror>")
   = Returns {| head := [];
                body := [Sample.element "parsererror" [Sample.text "x"]] |}
   /\ hasParserError
        {| head := [];
           body := [Sample.element "parsererror" [Sample.text "x"]] |} = true)
  /\ V2.cleanHtml Sample.parseFromString (lit "<parsererror>x</parsererror>")
       (Sample.paragraphs true)
     = {| html := [];
          stats := {| originalLength := 0; finalLength := 0;
                      tagsRemoved := 0; attributesRemoved := 0 |};
          error := Some V2.COULD_NOT_PARSE |}.
Proof.
  split; [split; reflexivity|].
  exact (proj1 (proj2 (proj2 (proj2 (proj2 (proj2
    (C8_error_containment Sample.sanitize Sample.parseFromString
       (lit "<parsererror>x</parsererror>") (Sample.paragraphs true)))))))
    _ eq_refl eq_refl).
Defined.

(* ================================================================== *)
(** * The element branch of the walkers *)
(* ================================================================== *)

Lemma V1_processNode_element (config : ConversionConfig) (tagName : jsstring)
    (attrs : list (jsstring * jsstring)) (children : list node)
    (context : V1.ConversionContext) (k : counters) :
  mem tagName V1.IGNORE_TAGS = false ->
  V1.processNode config (Element tagName attrs children) context k =
  let styleAttr := attributeOrEmpty (lit "style") attrs in
  let walked := forEachAppend
                  (fun child => V1.processNode config child
                                  (V1.childContextOf context tagName))
                  children (V1.countStyle styleAttr k) in
  (V1.buildElement context tagName styleAttr (fst walked), snd walked).
Proof.
  intro H. cbn [V1.processNode]. rewrite H. cbv zeta.
  now destruct (forEachAppend _ children _).
Qed.

Lemma V2_processNode_element (config : ConversionConfig) (plain : bool)
    (tagName : jsstring) (attrs : list (jsstring * jsstring)) (children : list node)
    (context : V2.ConversionContext) (k : counters) :
  mem tagName V2.IGNORE_TAGS = false ->
  V2.processNode config plain (Element tagName attrs children) context k =
  let styleAttr := attributeOrEmpty (lit "style") attrs in
  let walked := V2.forEachChild (V2.processNode config plain) plain
                  (str_eqb tagName (lit "ol"))
                  (V2.childBaseContextOf context tagName)
                  children (V2.firstListIndex tagName attrs) k in
  (V2.buildElement context tagName styleAttr
     (V2.prefixNodes (V2.prefixOf context tagName) ++ fst (fst walked))
     (snd (fst walked)),
   snd walked).
Proof.
  intro H. cbn [V2.processNode]. rewrite H. cbv zeta.
  now destruct (V2.forEachChild _ _ _ _ children _ _) as [[nodes hasContent] k'].
Qed.

Lemma V1_discards (config : ConversionConfig) (tagName : jsstring)
    (attrs : list (jsstring * jsstring)) (children : list node)
    (context : V1.ConversionContext) (k : counters) :
  mem tagName V1.IGNORE_TAGS = true ->
  V1.processNode config (Element tagName attrs children) context k = (None, countTag k).
Proof. intro H. cbn [V1.processNode]. now rewrite H. Qed.

Lemma V2_discards (config : ConversionConfig) (plain : bool) (tagName : jsstring)
    (attrs : list (jsstring * jsstring)) (children : list node)
    (context : V2.ConversionContext) (k : counters) :
  mem tagName V2.IGNORE_TAGS = true ->
  V2.processNode config plain (Element tagName attrs children) context k
  = (None, countTag k).
Proof. intro H. cbn [V2.processNode]. now rewrite H. Qed.

(* ================================================================== *)
(** * Discarded subtrees *)
(* ================================================================== *)

(** C3, as the specification states it, fails in the first variant: the
    sanitiser is told to forbid [script], so on
    [<script>alert(1)</script>Safe text] the walker never meets the element;
    the output is [Safe text] but [tagsRemoved] is 0, not at least 1. *)
Lemma C3_counterexample :
  let r := V1.cleanHtml Sample.sanitize Sample.parseFromString
             (lit "<script>alert(1)</script>Safe text") (Sample.paragraphs true) in
  error r = None /\ html r = lit "Safe text" /\ ~ (1 <= tagsRemoved (stats r)).
Proof. cbv zeta. repeat split. vm_compute. lia. Qed.

(** C3, amended.  An element whose tag is in [IGNORE_TAGS] and which the
    walker visits yields [null], its children are not visited, and
    [tagsRemoved] goes up by exactly one (both variants).  When the parsed
    body holds the script element followed by the text [Safe text], the
    output is [Safe text] and [tagsRemoved] is 1 (both variants).  In the
    first variant the sanitiser runs first: when it answers
    [<script>alert(1)</script>Safe text] with [Safe text], the output is
    [Safe text] and [tagsRemoved] is 0. *)
Theorem C3_discard_subtree :
  forall (sanitize : jsstring -> outcome jsstring)
         (parseFromString : jsstring -> outcome Document)
         (config : ConversionConfig),
    (forall tagName attrs children k,
        mem tagName V1.IGNORE_TAGS = true ->
        (forall context,
            V1.processNode config (Element tagName attrs children) context k
            = (None, countTag k))
        /\ (forall plain context,
               V2.processNode config plain (Element tagName attrs children) context k
               = (None, countTag k)))
    /\ (forall rawHtml cleanInput,
           sanitize rawHtml = Returns cleanInput ->
           parseFromString cleanInput
           = Returns {| head := [];
                        body := [Sample.element "script" [Sample.text "alert(1)"];
                                 Sample.text "Safe text"] |} ->
           let first := V1.cleanHtml sanitize parseFromString rawHtml config in
           let second := V2.cleanHtml parseFromString cleanInput config in
           error first = None /\ html first = lit "Safe text"
           /\ tagsRemoved (stats first) = 1
           /\ error second = None /\ html second = lit "Safe text"
           /\ tagsRemoved (stats second) = 1)
    /\ (sanitize (lit "<script>alert(1)</script>Safe text") = Returns (lit "Safe text") ->
        parseFromString (lit "Safe text")
        = Returns {| head := []; body := [Sample.text "Safe text"] |} ->
        let first := V1.cleanHtml sanitize parseFromString
                       (lit "<script>alert(1)</script>Safe text") config in
        error first = None /\ html first = lit "Safe text"
        /\ tagsRemoved (stats first) = 0).
Proof.
  intros sanitize parseFromString config. split; [|split].
  - intros tagName attrs children k H. split.
    + intro context. now apply V1_discards.
    + intros plain context. now apply V2_discards.
  - intros rawHtml cleanInput Hs Hp first second. subst first second.
    unfold V1.cleanHtml, V1.attempt, V2.cleanHtml, V2.attempt.
    rewrite Hs. cbn [bind]. rewrite Hp.
    destruct config as [m u c a w]. destruct u, w; repeat split; reflexivity.
  - intros Hs Hp first. subst first.
    unfold V1.cleanHtml, V1.attempt. rewrite Hs. cbn [bind]. rewrite Hp.
    destruct config as [m u c a w]. destruct u, w; repeat split; reflexivity.
Qed.

Lemma C3_discard_subtree_witness :
  (mem (lit "script") V1.IGNORE_TAGS = true
   /\ Sample.sanitize (lit "<body><script>alert(1)</script>Safe text")
      = Returns (lit "<body><script>alert(1)</script>Safe text")
   /\ Sample.sanitize (lit "<script>alert(1)</script>Safe text")
      = Returns (lit "Safe text"))
  /\ tagsRemoved (stats (V2.cleanHtml Sample.parseFromString
                           (lit "<body><script>alert(1)</script>Safe text")
                           (Sample.paragraphs true))) = 1
  /\ tagsRemoved (stats (V1.cleanHtml Sample.sanitize Sample.parseFromString
                           (lit "<script>alert(1)</script>Safe text")
                           (Sample.paragraphs true))) = 0
  /\ V1.processNode (Sample.paragraphs true)
       (Sample.element "script" [Sample.text "alert(1)"]) V1.topContext noCounts
     = (None, countTag noCounts).
Proof.
  pose proof (C3_discard_subtree Sample.sanitize Sample.parseFromString
                (Sample.paragraphs true)) as (Discard & Tree & Sanitised).
  split; [repeat split|]. split; [|split].
  - exact (proj2 (proj2 (proj2 (proj2 (proj2
             (Tree (lit "<body><script>alert(1)</script>Safe text") _
                   eq_refl eq_refl)))))).
  - exact (proj2 (proj2 (Sanitised eq_refl eq_refl))).
  - exact (proj1 (Discard (lit "script") [] [Sample.text "alert(1)"] noCounts eq_refl)
                 V1.topContext).
Defined.

(* ================================================================== *)
(** * The emptiness rule *)
(* ================================================================== *)

Lemma targetIs_V1 (targetTag : option jsstring) (x : string) :
  V1.targetIs targetTag x = true <-> targetTag = Some (lit x).
Proof.
  destruct targetTag as [t|]; simpl; [|split; discriminate].
  rewrite str_eqb_eq. split; [now intros -> | now intros [= ->]].
Qed.

Lemma targetIs_V2 (targetTag : option jsstring) (x : string) :
  V2.targetIs targetTag x = true <-> targetTag = Some (lit x).
Proof.
  destruct targetTag as [t|]; simpl; [|split; discriminate].
  rewrite str_eqb_eq. split; [now intros -> | now intros [= ->]].
Qed.







Lemma V2_buildElement_br (context : V2.ConversionContext)
    (tagName styleAttr : jsstring) (fragment : list onode) (hasContent : bool) :
  V2.targetIs (V2.targetTagOf context tagName) "br" = true ->
  V2.buildElement context tagName styleAttr fragment hasContent
  = Some (RFrag (br :: nodesOf (V2.applyWrappers tagName styleAttr
                                   (Some (lit "br")) fragment))).
Proof.
  intro H. unfold V2.buildElement. rewrite H.
  apply targetIs_V2 in H. rewrite H. cbn. now rewrite andb_false_r.
Qed.






(* ================================================================== *)
(** * Paragraphs inside list items *)
(* ================================================================== *)







(* ================================================================== *)
(** * Counting discarded style attributes *)
(* ================================================================== *)

Lemma forEachAppend_counts
    (f : node -> counters -> option result * counters) (l : list node) :
  Forall (fun child => forall k,
            removedAttributes (snd (f child k))
            = removedAttributes k + styledElements child) l ->
  forall k, removedAttributes (snd (forEachAppend f l k))
            = removedAttributes k + list_sum (map styledElements l).
Proof.
  induction 1 as [|child rest Hc _ IH]; intro k; simpl; [lia|].
  specialize (Hc k). destruct (f child k) as [processed k1].
  specialize (IH k1). destruct (forEachAppend f rest k1) as [more k2].
  simpl in *. lia.
Qed.

(** The first walker counts every reached element with a non-empty style
    attribute exactly once. *)
Lemma V1_counts_styles (config : ConversionConfig) (n : node) :
  forall context k,
    removedAttributes (snd (V1.processNode config n context k))
    = removedAttributes k + styledElements n.
Proof.
  induction n as [data | tagName attrs children IH |] using node_induction;
    intros context k.
  - simpl. lia.
  - cbn [styledElements]. destruct (mem tagName V1.IGNORE_TAGS) eqn:Ig.
    + rewrite V1_discards by assumption. simpl. lia.
    + rewrite V1_processNode_element by assumption. cbv zeta. cbn [snd].
      rewrite forEachAppend_counts.
      * unfold V1.countStyle. destruct (attributeOrEmpty (lit "style") attrs);
          simpl; lia.
      * revert IH. apply Forall_impl. intros child Hc k'. apply Hc.
  - simpl. lia.
Qed.

Lemma V2_forEachChild_counts
    (visit : node -> V2.ConversionContext -> counters -> option result * counters)
    (plain inOl : bool) (base : V2.ConversionContext) (l : list node) :
  Forall (fun child => forall c k,
            removedAttributes (snd (visit child c k)) = removedAttributes k) l ->
  forall next k,
    removedAttributes (snd (V2.forEachChild visit plain inOl base l next k))
    = removedAttributes k.
Proof.
  induction 1 as [|child rest Hc _ IH]; intros next k; [reflexivity|].
  cbn [V2.forEachChild].
  match goal with
  | |- context [visit child ?c k] =>
      specialize (Hc c k); destruct (visit child c k) as [processed k1]
  end.
  match goal with
  | |- context [V2.forEachChild visit plain inOl base rest ?n k1] =>
      specialize (IH n k1);
      destruct (V2.forEachChild visit plain inOl base rest n k1) as [[more hasMore] k2]
  end.
  cbn [snd] in *. destruct processed; cbn [snd]; congruence.
Qed.

(** The second walker never touches the attribute counter. *)
Lemma V2_counts_nothing (config : ConversionConfig) (plain : bool) (n : node) :
  forall context k,
    removedAttributes (snd (V2.processNode config plain n context k))
    = removedAttributes k.
Proof.
  induction n as [data | tagName attrs children IH |] using node_induction;
    intros context k.
  - reflexivity.
  - destruct (mem tagName V2.IGNORE_TAGS) eqn:Ig.
    + now rewrite V2_discards.
    + rewrite V2_processNode_element by assumption. cbv zeta. cbn [snd].
      now apply V2_forEachChild_counts.
  - reflexivity.
Qed.

Lemma V2_body_counts_nothing (config : ConversionConfig) (plain : bool)
    (nodes : list node) (k : counters) :
  removedAttributes
    (snd (forEachAppend (fun n => V2.processNode config plain n V2.topContext) nodes k))
  = removedAttributes k.
Proof.
  revert k. induction nodes as [|n nodes IH]; intro k; [reflexivity|].
  simpl. pose proof (V2_counts_nothing config plain n V2.topContext k) as Hn.
  destruct (V2.processNode config plain n V2.topContext k) as [processed k1].
  specialize (IH k1). destruct (forEachAppend _ nodes k1) as [more k2].
  simpl in *. congruence.
Qed.

(** C9 — Discarded-attribute accounting.  The first variant does what the
    claim says: the counter goes up by one for each element the walker
    reaches that has a non-empty style attribute (and no output carries an
    attribute, see C1).  The second variant declares and reports the same
    counter but never steps it: whatever the input, [attributesRemoved] is 0;
    so it is for [<p style="color:red">x</p>], where the first variant
    reports 1. *)
Theorem C9_attribute_count :
  (forall config n context k,
      removedAttributes (snd (V1.processNode config n context k))
      = removedAttributes k + styledElements n)
  /\ (forall parseFromString rawHtml config,
         attributesRemoved (stats (V2.cleanHtml parseFromString rawHtml config)) = 0)
  /\ (let rawHtml := lit "<p style=" ++ [34%N] ++ lit "color:red" ++ [34%N]
                     ++ lit ">x</p>" in
      let first := V1.cleanHtml Sample.sanitize Sample.parseFromString rawHtml
                     (Sample.paragraphs true) in
      let second := V2.cleanHtml Sample.parseFromString rawHtml
                      (Sample.paragraphs true) in
      error first = None /\ html first = lit "<p>x</p>"
      /\ attributesRemoved (stats first) = 1
      /\ error second = None /\ html second = lit "<p>x</p>"
      /\ attributesRemoved (stats second) = 0).
Proof.
  split; [|split].
  - intros config n context k. apply V1_counts_styles.
  - intros parseFromString rawHtml config. unfold V2.cleanHtml, V2.attempt.
    destruct (parseFromString rawHtml) as [doc|]; cbn [bind]; [|reflexivity].
    destruct (hasParserError doc); [reflexivity|].
    pose proof (V2_body_counts_nothing config (V2.treatAsPlainText doc)
                  (body doc) noCounts) as B.
    destruct (forEachAppend _ (body doc) noCounts) as [fragment k].
    exact B.
  - cbv zeta. repeat split.
Qed.

(* ================================================================== *)
(** * List markers of the second variant *)
(* ================================================================== *)

Lemma listItems_cons (child : node) (l : list node) :
  listItems (child :: l)
  = (if V2.isListItemNode child then 1 else 0) + listItems l.
Proof. unfold listItems. simpl. now destruct (V2.isListItemNode child). Qed.

Lemma indexAfter_cons (inOl : bool) (next : Z) (child : node) (l : list node) :
  indexAfter inOl next (child :: l)
  = indexAfter inOl
      (if inOl && V2.isListItemNode child then increment next else next) l.
Proof.
  unfold indexAfter. rewrite listItems_cons.
  destruct inOl; [|reflexivity]. cbn [andb].
  destruct (V2.isListItemNode child); [|reflexivity].
  cbn [Nat.add]. apply Nat.iter_succ_r.
Qed.

Lemma indexAfter_nil (inOl : bool) (next : Z) : indexAfter inOl next [] = next.
Proof. unfold indexAfter, listItems. now destruct inOl. Qed.

(** The loop over the children, seen at one child: the children before it
    are visited, then the child with its own context, then the rest. *)
Lemma V2_forEachChild_at
    (visit : node -> V2.ConversionContext -> counters -> option result * counters)
    (plain inOl : bool) (base : V2.ConversionContext)
    (before : list node) (child : node) (after : list node) :
  forall next k,
    V2.forEachChild visit plain inOl base (before ++ child :: after) next k =
    let '(nodes1, has1, k1) := V2.forEachChild visit plain inOl base before next k in
    let '(processed, k2) :=
      visit child (contextOfChild inOl base (indexAfter inOl next before) child) k1 in
    let '(nodes3, has3, k3) :=
      V2.forEachChild visit plain inOl base after
        (indexAfter inOl next (before ++ [child])) k2 in
    (nodes1 ++ appended processed ++ nodes3,
     has1 || (contentOf plain processed || has3), k3).
Proof.
  induction before as [|b before IH]; intros next k.
  - cbn [app V2.forEachChild]. rewrite indexAfter_nil. unfold contextOfChild.
    destruct (visit child _ k) as [processed k2].
    rewrite indexAfter_cons, indexAfter_nil.
    destruct (V2.forEachChild visit plain inOl base after _ k2) as [[nodes3 has3] k3].
    now destruct processed.
  - cbn [app V2.forEachChild].
    destruct (visit b _ k) as [pb kb]. rewrite IH.
    destruct (V2.forEachChild visit plain inOl base before _ kb) as [[nodes1 has1] k1].
    destruct pb as [rb|]; cbv beta iota;
      rewrite (indexAfter_cons inOl next b before);
      destruct (visit child _ k1) as [processed k2];
      rewrite (indexAfter_cons inOl next b (before ++ [child]));
      destruct (V2.forEachChild visit plain inOl base after _ k2)
        as [[nodes3 has3] k3]; [|reflexivity].
    now rewrite <- app_assoc, orb_assoc.
Qed.

Lemma V2_li_target (context : V2.ConversionContext) :
  V2.targetTagOf context (lit "li") = Some (lit "br").
Proof. unfold V2.targetTagOf. now destruct (V2.insideListListItem context). Qed.

Lemma V2_li_marker (context : V2.ConversionContext) :
  V2.prefixOf context (lit "li") = markerOf context.
Proof. unfold V2.prefixOf. now rewrite (str_eqb_refl (lit "li")). Qed.

Lemma markerOf_nonempty (context : V2.ConversionContext) : markerOf context <> [].
Proof.
  unfold markerOf.
  destruct (V2.parentListType context) as [[|]|]; try discriminate.
  destruct (V2.listIndex context) as [index|]; [|discriminate].
  intro E. apply app_eq_nil in E as [_ E]. discriminate E.
Qed.

Lemma V2_li_prefix (context : V2.ConversionContext) :
  V2.prefixNodes (V2.prefixOf context (lit "li")) = [OText (markerOf context)].
Proof.
  rewrite V2_li_marker. pose proof (markerOf_nonempty context) as N.
  unfold V2.prefixNodes. now destruct (markerOf context).
Qed.

(** C10, as the implicit claim states it, fails: an [li] that lies in an
    ordered list without being a child of the [ol] element gets the bullet,
    not a number. *)
Lemma C10_counterexample :
  let r := V2.cleanHtml Sample.parseFromString (lit "<ol><div><li>x</li></div></ol>")
             (Sample.paragraphs true) in
  error r = None
  /\ html r = lit "<p>" ++ [bullet] ++ lit " x</p>"
  /\ html r <> lit "<p>1. x</p>".
Proof. cbv zeta. repeat split. vm_compute. discriminate. Qed.

(** Number arithmetic on the safe integers and at their end. *)
Lemma toNumber_exact (z : Z) : (Z.abs z <= 2 ^ 53)%Z -> toNumber z = z.
Proof.
  intro H. unfold toNumber. apply Z.leb_le in H. now rewrite H.
Qed.

Lemma increment_safe (n : Z) : safeInteger n -> increment n = (n + 1)%Z.
Proof.
  unfold safeInteger, increment. intro H. apply toNumber_exact.
  change (2 ^ 53)%Z with 9007199254740992%Z in *. lia.
Qed.

Lemma iter_increment_safe (count : nat) (start : Z) :
  safeInteger start -> safeInteger (start + Z.of_nat count) ->
  Nat.iter count increment start = (start + Z.of_nat count)%Z.
Proof.
  intro First. induction count as [|count IH]; intro Last.
  - cbn. lia.
  - rewrite Nat.iter_succ. unfold safeInteger in *.
    change (2 ^ 53)%Z with 9007199254740992%Z in *.
    rewrite IH by lia. rewrite increment_safe; [lia|].
    unfold safeInteger. change (2 ^ 53)%Z with 9007199254740992%Z. lia.
Qed.

Lemma iter_increment_stuck (count : nat) :
  Nat.iter count increment (2 ^ 53)%Z = (2 ^ 53)%Z.
Proof.
  induction count as [|count IH]; [reflexivity|].
  rewrite Nat.iter_succ, IH. now vm_compute.
Qed.

(** C10, amended.  In the second variant the content of every [li] element
    starts with a text marker (inside the wrappers its style calls for, and
    behind the break the element is mapped to).  The marker is [N. ] exactly
    when the [li] is a child of an [ol] element, and the bullet and a space
    otherwise: also for an [li] that lies deeper in an ordered list, since
    the running index is handed to the [li] children of the [ol] only.  [N]
    is the [start] attribute of the [ol] as [parseInt] reads it (1 when
    there is none or it reads as [NaN]), stepped by [++] once for each [li]
    child before this one.  The index is a Number: a step adds one as long as
    the index stays a safe integer, and leaves the index where it is once it
    has reached [2^53]; so a list that starts at 9007199254740991 numbers
    its items 9007199254740991, 9007199254740992, 9007199254740992. *)
Theorem C10_list_markers :
  forall (config : ConversionConfig) (plain : bool),
    (forall attrs children context k,
        let walked :=
          V2.forEachChild (V2.processNode config plain) plain false
            (V2.childBaseContextOf context (lit "li")) children 1%Z k in
        fst (V2.processNode config plain (Element (lit "li") attrs children) context k)
        = Some (RFrag
                  (br :: nodesOf
                           (V2.applyWrappers (lit "li")
                              (attributeOrEmpty (lit "style") attrs) (Some (lit "br"))
                              (OText (markerOf context) :: fst (fst walked))))))
    /\ (forall context index,
           V2.parentListType context = Some V2.ol ->
           V2.listIndex context = Some index ->
           markerOf context = numberToString index ++ lit ". ")
    /\ (forall context,
           V2.parentListType context <> Some V2.ol \/ V2.listIndex context = None ->
           markerOf context = [bullet; 32%N])
    /\ (forall visit tagName attrs before child after context k,
           let inOl := str_eqb tagName (lit "ol") in
           let base := V2.childBaseContextOf context tagName in
           let start := V2.firstListIndex tagName attrs in
           let childContext :=
             if inOl && V2.isListItemNode child
             then {| V2.insideListListItem := V2.insideListListItem base;
                     V2.parentListType := Some V2.ol;
                     V2.listIndex :=
                       Some (Nat.iter (listItems before) increment start) |}
             else base in
           V2.listIndex base = None
           /\ V2.forEachChild visit plain inOl base (before ++ child :: after) start k =
              let '(nodes1, has1, k1) :=
                V2.forEachChild visit plain inOl base before start k in
              let '(processed, k2) := visit child childContext k1 in
              let '(nodes3, has3, k3) :=
                V2.forEachChild visit plain inOl base after
                  (indexAfter inOl start (before ++ [child])) k2 in
              (nodes1 ++ appended processed ++ nodes3,
               has1 || (contentOf plain processed || has3), k3))
    /\ (forall start count,
           safeInteger start -> safeInteger (start + Z.of_nat count) ->
           Nat.iter count increment start = (start + Z.of_nat count)%Z)
    /\ (forall count, Nat.iter count increment (2 ^ 53)%Z = (2 ^ 53)%Z)
    /\ (forall attrs startAttr parsed,
           getAttribute (lit "start") attrs = Some startAttr ->
           parseInt10 startAttr = Some parsed ->
           V2.firstListIndex (lit "ol") attrs = parsed)
    /\ (forall attrs,
           getAttribute (lit "start") attrs = None
           \/ (exists startAttr, getAttribute (lit "start") attrs = Some startAttr
                                 /\ parseInt10 startAttr = None) ->
           V2.firstListIndex (lit "ol") attrs = 1%Z)
    /\ fst (V2.processNode config false
              (Element (lit "ol") [(lit "start", lit "5")]
                 [Sample.element "li" [Sample.text "a"]; Sample.text "x";
                  Sample.element "li" [Sample.text "b"]])
              V2.topContext noCounts)
       = Some (RNode (OElem (lit "p")
                        [br; OText (lit "5. "); OText (lit "a"); OText (lit "x");
                         br; OText (lit "6. "); OText (lit "b")]))
    /\ fst (V2.processNode config false
              (Element (lit "ol") [(lit "start", lit "9007199254740991")]
                 [Sample.element "li" [Sample.text "a"];
                  Sample.element "li" [Sample.text "b"];
                  Sample.element "li" [Sample.text "c"]])
              V2.topContext noCounts)
       = Some (RNode (OElem (lit "p")
                        [br; OText (lit "9007199254740991. "); OText (lit "a");
                         br; OText (lit "9007199254740992. "); OText (lit "b");
                         br; OText (lit "9007199254740992. "); OText (lit "c")])).
Proof.
  intros config plain. repeat apply conj.
  - intros attrs children context k walked.
    rewrite V2_processNode_element by reflexivity. cbv zeta. cbn [fst].
    rewrite V2_buildElement_br by (now rewrite V2_li_target).
    now rewrite V2_li_prefix.
  - intros context index Ho Hi. unfold markerOf. now rewrite Ho, Hi.
  - intros context [Ho | Hi]; unfold markerOf.
    + destruct (V2.parentListType context) as [[|]|]; try reflexivity.
      now contradiction Ho.
    + rewrite Hi. now destruct (V2.parentListType context) as [[|]|].
  - intros visit tagName attrs before child after context k inOl base start childContext.
    split; [reflexivity|].
    rewrite V2_forEachChild_at.
    assert (E : contextOfChild inOl base (indexAfter inOl start before) child
                = childContext).
    { unfold contextOfChild, childContext, indexAfter.
      destruct inOl eqn:O; [|reflexivity]. cbn [andb].
      destruct (V2.isListItemNode child); [|reflexivity].
      f_equal. unfold base, V2.childBaseContextOf. cbn [V2.parentListType].
      fold inOl. rewrite O.
      destruct (str_eqb tagName (lit "ul")) eqn:U; [|reflexivity].
      apply str_eqb_eq in U. subst tagName. discriminate O. }
    now rewrite E.
  - intros start count. apply iter_increment_safe.
  - apply iter_increment_stuck.
  - intros attrs startAttr parsed Hs Hp. unfold V2.firstListIndex.
    rewrite (str_eqb_refl (lit "ol")), Hs.
    destruct startAttr as [|c startAttr]; [discriminate Hp|]. now rewrite Hp.
  - intros attrs [Hs | (startAttr & Hs & Hp)]; unfold V2.firstListIndex;
      rewrite (str_eqb_refl (lit "ol")), Hs; [reflexivity|].
    destruct startAttr; [reflexivity|]. now rewrite Hp.
  - destruct config as [m u c a w]. destruct w; now vm_compute.
  - destruct config as [m u c a w]. destruct w; now vm_compute.
Qed.

Lemma C10_list_markers_witness :
  (V2.parentListType {| V2.insideListListItem := false;
                        V2.parentListType := Some V2.ol;
                        V2.listIndex := Some 12%Z |} = Some V2.ol
   /\ parseInt10 (lit " 7th") = Some 7%Z
   /\ safeInteger 7 /\ safeInteger (7 + Z.of_nat 3))
  /\ markerOf {| V2.insideListListItem := false;
                 V2.parentListType := Some V2.ol;
                 V2.listIndex := Some 12%Z |} = lit "12. "
  /\ markerOf {| V2.insideListListItem := false;
                 V2.parentListType := Some V2.ol;
                 V2.listIndex := None |} = [bullet; 32%N]
  /\ Nat.iter 3 increment 7%Z = (7 + Z.of_nat 3)%Z
  /\ V2.firstListIndex (lit "ol") [(lit "start", lit " 7th")] = 7%Z
  /\ V2.firstListIndex (lit "ol") [(lit "start", lit "seven")] = 1%Z.
Proof.
  pose proof (C10_list_markers (Sample.paragraphs true) false)
    as (_ & Numbered & Bullet & _ & Steps & _ & Start & NoStart & _).
  split; [split; [reflexivity | split; [reflexivity | split; reflexivity]]|].
  split; [|split; [|split; [|split]]].
  - exact (Numbered {| V2.insideListListItem := false;
                       V2.parentListType := Some V2.ol;
                       V2.listIndex := Some 12%Z |} 12%Z eq_refl eq_refl).
  - exact (Bullet {| V2.insideListListItem := false;
                     V2.parentListType := Some V2.ol;
                     V2.listIndex := None |} (or_intror eq_refl)).
  - exact (Steps 7%Z 3 eq_refl eq_refl).
  - exact (Start [(lit "start", lit " 7th")] (lit " 7th") 7%Z eq_refl eq_refl).
  - apply NoStart. right. exists (lit "seven"). split; reflexivity.
Defined.

(* ================================================================== *)
(** * The style classifier *)
(* ================================================================== *)

(** What [matchPieces] matches is in the language of the pattern. *)
Lemma matchPieces_sound (ps : pattern) :
  forall s k, matchPieces ps s = Some k -> Lang ps (firstn k s).
Proof.
  induction ps as [|p ps IH]; intros s k H.
  - injection H as <-. reflexivity.
  - destruct p as [c | c | | | c]; cbn [matchPieces] in H; cbn [Lang].
    + destruct s as [|x s]; [discriminate|].
      destruct (char_eqb c x) eqn:E; [|discriminate].
      destruct (matchPieces ps s) as [k'|] eqn:M; [|discriminate].
      injection H as <-. unfold char_eqb in E. apply N.eqb_eq in E. subst x.
      exists (firstn k' s). split; [reflexivity | now apply IH].
    + destruct s as [|x s]; [discriminate|].
      destruct (char_eqbi c x) eqn:E; [|discriminate].
      destruct (matchPieces ps s) as [k'|] eqn:M; [|discriminate].
      injection H as <-.
      exists x, (firstn k' s). repeat split; [assumption | now apply IH].
    + destruct (matchPieces ps (skipn (spanLength isSpace s) s)) as [k'|] eqn:M;
        [|discriminate].
      injection H as <-.
      exists (firstn (spanLength isSpace s) s),
             (firstn k' (skipn (spanLength isSpace s) s)).
      repeat split; [apply firstn_add | apply span_firstn | now apply IH].
    + destruct (spanLength isDigit s) as [|n] eqn:D; [discriminate|].
      destruct (matchPieces ps (skipn (S n) s)) as [k'|] eqn:M; [|discriminate].
      injection H as <-.
      exists (firstn (S n) s), (firstn k' (skipn (S n) s)).
      repeat split.
      * apply (firstn_add (S n) k' s).
      * destruct s; [discriminate D | discriminate].
      * rewrite <- D. apply span_firstn.
      * now apply IH.
    + destruct s as [|x s]; [left; now apply IH|].
      destruct (char_eqb c x) eqn:E.
      * destruct (matchPieces ps s) as [k'|] eqn:M; [|discriminate].
        injection H as <-. unfold char_eqb in E. apply N.eqb_eq in E. subst x.
        right. exists (firstn k' s). split; [reflexivity | now apply IH].
      * left. now apply IH.
Qed.

Lemma char_eqbi_space (c x : char) :
  char_eqbi c x = true -> isSpace c = false -> isSpace x = false.
Proof.
  intros E Hc. destruct (isSpace x) eqn:Hx; [|reflexivity]. exfalso.
  assert (Ux : isUpper x = false).
  { unfold isSpace in Hx. unfold isUpper.
    destruct (N.leb_spec 65 x); [|reflexivity].
    destruct (N.leb_spec x 90); [|reflexivity]. exfalso. revert Hx.
    repeat match goal with
           | |- context [(?a =? ?b)%N] => destruct (N.eqb_spec a b); [lia|]
           | |- context [(?a <=? ?b)%N] => destruct (N.leb_spec a b); try lia
           end; simpl; discriminate. }
  unfold char_eqbi, char_eqb, toLowerAscii in E. rewrite Ux in E.
  destruct (isUpper c) eqn:Uc.
  - apply N.eqb_eq in E. subst x. unfold isUpper in Uc.
    apply andb_true_iff in Uc as [U1 U2]. apply N.leb_le in U1, U2.
    revert Hx. unfold isSpace.
    repeat match goal with
           | |- context [(?a =? ?b)%N] => destruct (N.eqb_spec a b); [lia|]
           | |- context [(?a <=? ?b)%N] => destruct (N.leb_spec a b); try lia
           end; simpl; discriminate.
  - apply N.eqb_eq in E. subst x. congruence.
Qed.

Lemma spanLength_app_stop (p : char -> bool) (ws rest : jsstring) :
  forallb p ws = true ->
  match rest with [] => True | x :: _ => p x = false end ->
  spanLength p (ws ++ rest) = List.length ws.
Proof.
  intros Hw Hr. induction ws as [|c ws IH]; simpl.
  - destruct rest as [|x rest]; [reflexivity|]. simpl. now rewrite Hr.
  - simpl in Hw. apply andb_true_iff in Hw as [Hc Hw]. rewrite Hc. f_equal. now apply IH.
Qed.

(** For space-guarded patterns, every text of the language is matched. *)
Lemma matchPieces_complete (ps : pattern) :
  spaceGuarded ps = true ->
  forall m after, Lang ps m -> matchPieces ps (m ++ after) = Some (List.length m).
Proof.
  induction ps as [|p ps IH]; intros G m after L.
  - cbn in L. now subst.
  - destruct p as [c | c | | | c]; try discriminate G; cbn [Lang] in L.
    + destruct L as (m' & -> & L). cbn [matchPieces app].
      unfold char_eqb. rewrite N.eqb_refl. now rewrite (IH G _ _ L).
    + destruct L as (x & m' & -> & E & L). cbn [matchPieces app].
      rewrite E. now rewrite (IH G _ _ L).
    + destruct L as (ws & m' & -> & Hws & L). cbn [matchPieces].
      assert (G' : spaceGuarded ps = true /\
                   match m' ++ after with [] => True | x :: _ => isSpace x = false end).
      { cbn [spaceGuarded] in G.
        destruct ps as [|[c | c | | | c] ps']; try discriminate G;
          apply andb_true_iff in G as [Gc G]; apply negb_true_iff in Gc;
          (split; [exact G|]); cbn [Lang] in L.
        - destruct L as (m'' & -> & _). exact Gc.
        - destruct L as (x & m'' & -> & E & _). cbn [app].
          now apply (char_eqbi_space c x). }
      destruct G' as [G1 G2].
      rewrite <- app_assoc, (spanLength_app_stop isSpace ws (m' ++ after) Hws G2).
      rewrite skipn_app, skipn_all, Nat.sub_diag. cbn [skipn app].
      rewrite (IH G1 _ _ L). cbn [option_map]. now rewrite length_app.
Qed.

Lemma test_true (ps : pattern) (s : jsstring) :
  test ps s = true <->
  exists before rest k, s = before ++ rest /\ matchPieces ps rest = Some k.
Proof.
  split.
  - induction s as [|c s IH]; cbn [test].
    + destruct (matchPieces ps []) as [k|] eqn:M; [|discriminate].
      intros _. now exists [], [], k.
    + destruct (matchPieces ps (c :: s)) as [k|] eqn:M.
      * intros _. now exists [], (c :: s), k.
      * intro H. destruct (IH H) as (before & rest & k & -> & Mr).
        now exists (c :: before), rest, k.
  - intros (before & rest & k & -> & M).
    induction before as [|c before IH].
    + destruct rest; cbn [app test]; now rewrite M.
    + cbn [app test]. now destruct (matchPieces ps (c :: before ++ rest)).
Qed.

(** For space-guarded patterns, [test] decides whether the pattern occurs. *)
Lemma test_occursIn (ps : pattern) (s : jsstring) :
  spaceGuarded ps = true -> (test ps s = true <-> occursIn ps s).
Proof.
  intro G. rewrite test_true. split.
  - intros (before & rest & k & -> & M).
    exists before, (firstn k rest), (skipn k rest).
    rewrite firstn_skipn. split; [reflexivity | now apply matchPieces_sound].
  - intros (before & m & after & -> & L).
    exists before, (m ++ after), (List.length m).
    split; [reflexivity | now apply matchPieces_complete].
Qed.

Lemma Lang_nocase_self (w : jsstring) : Lang (map PCharI w) w.
Proof.
  induction w as [|c w IH]; [reflexivity|]. cbn [map Lang].
  exists c, w. repeat split; [|exact IH].
  unfold char_eqbi, char_eqb. apply N.eqb_refl.
Qed.

(** C6, as the specification states it, fails for the underline: a
    text-decoration whose value contains [underline] behind another word is
    not classified as underlined. *)
Lemma C6_counterexample :
  declaresUnderlineWithin (lit "text-decoration: overline underline")
  /\ V1.isUnderlineStyle (lit "text-decoration: overline underline") = false
  /\ V2.isUnderlineStyle (lit "text-decoration: overline underline") = false.
Proof.
  split; [|split; reflexivity].
  exists [], (lit "text-decoration"), [], (lit " overline "), (lit "underline"), [].
  repeat split;
    first [ apply (Lang_nocase_self (lit "text-decoration"))
          | apply (Lang_nocase_self (lit "underline")) ].
Qed.

(** C6, amended.  For every style string (both variants, which share the
    three patterns): [isBoldStyle] holds exactly when the string holds,
    somewhere, [font-weight], white space, a colon, white space and one of
    [bold], [700], [800], [900]; [isItalicStyle] exactly when it holds
    [font-style], white space, a colon, white space, [italic];
    [isUnderlineStyle] exactly when it holds [text-decoration], white space,
    a colon, white space, [underline] — the value has to begin with
    [underline], not merely contain it.  Letters match in either case, the
    white space may be empty.  The classifiers are total, and on the empty
    string all three are false. *)
Theorem C6_style_classifier :
  forall style : jsstring,
    (V1.isBoldStyle style = true <-> declaresBold style)
    /\ (V1.isItalicStyle style = true <-> declaresItalic style)
    /\ (V1.isUnderlineStyle style = true <-> declaresUnderlineFirst style)
    /\ V2.isBoldStyle style = V1.isBoldStyle style
    /\ V2.isItalicStyle style = V1.isItalicStyle style
    /\ V2.isUnderlineStyle style = V1.isUnderlineStyle style
    /\ (V1.isBoldStyle [] = false /\ V1.isItalicStyle [] = false
        /\ V1.isUnderlineStyle [] = false).
Proof.
  intro style. repeat apply conj; try reflexivity.
  - unfold V1.isBoldStyle, declaresBold. cbv zeta. rewrite !orb_true_iff.
    change (test ((nocase "font-weight" ++ [PSpaces; V1.colon; PSpaces]) ++ nocase "bold") style)
      with (test (declaration "font-weight" "bold") style).
    change (test ((nocase "font-weight" ++ [PSpaces; V1.colon; PSpaces]) ++ nocase "700") style)
      with (test (declaration "font-weight" "700") style).
    change (test ((nocase "font-weight" ++ [PSpaces; V1.colon; PSpaces]) ++ nocase "800") style)
      with (test (declaration "font-weight" "800") style).
    change (test ((nocase "font-weight" ++ [PSpaces; V1.colon; PSpaces]) ++ nocase "900") style)
      with (test (declaration "font-weight" "900") style).
    rewrite !test_occursIn by reflexivity.
    intros [[[H | H] | H] | H];
      [exists "bold"%string | exists "700"%string
       | exists "800"%string | exists "900"%string];
      (split; [simpl; tauto | exact H]).
  - unfold V1.isBoldStyle, declaresBold. cbv zeta. rewrite !orb_true_iff.
    intros (value & Hin & H). simpl in Hin.
    destruct Hin as [<- | [<- | [<- | [<- | []]]]];
      match type of H with
      | occursIn ?ps _ => apply (proj2 (test_occursIn ps style eq_refl)) in H
      end;
      [left; left; left | left; left; right | left; right | right]; exact H.
  - unfold V1.isItalicStyle, declaresItalic. intro H.
    now apply (test_occursIn (declaration "font-style" "italic") style eq_refl).
  - unfold V1.isItalicStyle, declaresItalic. intro H.
    now apply (test_occursIn (declaration "font-style" "italic") style eq_refl).
  - unfold V1.isUnderlineStyle, declaresUnderlineFirst. intro H.
    now apply (test_occursIn (declaration "text-decoration" "underline") style eq_refl).
  - unfold V1.isUnderlineStyle, declaresUnderlineFirst. intro H.
    now apply (test_occursIn (declaration "text-decoration" "underline") style eq_refl).
Qed.

Lemma C6_style_classifier_witness :
  V1.isBoldStyle (lit "Font-Weight : 700; color: red") = true
  /\ declaresBold (lit "Font-Weight : 700; color: red").
Proof.
  split; [reflexivity|].
  apply (proj1 (proj1 (C6_style_classifier (lit "Font-Weight : 700; color: red")))).
  reflexivity.
Defined.

(* ================================================================== *)
(** * Running the engine on its own output *)
(* ================================================================== *)

(** ** Text normalisation is idempotent *)

Lemma collapseRuns_clean (p : char -> bool) (s : jsstring) :
  forallb (fun c => negb (p c)) s = true -> forall b, collapseRuns p b s = s.
Proof.
  induction s as [|c s IH]; intros H b; [reflexivity|].
  simpl in H. apply andb_true_iff in H as [Hc Hs]. apply negb_true_iff in Hc.
  simpl. rewrite Hc. now rewrite IH.
Qed.

Lemma collapseRuns_free (p q : char -> bool) (s : jsstring) :
  (forall c, q c = true -> p c = true) -> q 32%N = false ->
  forall b, forallb (fun c => negb (q c)) (collapseRuns p b s) = true.
Proof.
  intros QP Q32. induction s as [|c s IH]; intro b; [reflexivity|].
  simpl. destruct (p c) eqn:Pc.
  - destruct b; [apply IH|]. simpl. now rewrite Q32, IH.
  - simpl. rewrite IH, andb_true_r. apply negb_true_iff.
    destruct (q c) eqn:Qc; [|reflexivity]. apply QP in Qc. congruence.
Qed.

Lemma collapseRuns_again (p : char -> bool) (s : jsstring) :
  p 32%N = true ->
  collapseRuns p false (collapseRuns p false s) = collapseRuns p false s
  /\ collapseRuns p false (collapseRuns p true s) = collapseRuns p true s
  /\ collapseRuns p true (collapseRuns p true s) = collapseRuns p true s.
Proof.
  intro P32. induction s as [|c s (IH1 & IH2 & IH3)]; [now repeat split|].
  simpl. destruct (p c) eqn:Pc.
  - split; [|split]; [simpl; rewrite P32; now rewrite IH3 | exact IH2 | exact IH3].
  - simpl. rewrite Pc. split; [|split]; now rewrite IH1.
Qed.

Lemma isNewline_isSpace (c : char) : isNewline c = true -> isSpace c = true.
Proof.
  unfold isNewline. intro H. apply orb_true_iff in H as [H | H];
    apply N.eqb_eq in H; now subst.
Qed.

Lemma V1_processText_settled (config : ConversionConfig) (data : jsstring) (inside : bool) :
  forallb (settled config inside) (appended (V1.processText config data)) = true.
Proof.
  unfold V1.processText.
  set (t := if aggressiveWhitespace config
            then collapseRuns isSpace false (collapseRuns isNewline false data)
            else collapseRuns isNewline false data).
  assert (Fix : (if aggressiveWhitespace config
                 then collapseRuns isSpace false (collapseRuns isNewline false t)
                 else collapseRuns isNewline false t) = t).
  { unfold t. destruct (aggressiveWhitespace config).
    - rewrite (collapseRuns_clean isNewline).
      + apply (collapseRuns_again isSpace _ eq_refl).
      + apply (collapseRuns_free isSpace isNewline); auto using isNewline_isSpace.
    - apply collapseRuns_clean.
      apply (collapseRuns_free isNewline isNewline); auto. }
  destruct t as [|c t'] eqn:Et; [reflexivity|].
  cbn [appended nodesOf forallb settled]. unfold V1.processText. rewrite Fix.
  now rewrite str_eqb_refl.
Qed.

(** ** What the first walker returns is settled *)

Lemma assoc_In {A : Type} (key : jsstring) (table : list (jsstring * A)) (v : A) :
  assoc key table = Some v -> In (key, v) table.
Proof.
  induction table as [|[k' v'] table IH]; [discriminate|]. simpl.
  destruct (str_eqb k' key) eqn:E.
  - apply str_eqb_eq in E. subst. intros [= ->]. now left.
  - intro H. right. now apply IH.
Qed.

Lemma V1_lookup_li (tagName : jsstring) :
  V1.lookupTag tagName = Some (lit "li") -> tagName = lit "li".
Proof.
  intro H. apply assoc_In in H. simpl in H.
  repeat (destruct H as [H | H]; [try discriminate H; now injection H|]).
  contradiction.
Qed.

Lemma settled_wrap (config : ConversionConfig) (inside : bool) (content : result)
    (tag : string) :
  In tag ["sub"; "sup"; "u"; "i"; "b"; "ul"; "ol"]%string ->
  nodesOf content <> [] ->
  forallb (settled config inside) (nodesOf content) = true ->
  nodesOf (wrap content tag) <> []
  /\ forallb (settled config inside) (nodesOf (wrap content tag)) = true.
Proof.
  intros T Ne H. split; [discriminate|].
  cbn [wrap nodesOf forallb settled]. rewrite andb_true_r.
  assert (Has : hasChildNodes (nodesOf content) = true)
    by (destruct (nodesOf content); [contradiction | reflexivity]).
  simpl in T.
  repeat (destruct T as [<- | T]; [cbn; now rewrite Has, H|]). contradiction.
Qed.

Lemma V1_applyWrappers_settled (config : ConversionConfig) (inside : bool)
    (tagName styleAttr : jsstring) (targetTag : option jsstring)
    (fragment : list onode) :
  fragment <> [] ->
  forallb (settled config inside) fragment = true ->
  nodesOf (V1.applyWrappers tagName styleAttr targetTag fragment) <> []
  /\ forallb (settled config inside)
       (nodesOf (V1.applyWrappers tagName styleAttr targetTag fragment)) = true.
Proof.
  intros Ne H. unfold V1.applyWrappers.
  assert (Start : nodesOf (RFrag fragment) <> []
                  /\ forallb (settled config inside) (nodesOf (RFrag fragment)) = true)
    by now split.
  revert Start. generalize (RFrag fragment). intros r0 I0.
  assert (Step : forall (b : bool) (r : result) (tag : string),
             In tag ["sub"; "sup"; "u"; "i"; "b"; "ul"; "ol"]%string ->
             (nodesOf r <> [] /\ forallb (settled config inside) (nodesOf r) = true) ->
             nodesOf (if b then wrap r tag else r) <> []
             /\ forallb (settled config inside)
                  (nodesOf (if b then wrap r tag else r)) = true).
  { intros b r tag T [I1 I2]. destruct b; [now apply settled_wrap | now split]. }
  repeat (apply Step; [simpl; tauto|]). exact I0.
Qed.

Lemma V1_buildElement_settled (config : ConversionConfig)
    (context : V1.ConversionContext) (tagName styleAttr : jsstring)
    (fragment : list onode) :
  forallb (settled config (str_eqb tagName (lit "li") || V1.insideListListItem context))
          fragment = true ->
  forallb (settled config (V1.insideListListItem context))
          (appended (V1.buildElement context tagName styleAttr fragment)) = true.
Proof.
  intro H. unfold V1.buildElement.
  destruct fragment as [|c cs] eqn:Ef.
  - cbn [hasChildNodes negb andb].
    destruct (V1.targetIs (V1.lookupTag tagName) "br") eqn:B; [|reflexivity].
    apply targetIs_V1 in B. rewrite B. reflexivity.
  - rewrite <- Ef in *. assert (Ne : fragment <> []) by (subst; discriminate).
    replace (hasChildNodes fragment) with true by (now subst).
    cbn [negb andb].
    destruct (str_eqb tagName (lit "li")) eqn:Li.
    + apply str_eqb_eq in Li. subst tagName. cbn [orb] in H.
      destruct (V1_applyWrappers_settled config true (lit "li") styleAttr
                  (V1.lookupTag (lit "li")) fragment Ne H) as [W1 W2].
      change (V1.targetIs (V1.lookupTag (lit "li")) "p") with false.
      change (V1.targetIs (V1.lookupTag (lit "li")) "br") with false.
      change (V1.targetIs (V1.lookupTag (lit "li")) "ul") with false.
      change (V1.targetIs (V1.lookupTag (lit "li")) "ol") with false.
      change (V1.targetIs (V1.lookupTag (lit "li")) "li") with true.
      cbv iota. cbn [appended wrap nodesOf forallb settled].
      change (str_eqb (lit "li") (lit "br")) with false.
      change (str_eqb (lit "li") (lit "li")) with true.
      change (mem (lit "li") WRAPPER_TAGS) with true.
      cbn [orb andb]. rewrite W2.
      destruct (nodesOf (V1.applyWrappers (lit "li") styleAttr
                           (V1.lookupTag (lit "li")) fragment));
        [contradiction | reflexivity].
    + cbn [orb] in H.
      destruct (V1_applyWrappers_settled config (V1.insideListListItem context)
                  tagName styleAttr (V1.lookupTag tagName) fragment Ne H) as [W1 W2].
      set (result := V1.applyWrappers tagName styleAttr (V1.lookupTag tagName) fragment)
        in *.
      assert (Has : hasChildNodes (nodesOf result) = true)
        by (destruct (nodesOf result); [contradiction | reflexivity]).
      destruct (V1.targetIs (V1.lookupTag tagName) "p").
      { destruct (V1.insideListListItem context) eqn:In; [exact W2|].
        cbn. now rewrite Has, W2. }
      destruct (V1.targetIs (V1.lookupTag tagName) "br"); [reflexivity|].
      destruct (V1.targetIs (V1.lookupTag tagName) "ul").
      { cbn. now rewrite Has, W2. }
      destruct (V1.targetIs (V1.lookupTag tagName) "ol").
      { cbn. now rewrite Has, W2. }
      destruct (V1.targetIs (V1.lookupTag tagName) "li") eqn:T; [|exact W2].
      apply targetIs_V1, V1_lookup_li in T. subst tagName. discriminate Li.
Qed.

Lemma V1_processNode_settled (config : ConversionConfig) (n : node) :
  forall context k,
    forallb (settled config (V1.insideListListItem context))
            (appended (fst (V1.processNode config n context k))) = true.
Proof.
  induction n as [data | tagName attrs children IH |] using node_induction;
    intros context k.
  - apply V1_processText_settled.
  - destruct (mem tagName V1.IGNORE_TAGS) eqn:Ig.
    + now rewrite V1_discards.
    + rewrite V1_processNode_element by assumption. cbv zeta. cbn [fst].
      apply V1_buildElement_settled.
      apply (forEachAppend_all
               (settled config (str_eqb tagName (lit "li")
                                || V1.insideListListItem context))).
      revert IH. apply Forall_impl. intros child Hc k'.
      apply (Hc (V1.childContextOf context tagName)).
  - reflexivity.
Qed.

(** ** Settled trees come back unchanged *)

Lemma forEachAppend_readBack
    (f : node -> counters -> option result * counters) (children : list onode) :
  Forall (fun c => forall k, f (readBack c) k = (Some (RNode c), k)) children ->
  forall k, forEachAppend f (map readBack children) k = (children, k).
Proof.
  induction 1 as [|c cs Hc _ IH]; intro k; [reflexivity|].
  cbn [map forEachAppend]. rewrite Hc, IH. reflexivity.
Qed.

Lemma V1_reprocess (config : ConversionConfig) (n : onode) :
  forall inside k,
    settled config inside n = true ->
    V1.processNode config (readBack n) {| V1.insideListListItem := inside |} k
    = (Some (RNode n), k).
Proof.
  induction n as [data | tag children IH] using onode_induction; intros inside k S.
  - cbn [settled] in S. cbn [readBack V1.processNode].
    destruct (V1.processText config data) as [[[data'|]|]|]; try discriminate.
    apply str_eqb_eq in S. now subst.
  - cbn [settled] in S. cbn [readBack].
    destruct (str_eqb tag (lit "br")) eqn:Br.
    + apply str_eqb_eq in Br. subst tag. destruct children; [reflexivity | discriminate].
    + apply andb_true_iff in S as [S Kids]. apply andb_true_iff in S as [Tag Has].
      assert (Walk : forall k',
        forEachAppend (fun child => V1.processNode config child
                         {| V1.insideListListItem := str_eqb tag (lit "li") || inside |})
          (map readBack children) k' = (children, k')).
      { apply forEachAppend_readBack. rewrite forallb_forall in Kids.
        rewrite Forall_forall in IH |- *. intros c Hc k'.
        apply IH; [assumption | now apply Kids]. }
      destruct children as [|c cs]; [discriminate Has|].
      apply orb_true_iff in Tag as [Tag | Tag].
      * apply mem_In in Tag. simpl in Tag.
        repeat (destruct Tag as [<- | Tag];
                [rewrite V1_processNode_element by reflexivity;
                 cbv zeta; unfold V1.childContextOf;
                 cbn [V1.insideListListItem attributeOrEmpty getAttribute assoc
                      V1.countStyle];
                 rewrite Walk; destruct inside; reflexivity|]).
        contradiction.
      * apply andb_true_iff in Tag as [In P]. apply negb_true_iff in In.
        apply str_eqb_eq in P. subst tag inside.
        rewrite V1_processNode_element by reflexivity.
        cbv zeta. unfold V1.childContextOf.
        cbn [V1.insideListListItem attributeOrEmpty getAttribute assoc V1.countStyle].
        rewrite Walk. reflexivity.
Qed.

(** C2, as the specification states it, fails: the output for [<br> a] is
    [ a] (the break is dropped after trimming), and the output for [ a] is
    [a].  So it is in both variants. *)
Lemma C2_counterexample :
  let config := Sample.paragraphs true in
  let first := V1.cleanHtml Sample.sanitize Sample.parseFromString (lit "<br> a")
                 config in
  let again := V1.cleanHtml Sample.sanitize Sample.parseFromString (html first)
                 config in
  let second := V2.cleanHtml Sample.parseFromString (lit "<br> a") config in
  let again2 := V2.cleanHtml Sample.parseFromString (html second) config in
  (error first = None /\ html first = lit " a"
   /\ error again = None /\ html again = lit "a" /\ html again <> html first)
  /\ (error second = None /\ html second = lit " a"
      /\ error again2 = None /\ html again2 = lit "a" /\ html again2 <> html second).
Proof. cbv zeta. split; repeat split; vm_compute; discriminate. Qed.

(** C2, amended.  What is idempotent is the tree rewriter of the first
    variant: for every body and configuration, walking the fragment it has
    built (read back as elements without attributes and text nodes) builds
    the same fragment again, node for node, and counts nothing.  The whole
    of [cleanHtml] is not idempotent: the clean-up of empty elements, the
    trimming and the parser's reading of the serialised output can each
    change a second run. *)
Theorem C2_rewriter_idempotent :
  forall (config : ConversionConfig) (nodes : list node) (k : counters),
    let fragment :=
      fst (forEachAppend (fun n => V1.processNode config n V1.topContext) nodes k) in
    forEachAppend (fun n => V1.processNode config n V1.topContext)
                  (map readBack fragment) noCounts
    = (fragment, noCounts).
Proof.
  intros config nodes k fragment.
  apply forEachAppend_readBack. apply Forall_forall. intros c Hc k'.
  apply (V1_reprocess config c false k').
  assert (All : forallb (settled config false) fragment = true).
  { apply (forEachAppend_all (settled config false)).
    apply Forall_forall. intros n _ k''.
    apply (V1_processNode_settled config n V1.topContext). }
  rewrite forallb_forall in All. now apply All.
Qed.

(* ================================================================== *)
(** * Further properties of the engine *)
(* ================================================================== *)

(** ** No break at either end of the output *)

Lemma startsWith_four (w : jsstring) (c1 c2 c3 c4 : char) (rest : jsstring) :
  List.length w = 4 ->
  startsWith w (c1 :: c2 :: c3 :: c4 :: rest) = str_eqb [c1; c2; c3; c4] w.
Proof.
  destruct w as [|w1 [|w2 [|w3 [|w4 [|]]]]]; try discriminate. intros _.
  cbn. unfold char_eqb.
  rewrite (N.eqb_sym w1), (N.eqb_sym w2), (N.eqb_sym w3), (N.eqb_sym w4).
  now rewrite !andb_true_r.
Qed.

Lemma stripLeadingBr_done (s : jsstring) :
  startsWith (lit "<br>") (stripLeadingBr s) = false.
Proof.
  assert (G : forall n s, List.length s <= n ->
                          startsWith (lit "<br>") (stripLeadingBr s) = false).
  { clear s. induction n as [|n IH]; intros s L.
    - destruct s; [reflexivity | simpl in L; lia].
    - destruct s as [|c1 [|c2 [|c3 [|c4 rest]]]];
        try (cbn [stripLeadingBr]; cbn; now rewrite ?andb_false_r).
      cbn [stripLeadingBr].
      destruct (str_eqb [c1; c2; c3; c4] (lit "<br>")) eqn:E.
      + apply IH. simpl in L. lia.
      + now rewrite startsWith_four. }
  now apply (G (List.length s)).
Qed.

Lemma stripLeadingRb_done (s : jsstring) :
  startsWith (lit ">rb<") (stripLeadingRb s) = false.
Proof.
  assert (G : forall n s, List.length s <= n ->
                          startsWith (lit ">rb<") (stripLeadingRb s) = false).
  { clear s. induction n as [|n IH]; intros s L.
    - destruct s; [reflexivity | simpl in L; lia].
    - destruct s as [|c1 [|c2 [|c3 [|c4 rest]]]];
        try (cbn [stripLeadingRb]; cbn; now rewrite ?andb_false_r).
      cbn [stripLeadingRb].
      destruct (str_eqb [c1; c2; c3; c4] (lit ">rb<")) eqn:E.
      + apply IH. simpl in L. lia.
      + now rewrite startsWith_four. }
  now apply (G (List.length s)).
Qed.

Lemma startsWith_prefix (w p x : jsstring) :
  startsWith w p = true -> startsWith w (p ++ x) = true.
Proof.
  revert p; induction w as [|c w IH]; intros p H; [reflexivity|].
  destruct p as [|d p]; [discriminate|]. simpl in *.
  apply andb_true_iff in H as [H1 H2]. now rewrite H1, IH.
Qed.

Lemma stripTrailingBr_prefix (s : jsstring) :
  exists x, s = stripTrailingBr s ++ x.
Proof.
  unfold stripTrailingBr. destruct (stripLeadingRb_split (rev s)) as (n & E).
  exists (rev (List.concat (repeat (lit ">rb<") n))).
  rewrite <- rev_app_distr, <- E. now rewrite rev_involutive.
Qed.

Lemma no_boundary_break (s : jsstring) :
  startsWith (lit "<br>") (stripTrailingBr (stripLeadingBr s)) = false
  /\ endsWith (lit "<br>") (stripTrailingBr (stripLeadingBr s)) = false.
Proof.
  split.
  - destruct (startsWith (lit "<br>") (stripTrailingBr (stripLeadingBr s))) eqn:E;
      [|reflexivity].
    destruct (stripTrailingBr_prefix (stripLeadingBr s)) as (x & P).
    apply (startsWith_prefix _ _ x) in E. rewrite <- P in E.
    now rewrite stripLeadingBr_done in E.
  - unfold endsWith, stripTrailingBr. rewrite rev_involutive.
    apply stripLeadingRb_done.
Qed.

(** X1 — The [html] that [cleanHtml] returns neither starts nor ends with
    [<br>], in either variant, for every input and configuration.  (It may
    still start with white space: the string is trimmed before the breaks
    are stripped.) *)
Theorem output_has_no_boundary_break :
  forall (sanitize : jsstring -> outcome jsstring)
         (parseFromString : jsstring -> outcome Document)
         (rawHtml : jsstring) (config : ConversionConfig),
    let first := html (V1.cleanHtml sanitize parseFromString rawHtml config) in
    let second := html (V2.cleanHtml parseFromString rawHtml config) in
    startsWith (lit "<br>") first = false /\ endsWith (lit "<br>") first = false
    /\ startsWith (lit "<br>") second = false /\ endsWith (lit "<br>") second = false.
Proof.
  intros sanitize parseFromString rawHtml config first second.
  assert (First : startsWith (lit "<br>") first = false
                  /\ endsWith (lit "<br>") first = false).
  { subst first. unfold V1.cleanHtml, V1.attempt.
    destruct (sanitize rawHtml) as [c|]; cbn [bind]; [|now split].
    destruct (parseFromString c) as [doc|]; cbn [bind]; [|now split].
    destruct (hasParserError doc); [now split|].
    destruct (forEachAppend _ (body doc) noCounts) as [fragment k].
    cbn [html]. unfold V1.finish. apply no_boundary_break. }
  assert (Second : startsWith (lit "<br>") second = false
                   /\ endsWith (lit "<br>") second = false).
  { subst second. unfold V2.cleanHtml, V2.attempt.
    destruct (parseFromString rawHtml) as [doc|]; cbn [bind]; [|now split].
    destruct (hasParserError doc); [now split|].
    destruct (forEachAppend _ (body doc) noCounts) as [fragment k].
    cbn [html]. unfold V2.cleanup. apply no_boundary_break. }
  tauto.
Qed.

(** ** The statistics of a success *)

Lemma forEachAppend_tags
    (f : node -> counters -> option result * counters) (l : list node) :
  Forall (fun child => forall k,
            removedTags (snd (f child k)) = removedTags k + discardedElements child) l ->
  forall k, removedTags (snd (forEachAppend f l k))
            = removedTags k + list_sum (map discardedElements l).
Proof.
  induction 1 as [|child rest Hc _ IH]; intro k; simpl; [lia|].
  specialize (Hc k). destruct (f child k) as [processed k1].
  specialize (IH k1). destruct (forEachAppend f rest k1) as [more k2].
  simpl in *. lia.
Qed.

Lemma V1_counts_tags (config : ConversionConfig) (n : node) :
  forall context k,
    removedTags (snd (V1.processNode config n context k))
    = removedTags k + discardedElements n.
Proof.
  induction n as [data | tagName attrs children IH |] using node_induction;
    intros context k.
  - simpl. lia.
  - cbn [discardedElements]. destruct (mem tagName V1.IGNORE_TAGS) eqn:Ig.
    + rewrite V1_discards by assumption. simpl. lia.
    + rewrite V1_processNode_element by assumption. cbv zeta. cbn [snd].
      rewrite forEachAppend_tags.
      * unfold V1.countStyle. now destruct (attributeOrEmpty (lit "style") attrs).
      * revert IH. apply Forall_impl. intros child Hc k'. apply Hc.
  - simpl. lia.
Qed.

Lemma V2_forEachChild_tags
    (visit : node -> V2.ConversionContext -> counters -> option result * counters)
    (plain inOl : bool) (base : V2.ConversionContext) (l : list node) :
  Forall (fun child => forall c k,
            removedTags (snd (visit child c k))
            = removedTags k + discardedElements child) l ->
  forall next k,
    removedTags (snd (V2.forEachChild visit plain inOl base l next k))
    = removedTags k + list_sum (map discardedElements l).
Proof.
  induction 1 as [|child rest Hc _ IH]; intros next k; [simpl; lia|].
  cbn [V2.forEachChild map list_sum].
  match goal with
  | |- context [visit child ?c k] =>
      specialize (Hc c k); destruct (visit child c k) as [processed k1]
  end.
  match goal with
  | |- context [V2.forEachChild visit plain inOl base rest ?n k1] =>
      specialize (IH n k1);
      destruct (V2.forEachChild visit plain inOl base rest n k1) as [[more hasMore] k2]
  end.
  destruct processed; simpl in *; lia.
Qed.

Lemma V2_counts_tags (config : ConversionConfig) (plain : bool) (n : node) :
  forall context k,
    removedTags (snd (V2.processNode config plain n context k))
    = removedTags k + discardedElements n.
Proof.
  induction n as [data | tagName attrs children IH |] using node_induction;
    intros context k.
  - simpl. lia.
  - cbn [discardedElements].
    change (mem tagName V1.IGNORE_TAGS) with (mem tagName V2.IGNORE_TAGS).
    destruct (mem tagName V2.IGNORE_TAGS) eqn:Ig.
    + rewrite V2_discards by assumption. simpl. lia.
    + rewrite V2_processNode_element by assumption. cbv zeta. cbn [snd].
      now apply V2_forEachChild_tags.
  - simpl. lia.
Qed.

(** X2 — The statistics of a success.  When sanitiser and parser return and
    the document holds no [parsererror] element, [cleanHtml] succeeds and
    reports: the length of the raw input (not of the sanitised one); the
    length of the returned [html]; as [tagsRemoved] the number of discarded
    elements of the body, an element inside a discarded one not being
    counted; and as [attributesRemoved] the number of reached elements with
    a non-empty style attribute in the first variant. *)
Theorem success_statistics :
  forall (sanitize : jsstring -> outcome jsstring)
         (parseFromString : jsstring -> outcome Document)
         (rawHtml cleanInput : jsstring) (config : ConversionConfig)
         (doc doc2 : Document),
    sanitize rawHtml = Returns cleanInput ->
    parseFromString cleanInput = Returns doc ->
    hasParserError doc = false ->
    parseFromString rawHtml = Returns doc2 ->
    hasParserError doc2 = false ->
    let first := V1.cleanHtml sanitize parseFromString rawHtml config in
    let second := V2.cleanHtml parseFromString rawHtml config in
    (error first = None
     /\ originalLength (stats first) = List.length rawHtml
     /\ finalLength (stats first) = List.length (html first)
     /\ tagsRemoved (stats first) = list_sum (map discardedElements (body doc))
     /\ attributesRemoved (stats first) = list_sum (map styledElements (body doc)))
    /\ (error second = None
        /\ originalLength (stats second) = List.length rawHtml
        /\ finalLength (stats second) = List.length (html second)
        /\ tagsRemoved (stats second) = list_sum (map discardedElements (body doc2))).
Proof.
  intros sanitize parseFromString rawHtml cleanInput config doc doc2
         Hs Hp He Hp2 He2 first second.
  subst first second. unfold V1.cleanHtml, V1.attempt, V2.cleanHtml, V2.attempt.
  rewrite Hs. cbn [bind]. rewrite Hp, Hp2. cbn [bind]. rewrite He, He2.
  split.
  - pose proof (forEachAppend_tags
                  (fun n => V1.processNode config n V1.topContext) (body doc)) as T.
    pose proof (forEachAppend_counts
                  (fun n => V1.processNode config n V1.topContext) (body doc)) as A.
    specialize (T (proj2 (Forall_forall _ _)
                     (fun n _ k => V1_counts_tags config n V1.topContext k)) noCounts).
    specialize (A (proj2 (Forall_forall _ _)
                     (fun n _ k => V1_counts_styles config n V1.topContext k)) noCounts).
    destruct (forEachAppend _ (body doc) noCounts) as [fragment k].
    cbn in *. repeat split; assumption.
  - pose proof (forEachAppend_tags
                  (fun n => V2.processNode config (V2.treatAsPlainText doc2) n
                              V2.topContext) (body doc2)) as T.
    specialize (T (proj2 (Forall_forall _ _)
                     (fun n _ k => V2_counts_tags config _ n V2.topContext k)) noCounts).
    destruct (forEachAppend _ (body doc2) noCounts) as [fragment k].
    cbn in *. repeat split; assumption.
Qed.

Lemma success_statistics_witness :
  (Sample.sanitize (lit "<body><script>alert(1)</script>Safe text")
   = Returns (lit "<body><script>alert(1)</script>Safe text")
   /\ hasParserError
        {| head := [];
           body := [Sample.element "script" [Sample.text "alert(1)"];
                    Sample.text "Safe text"] |} = false)
  /\ tagsRemoved (stats (V1.cleanHtml Sample.sanitize Sample.parseFromString
                           (lit "<body><script>alert(1)</script>Safe text")
                           (Sample.paragraphs true))) = 1
  /\ originalLength (stats (V2.cleanHtml Sample.parseFromString
                              (lit "<body><script>alert(1)</script>Safe text")
                              (Sample.paragraphs true))) = 40.
Proof.
  pose proof (success_statistics Sample.sanitize Sample.parseFromString
                (lit "<body><script>alert(1)</script>Safe text") _
                (Sample.paragraphs true) _ _ eq_refl eq_refl eq_refl eq_refl eq_refl)
    as (First & Second).
  split; [split; reflexivity|]. split.
  - exact (proj1 (proj2 (proj2 (proj2 First)))).
  - exact (proj1 (proj2 Second)).
Defined.

(** ** The second variant builds no list element *)

Lemma V2_applyWrappers_flat (tagName styleAttr : jsstring)
    (targetTag : option jsstring) (fragment : list onode) :
  forallb (treeOver FLAT_TAGS) fragment = true ->
  forallb (treeOver FLAT_TAGS)
          (nodesOf (V2.applyWrappers tagName styleAttr targetTag fragment)) = true.
Proof.
  intro H. unfold V2.applyWrappers.
  split_ifs; repeat (apply treeOver_wrap; [reflexivity|]); exact H.
Qed.

Lemma V2_buildElement_flat (context : V2.ConversionContext)
    (tagName styleAttr : jsstring) (fragment : list onode) (hasContent : bool) :
  forallb (treeOver FLAT_TAGS) fragment = true ->
  forallb (treeOver FLAT_TAGS)
          (appended (V2.buildElement context tagName styleAttr fragment hasContent))
  = true.
Proof.
  intro H. unfold V2.buildElement.
  pose proof (V2_applyWrappers_flat tagName styleAttr
                (V2.targetTagOf context tagName) _ H) as W.
  split_ifs; cbn [appended]; try reflexivity.
  - apply treeOver_wrap; [reflexivity | exact W].
  - cbn [nodesOf forallb]. now rewrite W.
  - exact W.
Qed.

Lemma V2_processNode_flat (config : ConversionConfig) (plain : bool) (n : node) :
  forall context k,
    forallb (treeOver FLAT_TAGS)
            (appended (fst (V2.processNode config plain n context k))) = true.
Proof.
  induction n as [data | tagName attrs children IH |] using node_induction;
    intros context k.
  - simpl. unfold V2.processText. now destruct data.
  - destruct (mem tagName V2.IGNORE_TAGS) eqn:Ig.
    + now rewrite V2_discards.
    + rewrite V2_processNode_element by assumption. cbv zeta. cbn [fst].
      apply V2_buildElement_flat. rewrite forallb_app. apply andb_true_iff. split.
      * unfold V2.prefixNodes. now destruct (V2.prefixOf context tagName).
      * now apply V2_forEachChild_all.
  - reflexivity.
Qed.

Section CleanUpOver.

Variable texts : list jsstring.
Hypothesis has_br : mem (lit "br") texts = true.
Hypothesis has_p : mem (lit "p") texts = true.
Hypothesis has_end_p : mem (lit "/p") texts = true.

Lemma scan_br_text : scan texts Outside (lit "<br>") = Some Outside.
Proof. exact (scan_tag texts (lit "br") [] eq_refl has_br). Qed.

Lemma scan_p_text : scan texts Outside (lit "<p>") = Some Outside.
Proof. exact (scan_tag texts (lit "p") [] eq_refl has_p). Qed.

Lemma scan_end_p_text : scan texts Outside (lit "</p>") = Some Outside.
Proof. exact (scan_tag texts (lit "/p") [] eq_refl has_end_p). Qed.

Lemma scan_br_br_text : scan texts Outside (lit "<br><br>") = Some Outside.
Proof.
  change (lit "<br><br>") with (lit "<br>" ++ lit "<br>").
  rewrite scan_app, scan_br_text. apply scan_br_text.
Qed.

Ltac keep_replaced_over :=
  apply scan_replaceAll;
  [ apply keepsMarkup_replacing;
    [ reflexivity
    | first [ reflexivity | apply scan_br_text | apply scan_p_text
            | apply scan_end_p_text | apply scan_br_br_text ] ]
  | ].

(** Steps 1 to 5 of the clean-up keep markup over any tag texts that list
    the break and the paragraph; so does the whole clean-up. *)
Lemma V2_cleanup_head_over (plain : bool) (s : jsstring) :
  scan texts Outside s = Some Outside ->
  scan texts Outside
    (replaceAll V2.leadingBreakInP
    (replaceAll V2.nestedCloseP
    (replaceAll V2.nestedOpenP
    (replaceAll V2.markerBreak
    (replaceAll V2.normalizeBr
       (if plain then replaceAll V2.newlineToBr s else s)))))) = Some Outside.
Proof.
  intro H.
  unfold V2.leadingBreakInP, V2.nestedCloseP, V2.nestedOpenP.
  do 3 keep_replaced_over.
  apply scan_replaceAll; [apply keepsMarkup_markerBreak|].
  unfold V2.normalizeBr. keep_replaced_over.
  destruct plain; [|exact H].
  apply scan_replaceAll; [now apply keepsMarkup_newlineToBr | exact H].
Qed.

Lemma V2_cleanup_steps_over (config : ConversionConfig) (plain : bool) (s : jsstring) :
  scan texts Outside s = Some Outside ->
  scan texts Outside (V2.cleanup config plain s) = Some Outside.
Proof.
  intro H. unfold V2.cleanup.
  apply V2_cleanup_tail; [exact has_br|].
  pose proof (V2_cleanup_head_over plain s H) as Head.
  destruct (negb (useParagraphs config)); [|exact Head].
  unfold V2.closeP, V2.openP. do 2 keep_replaced_over. exact Head.
Qed.

End CleanUpOver.

(** X3 — The second variant flattens lists: whatever the input, its [html] is
    markup over b, i, u, sub, sup, p and br only; no [ul], [ol] or [li] tag
    is ever written (a list comes out as a paragraph of marked lines).  In
    line-break mode the paragraph tag is absent too. *)
Theorem second_variant_writes_no_list :
  forall (parseFromString : jsstring -> outcome Document)
         (rawHtml : jsstring) (config : ConversionConfig),
    onlyTags FLAT_TAGS (html (V2.cleanHtml parseFromString rawHtml config)) = true
    /\ (useParagraphs config = false ->
        onlyTags FLAT_LINE_TAGS
          (html (V2.cleanHtml parseFromString rawHtml config)) = true).
Proof.
  intros parseFromString rawHtml config.
  unfold V2.cleanHtml, V2.attempt.
  destruct (parseFromString rawHtml) as [doc | m]; cbn [bind]; [|now split].
  destruct (hasParserError doc); [now split|].
  assert (B : forallb (treeOver FLAT_TAGS)
                (fst (forEachAppend
                        (fun n => V2.processNode config (V2.treatAsPlainText doc) n
                                    V2.topContext) (body doc) noCounts)) = true).
  { apply forEachAppend_all. apply Forall_forall. intros n _ k'.
    apply V2_processNode_flat. }
  destruct (forEachAppend _ (body doc) noCounts) as [fragment k]. cbn [fst] in B.
  pose proof (onlyTags_innerHTML FLAT_TAGS eq_refl fragment B) as S.
  apply onlyTags_scan in S. cbn [html]. split.
  - apply onlyTags_scan.
    now apply (V2_cleanup_steps_over (tagTexts FLAT_TAGS) eq_refl eq_refl eq_refl).
  - intro Mode. apply onlyTags_scan. unfold V2.cleanup. rewrite Mode. cbn [negb].
    apply V2_cleanup_tail; [reflexivity|].
    pose proof (V2_cleanup_head_over (tagTexts FLAT_TAGS) eq_refl eq_refl eq_refl
                  (V2.treatAsPlainText doc) (innerHTML fragment) S) as Head.
    change (tagTexts FLAT_LINE_TAGS)
      with (without (lit "/p") (without (lit "p") (tagTexts FLAT_TAGS))).
    apply (scan_remove_tag (without (lit "p") (tagTexts FLAT_TAGS)) (lit "/p")
             (lit "<br><br>") eq_refl); [|exact I].
    apply (scan_remove_tag (tagTexts FLAT_TAGS) (lit "p") [] eq_refl);
      [exact Head | exact I].
Qed.

Lemma second_variant_writes_no_list_witness :
  useParagraphs (Sample.lineBreaks true) = false
  /\ onlyTags FLAT_LINE_TAGS
       (html (V2.cleanHtml Sample.parseFromString
                (lit "<ul><li><p>Item</p></li></ul>")
                (Sample.lineBreaks true))) = true.
Proof.
  split; [reflexivity|].
  exact (proj2 (second_variant_writes_no_list Sample.parseFromString
                  (lit "<ul><li><p>Item</p></li></ul>") (Sample.lineBreaks true))
               eq_refl).
Defined.


(** ** The callers and the engine *)

(** What a caller of [cleanHtml] may rely on, whichever variant it imports:
    the [html] is markup over the dialect, and the test [if (result.error)]
    tells a failure from a success (no failure carries an empty message). *)
Lemma engine_contract (sanitize : jsstring -> outcome jsstring)
    (parseFromString : jsstring -> outcome Document)
    (cleanHtml : jsstring -> ConversionConfig -> Conversion) :
  cleanHtml = V1.cleanHtml sanitize parseFromString
  \/ cleanHtml = V2.cleanHtml parseFromString ->
  forall rawHtml config,
    onlyTags LEGACY_TAGS (html (cleanHtml rawHtml config)) = true
    /\ (error (cleanHtml rawHtml config) = None
        \/ truthy (error (cleanHtml rawHtml config)) = true
           /\ html (cleanHtml rawHtml config) = []).
Proof.
  intros [-> | ->] rawHtml config.
  - split; [apply V1_html_onlyTags|].
    destruct (V1_cleanHtml_cases sanitize parseFromString rawHtml config)
      as [(r & _ & E & Ok) | (m & _ & E)]; rewrite E.
    + now left.
    + right. split; [|reflexivity]. now destruct m.
  - split; [apply V2_html_onlyTags|].
    destruct (V2_cleanHtml_cases parseFromString rawHtml config)
      as [(r & _ & E & Ok) | (m & _ & E)]; rewrite E.
    + now left.
    + right. now split.
Qed.

Lemma truthy_None_false (e : option jsstring) : e = None -> truthy e = false.
Proof. now intros ->. Qed.

(** X4 — A click on Convert in standard mode, in either variant of the
    application and with either engine: a blank input only clears the error
    message; any other input ends either with no error message and the
    engine's [html] in the output pane, which is markup over the dialect, or
    with the engine's error message, which is not empty, and an empty output
    pane. *)
Theorem convert_shows_markup_or_error :
  forall (sanitize : jsstring -> outcome jsstring)
         (parseFromString : jsstring -> outcome Document)
         (cleanHtml : jsstring -> ConversionConfig -> Conversion)
         (cleanWithGemini : jsstring -> ConversionConfig -> outcome jsstring)
         (rawInput text : jsstring) (config : ConversionConfig)
         (view1 : App1.View) (view2 : App2.View),
    cleanHtml = V1.cleanHtml sanitize parseFromString
    \/ cleanHtml = V2.cleanHtml parseFromString ->
    mode config = standard ->
    let result := cleanHtml rawInput config in
    let after1 := App1.handleConvert cleanHtml (Some rawInput) config view1 in
    let after2 :=
      App2.handleConvert cleanHtml cleanWithGemini
        (Some {| App2.getHTML := rawInput; App2.getText := text |}) config view2 in
    (if isBlank rawInput
     then after1 = {| App1.outputHtml := App1.outputHtml view1;
                      App1.errorMsg := None |}
     else (App1.errorMsg after1 = None
           /\ App1.outputHtml after1 = html result
           /\ onlyTags LEGACY_TAGS (App1.outputHtml after1) = true)
          \/ (App1.errorMsg after1 = error result
              /\ truthy (App1.errorMsg after1) = true
              /\ App1.outputHtml after1 = []))
    /\ (if isBlank text
        then after2 = {| App2.outputHtml := App2.outputHtml view2;
                         App2.errorMsg := None;
                         App2.isLoading := App2.isLoading view2 |}
        else App2.isLoading after2 = App2.isLoading view2
             /\ ((App2.errorMsg after2 = None
                  /\ App2.outputHtml after2 = html result
                  /\ onlyTags LEGACY_TAGS (App2.outputHtml after2) = true)
                 \/ (App2.errorMsg after2 = error result
                     /\ truthy (App2.errorMsg after2) = true
                     /\ App2.outputHtml after2 = []))).
Proof.
  intros sanitize parseFromString cleanHtml cleanWithGemini rawInput text config
         view1 view2 Which Standard result after1 after2.
  destruct (engine_contract sanitize parseFromString cleanHtml Which rawInput config)
    as [Markup Told]. fold result in Markup, Told.
  split.
  - subst after1. unfold App1.handleConvert.
    destruct (isBlank rawInput); [reflexivity|]. fold result.
    destruct Told as [Ok | [Failed Empty]].
    + left. rewrite (truthy_None_false _ Ok). cbn. now repeat split.
    + right. rewrite Failed. cbn. now repeat split.
  - subst after2. unfold App2.handleConvert. cbn [App2.getText App2.getHTML].
    destruct (isBlank text); [reflexivity|]. rewrite Standard. fold result.
    destruct Told as [Ok | [Failed Empty]].
    + rewrite (truthy_None_false _ Ok). cbn. split; [reflexivity|]. left.
      now repeat split.
    + rewrite Failed. cbn. split; [reflexivity|]. right. now repeat split.
Qed.

Lemma convert_shows_markup_or_error_witness :
  App1.outputHtml
    (App1.handleConvert (V1.cleanHtml Sample.sanitize Sample.parseFromString)
       (Some (lit "<h1>Title</h1><p>Body</p>")) (Sample.paragraphs true)
       {| App1.outputHtml := lit "old"; App1.errorMsg := Some (lit "old") |})
  = html (V1.cleanHtml Sample.sanitize Sample.parseFromString
            (lit "<h1>Title</h1><p>Body</p>") (Sample.paragraphs true))
  /\ truthy
       (App2.errorMsg
          (App2.handleConvert (V2.cleanHtml Sample.parseFromString)
             (fun _ _ => Throws [])
             (Some {| App2.getHTML := lit "<parsererror>x</parsererror>";
                      App2.getText := lit "x" |})
             (Sample.paragraphs true)
             {| App2.outputHtml := lit "old"; App2.errorMsg := None;
                App2.isLoading := false |})) = true.
Proof.
  split.
  - pose proof (proj1 (convert_shows_markup_or_error
                  Sample.sanitize Sample.parseFromString
                  (V1.cleanHtml Sample.sanitize Sample.parseFromString)
                  (fun _ _ => Throws [])
                  (lit "<h1>Title</h1><p>Body</p>") (lit "Title Body")
                  (Sample.paragraphs true)
                  {| App1.outputHtml := lit "old"; App1.errorMsg := Some (lit "old") |}
                  {| App2.outputHtml := lit "old"; App2.errorMsg := None;
                     App2.isLoading := false |}
                  (or_introl eq_refl) eq_refl)) as H.
    cbv beta zeta in H.
    change (isBlank (lit "<h1>Title</h1><p>Body</p>")) with false in H.
    cbv iota in H.
    destruct H as [(_ & Out & _) | (_ & Bad & _)]; [exact Out | discriminate Bad].
  - pose proof (proj2 (convert_shows_markup_or_error
                  Sample.sanitize Sample.parseFromString
                  (V2.cleanHtml Sample.parseFromString)
                  (fun _ _ => Throws [])
                  (lit "<parsererror>x</parsererror>") (lit "x")
                  (Sample.paragraphs true)
                  {| App1.outputHtml := lit "old"; App1.errorMsg := None |}
                  {| App2.outputHtml := lit "old"; App2.errorMsg := None;
                     App2.isLoading := false |}
                  (or_intror eq_refl) eq_refl)) as H.
    cbv beta zeta in H.
    change (isBlank (lit "x")) with false in H.
    cbv iota in H.
    destruct H as [_ [(Bad & _) | (_ & Told & _)]]; [discriminate Bad | exact Told].
Defined.


(** ** Trimming *)

Lemma dropWhile_head (p : char -> bool) (s : jsstring) :
  match dropWhile p s with
  | [] => True
  | c :: _ => p c = false
  end.
Proof.
  induction s as [|c s IH]; [exact I|]. simpl.
  destruct (p c) eqn:E; [exact IH | exact E].
Qed.

Lemma dropWhile_stays (p : char -> bool) (s : jsstring) :
  match s with [] => True | c :: _ => p c = false end -> dropWhile p s = s.
Proof. destruct s as [|c s]; [reflexivity|]. simpl. now intros ->. Qed.

Lemma dropWhile_again (p : char -> bool) (s : jsstring) :
  dropWhile p (dropWhile p s) = dropWhile p s.
Proof. apply dropWhile_stays, dropWhile_head. Qed.

(** The trimmed string and what was cut off around it. *)
Lemma trim_split (s : jsstring) :
  exists before after,
    s = before ++ trim s ++ after
    /\ isBlank before = true /\ isBlank after = true
    /\ dropWhile isSpace s = trim s ++ after.
Proof.
  unfold trim. destruct (dropWhile_split s) as (before & E1 & B1).
  destruct (dropWhile_split (rev (dropWhile isSpace s))) as (ws & E2 & B2).
  set (t := dropWhile isSpace (rev (dropWhile isSpace s))) in *.
  assert (E : dropWhile isSpace s = rev t ++ rev ws).
  { rewrite <- rev_app_distr, <- E2. now rewrite rev_involutive. }
  exists before, (rev ws). repeat split.
  - now rewrite <- E.
  - exact B1.
  - unfold isBlank. rewrite forallb_forall in *. intros x Hx. apply B2.
    now apply in_rev.
  - exact E.
Qed.

Lemma trim_starts (s : jsstring) :
  match trim s with [] => True | c :: _ => isSpace c = false end.
Proof.
  destruct (trim_split s) as (before & after & _ & _ & _ & E).
  pose proof (dropWhile_head isSpace s) as H. rewrite E in H.
  now destruct (trim s).
Qed.

Lemma trim_ends (s : jsstring) :
  match rev (trim s) with [] => True | c :: _ => isSpace c = false end.
Proof. unfold trim. rewrite rev_involutive. apply dropWhile_head. Qed.

Lemma trim_again (s : jsstring) : trim (trim s) = trim s.
Proof.
  unfold trim at 1.
  rewrite (dropWhile_stays isSpace (trim s) (trim_starts s)).
  rewrite (dropWhile_stays isSpace (rev (trim s)) (trim_ends s)).
  apply rev_involutive.
Qed.

(** ** The generative mode *)

(** X5 — A click on Convert in the generative mode, the service of
    [geminiService.ts] behind it, on an editor whose text is not blank.  The
    loading flag is down at the end.  Either the output pane holds the
    trimmed text of the response and there is no error message, or the
    output pane is as before and the message is the fixed one, whatever was
    thrown.  Without an API key (absent or empty) the second case applies
    and the remote call is never made; the conversion engine is not
    consulted in either case. *)
Theorem generative_mode_outcomes :
  forall (API_KEY : option jsstring)
         (generateContent : Gemini.Request -> outcome (option jsstring))
         (cleanHtml : jsstring -> ConversionConfig -> Conversion)
         (ed : App2.Editor) (config : ConversionConfig) (view : App2.View),
    mode config = ai ->
    isBlank (App2.getText ed) = false ->
    let convert generate engine :=
      App2.handleConvert engine (Gemini.cleanWithGemini API_KEY generate)
        (Some ed) config view in
    let after := convert generateContent cleanHtml in
    App2.isLoading after = false
    /\ (App2.errorMsg after = None
        /\ trim (App2.outputHtml after) = App2.outputHtml after
        \/ App2.errorMsg after = Some App2.AI_FAILED
           /\ App2.outputHtml after = App2.outputHtml view)
    /\ (truthy API_KEY = false ->
        forall generate,
          App2.errorMsg (convert generate cleanHtml) = Some App2.AI_FAILED)
    /\ (forall engine, convert generateContent engine = after)
    /\ (forall key text,
          API_KEY = Some key -> truthy API_KEY = true ->
          generateContent {| Gemini.apiKey := key;
                             Gemini.model := lit "gemini-2.5-flash";
                             Gemini.contents := App2.getHTML ed;
                             Gemini.systemInstruction := Gemini.systemPrompt config |}
          = Returns (Some text) ->
          App2.outputHtml after = trim text).
Proof.
  intros API_KEY generateContent cleanHtml ed config view Mode Filled convert after.
  subst after convert. cbv beta. unfold App2.handleConvert.
  rewrite Filled, Mode. unfold Gemini.cleanWithGemini.
  split; [|split; [|split; [|split]]].
  - destruct API_KEY as [[|c key]|]; try reflexivity.
    now destruct (generateContent _) as [[text|]|m].
  - destruct API_KEY as [[|c key]|]; try (now right).
    destruct (generateContent _) as [[text|]|m]; cbn.
    + left. split; [reflexivity | apply trim_again].
    + now left.
    + now right.
  - intros NoKey generate. now destruct API_KEY as [[|c key]|].
  - reflexivity.
  - intros key text -> Key Answer. destruct key as [|c key]; [discriminate Key|].
    now rewrite Answer.
Qed.

Lemma generative_mode_outcomes_witness :
  App2.errorMsg
    (App2.handleConvert (V2.cleanHtml Sample.parseFromString)
       (Gemini.cleanWithGemini (Some []) (fun _ => Returns (Some (lit " <b>x</b> "))))
       (Some {| App2.getHTML := lit "<p>x</p>"; App2.getText := lit "x" |})
       {| mode := ai; useParagraphs := true; convertDivsToP := true;
          cleanAttributes := true; aggressiveWhitespace := true |}
       {| App2.outputHtml := []; App2.errorMsg := None; App2.isLoading := false |})
  = Some App2.AI_FAILED.
Proof.
  exact (proj1 (proj2 (proj2
    (generative_mode_outcomes (Some [])
       (fun _ => Returns (Some (lit " <b>x</b> ")))
       (V2.cleanHtml Sample.parseFromString)
       {| App2.getHTML := lit "<p>x</p>"; App2.getText := lit "x" |}
       {| mode := ai; useParagraphs := true; convertDivsToP := true;
          cleanAttributes := true; aggressiveWhitespace := true |}
       {| App2.outputHtml := []; App2.errorMsg := None; App2.isLoading := false |}
       eq_refl eq_refl))) eq_refl (fun _ => Returns (Some (lit " <b>x</b> ")))).
Defined.

(** ** Counting words *)

Lemma splitSpaces_counts (s : jsstring) :
  (forall current,
     List.length (filter (fun w => 0 <? List.length w)
                         (Output.splitSpaces false current s))
     = countWords (0 <? List.length current) s
       + (if 0 <? List.length current then 1 else 0))
  /\ List.length (filter (fun w => 0 <? List.length w)
                         (Output.splitSpaces true [] s))
     = countWords false s.
Proof.
  induction s as [|c s [IH1 IH2]]; split; intros; cbn [Output.splitSpaces countWords].
  - cbn [filter]. now destruct (0 <? List.length current).
  - reflexivity.
  - destruct (isSpace c).
    + cbn [filter]. destruct (0 <? List.length current); cbn [List.length];
        rewrite IH2; lia.
    + rewrite IH1, length_app. cbn [List.length].
      replace (0 <? List.length current + 1) with true
        by (symmetry; apply Nat.ltb_lt; lia).
      destruct (0 <? List.length current); lia.
  - destruct (isSpace c); [exact IH2|].
    rewrite IH1. cbn. lia.
Qed.

Lemma countWords_drop (s : jsstring) :
  countWords false (dropWhile isSpace s) = countWords false s.
Proof.
  induction s as [|c s IH]; [reflexivity|]. simpl.
  destruct (isSpace c) eqn:E; [exact IH|]. simpl. now rewrite E.
Qed.

Lemma countWords_app (a b : jsstring) (inWord : bool) :
  countWords inWord (a ++ b)
  = countWords inWord a
    + countWords (match rev a with
                  | [] => inWord
                  | c :: _ => negb (isSpace c)
                  end) b.
Proof.
  revert inWord; induction a as [|c a IH]; intro inWord; [reflexivity|].
  cbn [app countWords]. 
  assert (Last : forall d, match rev (c :: a) with [] => d | x :: _ => negb (isSpace x) end
                 = match rev a with [] => negb (isSpace c) | x :: _ => negb (isSpace x) end).
  { intro d. cbn [rev]. destruct (rev a); reflexivity. }
  rewrite (Last inWord).
  destruct (isSpace c) eqn:E; rewrite IH; cbn [negb]; lia.
Qed.

Lemma countWords_blank (s : jsstring) (inWord : bool) :
  isBlank s = true -> countWords inWord s = 0.
Proof.
  revert inWord; induction s as [|c s IH]; intros inWord; [reflexivity|].
  cbn. intro H. apply andb_true_iff in H as [-> H]. now apply IH.
Qed.

Lemma countWords_zero (s : jsstring) (inWord : bool) :
  countWords inWord s = 0 -> inWord = false -> isBlank s = true.
Proof.
  intros H ->. induction s as [|c s IH]; [reflexivity|].
  cbn in *. destruct (isSpace c); [now apply IH | discriminate].
Qed.

Lemma countWords_words_trim (s : jsstring) :
  countWords false (trim s) = countWords false s.
Proof.
  destruct (trim_split s) as (before & after & _ & _ & Blank & E).
  rewrite <- (countWords_drop s), E, countWords_app.
  rewrite (countWords_blank after _ Blank). lia.
Qed.

Lemma getWordCount_runs (text : jsstring) :
  Output.getWordCount text = countWords false text.
Proof.
  unfold Output.getWordCount.
  rewrite (proj1 (splitSpaces_counts (trim text)) []). cbn.
  rewrite countWords_words_trim. lia.
Qed.

(** X6 — The word count under the code viewer (and under the editor): the
    pipeline of [trim], [split] and [filter] counts the maximal runs of code
    units that are not white space.  So the count is zero exactly for a
    blank text, white space around the text does not matter, the count of
    two texts joined by a white-space code unit is the sum of their counts,
    and the early return of the viewer for an empty string agrees with the
    general case. *)
Theorem word_count_counts_runs :
  forall (text other : jsstring) (c : char),
    Output.getWordCount text = countWords false text
    /\ (Output.getWordCount text = 0 <-> isBlank text = true)
    /\ Output.getWordCount (trim text) = Output.getWordCount text
    /\ (isSpace c = true ->
        Output.getWordCount (text ++ c :: other)
        = Output.getWordCount text + Output.getWordCount other)
    /\ Output.codeViewerStats text
       = {| Output.words := Output.getWordCount text;
            Output.chars := List.length text |}.
Proof.
  intros text other c. rewrite !getWordCount_runs. repeat split.
  - intro H. now apply (countWords_zero text false).
  - apply countWords_blank.
  - apply countWords_words_trim.
  - intro Space. rewrite countWords_app. cbn [countWords]. now rewrite Space.
  - destruct text; [reflexivity|]. unfold Output.codeViewerStats.
    now rewrite getWordCount_runs.
Qed.

Lemma word_count_counts_runs_witness :
  isSpace 10 = true
  /\ Output.getWordCount (lit "two words" ++ 10%N :: lit "one")
     = Output.getWordCount (lit "two words") + Output.getWordCount (lit "one").
Proof.
  split; [reflexivity|].
  exact (proj1 (proj2 (proj2 (proj2
           (word_count_counts_runs (lit "two words") (lit "one") 10%N)))) eq_refl).
Defined.


(** ** The undo history of the first application variant *)

Lemma firstn_entry (entries : list jsstring) (index : nat) :
  index < List.length entries ->
  exists entry,
    nth_error entries index = Some entry
    /\ nth_error (firstn (index + 1) entries) index = Some entry
    /\ List.length (firstn (index + 1) entries) = index + 1.
Proof.
  intro H. destruct (nth_error entries index) as [entry|] eqn:E.
  - exists entry. repeat split.
    + rewrite nth_error_firstn.
      replace (index <? index + 1) with true by (symmetry; apply Nat.ltb_lt; lia).
      exact E.
    + rewrite length_firstn. lia.
  - apply nth_error_None in E. lia.
Qed.

Lemma written_entry (entries : list jsstring) (index : nat) (entry : jsstring) :
  nth_error entries index = Some entry -> App1.written entries index = entry.
Proof. unfold App1.written. now intros ->. Qed.

(** X7 — Recording a new content from the current render, the index pointing at
    an entry that differs from it: the entries up to the current one are
    kept, those behind it (the redo branch) are dropped, the new content is
    the last entry and the index points at it; there is nothing to redo; one
    undo writes the entry that was current before and one redo after it
    writes the new content again and restores the state. *)
Theorem history_add_undo_redo :
  forall (h : App1.History) (newContent : jsstring),
    inRange h ->
    App1.isCurrent (App1.history h) (App1.historyIndex h) newContent = false ->
    let added := App1.addToHistory (App1.historyIndex h) newContent h in
    inRange added
    /\ App1.history added
       = firstn (App1.historyIndex h + 1) (App1.history h) ++ [newContent]
    /\ nth_error (App1.history added) (App1.historyIndex added) = Some newContent
    /\ List.length (App1.history added) = App1.historyIndex added + 1
    /\ App1.handleRedo added = (added, None)
    /\ exists previous,
         nth_error (App1.history h) (App1.historyIndex h) = Some previous
         /\ App1.handleUndo added
            = ({| App1.history := App1.history added;
                  App1.historyIndex := App1.historyIndex h |}, Some previous)
         /\ App1.handleRedo (fst (App1.handleUndo added)) = (added, Some newContent).
Proof.
  intros [entries index] newContent Range Differs added.
  unfold inRange in *. cbn [App1.history App1.historyIndex] in *.
  destruct (firstn_entry entries index Range) as (previous & Here & Kept & Len).
  subst added. unfold App1.addToHistory. cbn [App1.history App1.historyIndex].
  rewrite Differs.
  assert (Last : nth_error (firstn (index + 1) entries ++ [newContent]) (index + 1)
                 = Some newContent).
  { rewrite nth_error_app2 by lia. rewrite Len, Nat.sub_diag. reflexivity. }
  assert (Total : List.length (firstn (index + 1) entries ++ [newContent])
                  = index + 1 + 1).
  { rewrite length_app, Len. reflexivity. }
  assert (Before : nth_error (firstn (index + 1) entries ++ [newContent]) index
                   = Some previous).
  { rewrite nth_error_app1 by lia. exact Kept. }
  split; [|split; [|split; [|split; [|split]]]].
  - unfold inRange. cbn [App1.history App1.historyIndex]. lia.
  - reflexivity.
  - exact Last.
  - exact Total.
  - unfold App1.handleRedo. cbn [App1.history App1.historyIndex]. rewrite Total.
    replace (index + 1 <? index + 1 + 1 - 1) with false
      by (symmetry; apply Nat.ltb_ge; lia).
    reflexivity.
  - exists previous. split; [exact Here|].
    unfold App1.handleUndo. cbn [App1.history App1.historyIndex].
    replace (0 <? index + 1) with true by (symmetry; apply Nat.ltb_lt; lia).
    replace (index + 1 - 1) with index by lia.
    rewrite (written_entry _ _ _ Before). split; [reflexivity|].
    cbn [fst]. unfold App1.handleRedo. cbn [App1.history App1.historyIndex].
    rewrite Total.
    replace (index <? index + 1 + 1 - 1) with true
      by (symmetry; apply Nat.ltb_lt; lia).
    now rewrite (written_entry _ _ _ Last).
Qed.

Lemma history_add_undo_redo_witness :
  inRange {| App1.history := [[]; lit "a"; lit "b"]; App1.historyIndex := 1 |}
  /\ App1.history
       (App1.addToHistory 1 (lit "c")
          {| App1.history := [[]; lit "a"; lit "b"]; App1.historyIndex := 1 |})
     = [[]; lit "a"; lit "c"].
Proof.
  split; [unfold inRange; simpl; lia|].
  exact (proj1 (proj2
    (history_add_undo_redo
       {| App1.history := [[]; lit "a"; lit "b"]; App1.historyIndex := 1 |}
       (lit "c") (le_S 2 2 (le_n 2)) eq_refl))).
Defined.

Lemma written_in_range (entries : list jsstring) (index : nat) :
  index < List.length entries ->
  Some (App1.written entries index) = nth_error entries index.
Proof.
  intro H. unfold App1.written.
  destruct (nth_error entries index) eqn:E; [reflexivity|].
  apply nth_error_None in E. lia.
Qed.

(** X8 — Undo and redo on a history whose index is in range: the entries are
    never changed and the index stays in range; undo moves exactly when the
    index is not zero and redo exactly when the index is not the last one; a
    step that happens writes the entry the new index points at (never the
    text [undefined]); an undo that moved is taken back by redo, and the
    other way round. *)
Theorem history_steps_stay_in_range :
  forall (h : App1.History),
    inRange h ->
    (forall undone shown,
       App1.handleUndo h = (undone, shown) ->
       inRange undone /\ App1.history undone = App1.history h
       /\ (App1.historyIndex h = 0 -> undone = h /\ shown = None)
       /\ (0 < App1.historyIndex h ->
           App1.historyIndex undone + 1 = App1.historyIndex h
           /\ shown = nth_error (App1.history h) (App1.historyIndex undone)
           /\ App1.handleRedo undone
              = (h, nth_error (App1.history h) (App1.historyIndex h))))
    /\ (forall redone shown,
          App1.handleRedo h = (redone, shown) ->
          inRange redone /\ App1.history redone = App1.history h
          /\ (App1.historyIndex h + 1 = List.length (App1.history h) ->
              redone = h /\ shown = None)
          /\ (App1.historyIndex h + 1 < List.length (App1.history h) ->
              App1.historyIndex redone = App1.historyIndex h + 1
              /\ shown = nth_error (App1.history h) (App1.historyIndex redone)
              /\ App1.handleUndo redone
                 = (h, nth_error (App1.history h) (App1.historyIndex h)))).
Proof.
  intros [entries index] Range.
  unfold inRange in *. cbn [App1.history App1.historyIndex] in *.
  unfold App1.handleUndo, App1.handleRedo. cbn [App1.history App1.historyIndex].
  split; intros moved shown.
  - destruct (Nat.ltb_spec 0 index) as [Pos | Zero]; intro E;
      injection E as <- <-; cbn [App1.history App1.historyIndex];
      (split; [lia|]); (split; [reflexivity|]); split; intro H; try lia.
    + split; [lia|]. split; [apply written_in_range; lia|].
      replace (index - 1 <? List.length entries - 1) with true
        by (symmetry; apply Nat.ltb_lt; lia).
      replace (index - 1 + 1) with index by lia.
      now rewrite written_in_range.
    + now split.
  - destruct (Nat.ltb_spec index (List.length entries - 1)) as [More | Last];
      intro E; injection E as <- <-; cbn [App1.history App1.historyIndex];
      (split; [lia|]); (split; [reflexivity|]); split; intro H; try lia.
    + split; [reflexivity|]. split; [apply written_in_range; lia|].
      replace (0 <? index + 1) with true by (symmetry; apply Nat.ltb_lt; lia).
      replace (index + 1 - 1) with index by lia.
      now rewrite written_in_range.
    + now split.
Qed.

Lemma history_steps_stay_in_range_witness :
  inRange {| App1.history := [[]; lit "a"; lit "b"]; App1.historyIndex := 1 |}
  /\ App1.handleRedo
       {| App1.history := [[]; lit "a"; lit "b"]; App1.historyIndex := 0 |}
     = ({| App1.history := [[]; lit "a"; lit "b"]; App1.historyIndex := 1 |},
        Some (lit "a")).
Proof.
  split; [exact (le_S 2 2 (le_n 2))|].
  exact (proj2 (proj2 (proj2 (proj2 (proj2
    (proj1 (history_steps_stay_in_range
              {| App1.history := [[]; lit "a"; lit "b"]; App1.historyIndex := 1 |}
              (le_S 2 2 (le_n 2)))
       _ _ eq_refl))) (le_n 1)))).
Defined.

(** X9 — Recording the content the index already points at (as clearing an empty
    editor does): the entries stay as they are, yet the index still moves on
    by one.  On a history whose index was the last one it now points behind
    the entries, and the next undo writes the very content that was
    recorded, so that nothing changes in the editor. *)
Theorem history_duplicate_moves_index :
  forall (h : App1.History) (content : jsstring),
    App1.isCurrent (App1.history h) (App1.historyIndex h) content = true ->
    let added := App1.addToHistory (App1.historyIndex h) content h in
    App1.history added = App1.history h
    /\ App1.historyIndex added = App1.historyIndex h + 1
    /\ (App1.historyIndex h + 1 = List.length (App1.history h) -> ~ inRange added)
    /\ App1.handleUndo added = (h, Some content).
Proof.
  intros [entries index] content Same added. subst added.
  unfold App1.addToHistory, inRange. cbn [App1.history App1.historyIndex] in *.
  rewrite Same. repeat split.
  - lia.
  - unfold App1.handleUndo. cbn [App1.history App1.historyIndex].
    replace (0 <? index + 1) with true by (symmetry; apply Nat.ltb_lt; lia).
    replace (index + 1 - 1) with index by lia.
    unfold App1.isCurrent, App1.written in *.
    destruct (nth_error entries index) as [entry|]; [|discriminate Same].
    apply str_eqb_eq in Same. now subst.
Qed.

Lemma history_duplicate_moves_index_witness :
  ~ inRange (App1.addToHistory 0 [] {| App1.history := [[]]; App1.historyIndex := 0 |}).
Proof.
  exact (proj1 (proj2 (proj2
    (history_duplicate_moves_index
       {| App1.history := [[]]; App1.historyIndex := 0 |} [] eq_refl))) eq_refl).
Defined.


(** ** The tree the first variant serialises *)

Lemma containsBr_children (tag : jsstring) (children : list onode) :
  V1.containsBr (OElem tag children) = holdsBr children.
Proof. reflexivity. Qed.

Lemma holdsBr_app (a b : list onode) : holdsBr (a ++ b) = holdsBr a || holdsBr b.
Proof. apply existsb_app. Qed.

Lemma holdsBr_cons (n : onode) (l : list onode) :
  holdsBr (n :: l) = holdsBr [n] || holdsBr l.
Proof. apply (holdsBr_app [n] l). Qed.

Lemma holdsBr_one (tag : jsstring) (children : list onode) :
  holdsBr [OElem tag children] = str_eqb tag (lit "br") || holdsBr children.
Proof. unfold holdsBr at 1. cbn [existsb]. now rewrite orb_false_r. Qed.

Lemma holdsBr_text (data : jsstring) : holdsBr [OText data] = false.
Proof. reflexivity. Qed.

Lemma candidate_not_br (tag : jsstring) :
  mem tag V1.EMPTY_CANDIDATES = true -> str_eqb tag (lit "br") = false.
Proof.
  intro H. apply str_eqb_neq. intros ->. discriminate H.
Qed.

(** Removing the empty candidates below an element changes neither whether
    its text is blank nor whether it holds a break, and leaves no empty
    candidate behind. *)
Lemma cleanEmptyTags_keeps (n : onode) :
  isBlank (flat_map otextContent (V1.cleanEmptyTags n)) = isBlank (otextContent n)
  /\ holdsBr (V1.cleanEmptyTags n) = holdsBr [n]
  /\ forallb wrappersFilled (V1.cleanEmptyTags n) = true.
Proof.
  induction n as [data | tag children IH] using onode_induction.
  - cbn. now rewrite app_nil_r.
  - assert (L : isBlank (flat_map otextContent (flat_map V1.cleanEmptyTags children))
                = isBlank (flat_map otextContent children)
                /\ holdsBr (flat_map V1.cleanEmptyTags children) = holdsBr children
                /\ forallb wrappersFilled (flat_map V1.cleanEmptyTags children) = true).
    { induction IH as [|c cs (T & B & W) _ (Ts & Bs & Ws)]; [now repeat split|].
      cbn [flat_map]. rewrite flat_map_app, !isBlank_app, holdsBr_app, forallb_app.
      rewrite T, Ts, B, Bs, W, Ws, (holdsBr_cons c cs). now repeat split. }
    destruct L as (T & B & W).
    cbn [V1.cleanEmptyTags]. rewrite containsBr_children.
    destruct (mem tag V1.EMPTY_CANDIDATES && isBlank (otextContent (OElem tag children))
              && negb (holdsBr children)) eqn:Gone.
    + apply andb_true_iff in Gone as [Gone NoBr].
      apply andb_true_iff in Gone as [Cand Blank].
      apply negb_true_iff in NoBr.
      split; [now rewrite Blank|]. split; [|reflexivity].
      rewrite holdsBr_one, (candidate_not_br _ Cand), NoBr. reflexivity.
    + cbn [flat_map otextContent]. rewrite app_nil_r. split; [exact T|].
      split.
      * now rewrite !holdsBr_one, B.
      * cbn [forallb wrappersFilled]. rewrite W, containsBr_children, B.
        cbn [otextContent]. rewrite T. cbn [otextContent] in Gone.
        rewrite andb_true_r.
        destruct (mem tag V1.EMPTY_CANDIDATES);
          destruct (isBlank (flat_map otextContent children));
          destruct (holdsBr children); try reflexivity; discriminate Gone.
Qed.

Lemma br_text : flat_map otextContent [br; br] = [].
Proof. reflexivity. Qed.

(** Replacing the paragraphs by their content and two breaks keeps the text
    and every break, and empties no element. *)
Lemma unwrapParagraphs_keeps (n : onode) :
  flat_map otextContent (V1.unwrapParagraphs n) = otextContent n
  /\ (holdsBr [n] = true -> holdsBr (V1.unwrapParagraphs n) = true)
  /\ (wrappersFilled n = true ->
      forallb wrappersFilled (V1.unwrapParagraphs n) = true).
Proof.
  induction n as [data | tag children IH] using onode_induction.
  - cbn. rewrite app_nil_r. now repeat split.
  - assert (L : flat_map otextContent (flat_map V1.unwrapParagraphs children)
                = flat_map otextContent children
                /\ (holdsBr children = true ->
                    holdsBr (flat_map V1.unwrapParagraphs children) = true)
                /\ (forallb wrappersFilled children = true ->
                    forallb wrappersFilled (flat_map V1.unwrapParagraphs children)
                    = true)).
    { induction IH as [|c cs (T & B & W) _ (Ts & Bs & Ws)]; [now repeat split|].
      cbn [flat_map]. rewrite flat_map_app, holdsBr_app, forallb_app, T, Ts.
      split; [reflexivity|]. split.
      - rewrite (holdsBr_cons c cs). intro H. apply orb_true_iff in H as [H | H];
          apply orb_true_iff; [left; now apply B | right; now apply Bs].
      - cbn [forallb]. intro H. apply andb_true_iff in H as [H1 H2].
        now rewrite W, Ws. }
    destruct L as (T & B & W).
    cbn [V1.unwrapParagraphs]. destruct (str_eqb tag (lit "p")) eqn:P.
    + rewrite flat_map_app, br_text, app_nil_r. split; [exact T|]. split.
      * intros _. rewrite holdsBr_app. apply orb_true_iff. now right.
      * cbn [wrappersFilled]. intro H. apply andb_true_iff in H as [_ H].
        rewrite forallb_app, (W H). reflexivity.
    + cbn [flat_map otextContent]. rewrite app_nil_r. split; [exact T|]. split.
      * rewrite !holdsBr_one.
        intro H. apply orb_true_iff in H as [H | H]; apply orb_true_iff;
          [now left | right; now apply B].
      * cbn [forallb wrappersFilled]. rewrite !containsBr_children.
        cbn [otextContent]. rewrite T. intro H.
        apply andb_true_iff in H as [Filled Below]. rewrite (W Below), !andb_true_r.
        apply orb_true_iff in Filled as [Filled | Br].
        -- now rewrite Filled.
        -- rewrite (B Br). apply orb_true_r.
Qed.

Lemma noParagraphInItem_clean (inside : bool) (n : onode) :
  noParagraphInItem inside n = true ->
  forallb (noParagraphInItem inside) (V1.cleanEmptyTags n) = true.
Proof.
  revert inside. induction n as [data | tag children IH] using onode_induction;
    intros inside H; [reflexivity|].
  cbn [V1.cleanEmptyTags]. split_ifs; [reflexivity|].
  cbn [noParagraphInItem] in H. apply andb_true_iff in H as [Here Below].
  cbn [forallb noParagraphInItem]. rewrite Here, andb_true_r. cbn [andb].
  apply flat_map_all; [|exact Below].
  revert IH. apply Forall_impl. intros c Hc. apply Hc.
Qed.

Lemma noParagraphInItem_unwrap (inside : bool) (n : onode) :
  noParagraphInItem inside n = true ->
  forallb (noParagraphInItem inside) (V1.unwrapParagraphs n) = true.
Proof.
  revert inside. induction n as [data | tag children IH] using onode_induction;
    intros inside H; [reflexivity|].
  cbn [noParagraphInItem] in H. apply andb_true_iff in H as [Here Below].
  assert (L : forallb (noParagraphInItem (str_eqb tag (lit "li") || inside))
                      (flat_map V1.unwrapParagraphs children) = true).
  { apply flat_map_all; [|exact Below].
    revert IH. apply Forall_impl. intros c Hc. apply Hc. }
  cbn [V1.unwrapParagraphs]. destruct (str_eqb tag (lit "p")) eqn:P.
  - apply str_eqb_eq in P. subst tag.
    change (str_eqb (lit "p") (lit "li")) with false in L. cbn [orb] in L.
    rewrite forallb_app, L. now destruct inside.
  - cbn [forallb noParagraphInItem]. now rewrite P, Here, L.
Qed.

Lemma settled_noParagraphInItem (config : ConversionConfig) (inside : bool) (n : onode) :
  settled config inside n = true -> noParagraphInItem inside n = true.
Proof.
  revert inside. induction n as [data | tag children IH] using onode_induction;
    intros inside H; [reflexivity|].
  cbn [settled] in H. cbn [noParagraphInItem].
  destruct (str_eqb tag (lit "br")) eqn:Br.
  - apply str_eqb_eq in Br. subst tag. destruct children; [|discriminate H].
    now destruct inside.
  - apply andb_true_iff in H as [H Below]. apply andb_true_iff in H as [Tag _].
    apply andb_true_iff. split.
    + apply negb_true_iff. destruct inside; [|reflexivity]. cbn [negb andb] in *.
      rewrite orb_false_r in Tag. apply str_eqb_neq. intros ->. discriminate Tag.
    + rewrite forallb_forall in *. rewrite Forall_forall in IH.
      intros c Hc. apply IH; [exact Hc | now apply Below].
Qed.

Lemma textsAll_clean (P : char -> bool) (n : onode) :
  textsAll P n = true -> forallb (textsAll P) (V1.cleanEmptyTags n) = true.
Proof.
  induction n as [data | tag children IH] using onode_induction; intro H.
  - cbn. now rewrite andb_true_r.
  - cbn [V1.cleanEmptyTags]. split_ifs; [reflexivity|].
    cbn [forallb textsAll]. rewrite andb_true_r. now apply flat_map_all.
Qed.

Lemma textsAll_unwrap (P : char -> bool) (n : onode) :
  textsAll P n = true -> forallb (textsAll P) (V1.unwrapParagraphs n) = true.
Proof.
  induction n as [data | tag children IH] using onode_induction; intro H.
  - cbn. now rewrite andb_true_r.
  - assert (L : forallb (textsAll P) (flat_map V1.unwrapParagraphs children) = true)
      by now apply flat_map_all.
    cbn [V1.unwrapParagraphs]. destruct (str_eqb tag (lit "p")).
    + now rewrite forallb_app, L.
    + cbn [forallb textsAll]. now rewrite L.
Qed.

Lemma flat_map_forallb {A : Type} (P : A -> bool) (f : A -> list A) (l : list A) :
  (forall x, P x = true -> forallb P (f x) = true) ->
  forallb P l = true -> forallb P (flat_map f l) = true.
Proof.
  intro Hf. apply flat_map_all. apply Forall_forall. intros x _. apply Hf.
Qed.

Lemma V1_processText_one_line (config : ConversionConfig) (data : jsstring) :
  forallb (textsAll notNewline) (appended (V1.processText config data)) = true.
Proof.
  unfold V1.processText.
  assert (T : forallb notNewline
                (if aggressiveWhitespace config
                 then collapseRuns isSpace false (collapseRuns isNewline false data)
                 else collapseRuns isNewline false data) = true).
  { destruct (aggressiveWhitespace config).
    - apply (collapseRuns_free isSpace isNewline); auto using isNewline_isSpace.
    - apply (collapseRuns_free isNewline isNewline); auto. }
  destruct (if aggressiveWhitespace config then _ else _); [reflexivity|].
  cbn [appended nodesOf forallb textsAll] in *. now rewrite T.
Qed.

Lemma textsAll_wrap (P : char -> bool) (content : result) (tag : string) :
  forallb (textsAll P) (nodesOf content) = true ->
  forallb (textsAll P) (nodesOf (wrap content tag)) = true.
Proof. intro H. cbn. now rewrite H. Qed.

Lemma V1_buildElement_one_line (P : char -> bool) (context : V1.ConversionContext)
    (tagName styleAttr : jsstring) (fragment : list onode) :
  forallb (textsAll P) fragment = true ->
  forallb (textsAll P)
          (appended (V1.buildElement context tagName styleAttr fragment)) = true.
Proof.
  intro H. unfold V1.buildElement, V1.applyWrappers.
  split_ifs; cbn [appended]; try reflexivity;
    repeat (apply textsAll_wrap); exact H.
Qed.

Lemma V1_processNode_one_line (config : ConversionConfig) (n : node) :
  forall context k,
    forallb (textsAll notNewline)
            (appended (fst (V1.processNode config n context k))) = true.
Proof.
  induction n as [data | tagName attrs children IH |] using node_induction;
    intros context k.
  - apply V1_processText_one_line.
  - destruct (mem tagName V1.IGNORE_TAGS) eqn:Ig.
    + now rewrite V1_discards.
    + rewrite V1_processNode_element by assumption. cbv zeta. cbn [fst].
      apply V1_buildElement_one_line.
      apply (forEachAppend_all (textsAll notNewline)).
      revert IH. apply Forall_impl. intros child Hc k'. apply Hc.
  - reflexivity.
Qed.

Lemma V1_body_one_line (config : ConversionConfig) (nodes : list node) (k : counters) :
  forallb (textsAll notNewline)
    (fst (forEachAppend (fun n => V1.processNode config n V1.topContext) nodes k))
  = true.
Proof.
  apply forEachAppend_all. apply Forall_forall. intros n _ k'.
  apply V1_processNode_one_line.
Qed.

Lemma V1_postProcess_texts (P : char -> bool) (config : ConversionConfig)
    (fragment : list onode) :
  forallb (textsAll P) fragment = true ->
  forallb (textsAll P) (V1.postProcess config fragment) = true.
Proof.
  intro T.
  pose proof (flat_map_forallb _ _ _ (textsAll_clean P) T) as T1.
  unfold V1.postProcess. destruct (negb (useParagraphs config)); [|exact T1].
  apply flat_map_forallb; [apply textsAll_unwrap | exact T1].
Qed.

(** X10 — The tree that the first variant serialises, for every parsed body and
    configuration: every [b], [i], [u], [sub], [sup], [p] and [li] element
    has text that is not blank or a [br] below it; no [p] element lies below
    an [li] element; and no text node holds a line feed or a carriage
    return. *)
Theorem first_variant_tree_is_tidy :
  forall (config : ConversionConfig) (nodes : list node) (k : counters),
    let tree :=
      V1.postProcess config
        (fst (forEachAppend (fun n => V1.processNode config n V1.topContext)
                            nodes k)) in
    forallb wrappersFilled tree = true
    /\ forallb (noParagraphInItem false) tree = true
    /\ forallb (textsAll notNewline) tree = true.
Proof.
  intros config nodes k tree. subst tree.
  set (fragment := fst (forEachAppend _ nodes k)).
  assert (S : forallb (settled config false) fragment = true).
  { apply forEachAppend_all. apply Forall_forall. intros n _ k'.
    apply (V1_processNode_settled config n V1.topContext). }
  assert (N : forallb (noParagraphInItem false) fragment = true).
  { rewrite forallb_forall in *. intros n Hn.
    apply (settled_noParagraphInItem config). now apply S. }
  pose proof (V1_postProcess_texts notNewline config fragment
                (V1_body_one_line config nodes k)) as T.
  assert (W : forallb wrappersFilled (flat_map V1.cleanEmptyTags fragment) = true).
  { clear. induction fragment as [|n l IH]; [reflexivity|].
    cbn [flat_map]. rewrite forallb_app, IH.
    now rewrite (proj2 (proj2 (cleanEmptyTags_keeps n))). }
  pose proof (flat_map_forallb _ _ _ (noParagraphInItem_clean false) N) as N1.
  revert T. unfold V1.postProcess. destruct (negb (useParagraphs config)); intro T.
  - split; [|split].
    + apply flat_map_forallb; [|exact W].
      intro n. apply (proj2 (proj2 (unwrapParagraphs_keeps n))).
    + apply flat_map_forallb; [apply noParagraphInItem_unwrap | exact N1].
    + exact T.
  - now repeat split.
Qed.


(** ** The output is one line *)

Lemma notNewline_notLineFeed (c : char) : notNewline c = true -> notLineFeed c = true.
Proof.
  unfold notNewline, notLineFeed, isNewline. now destruct (c =? 10)%N.
Qed.

Lemma forallb_weaken {A : Type} (P Q : A -> bool) (l : list A) :
  (forall x, P x = true -> Q x = true) -> forallb P l = true -> forallb Q l = true.
Proof. rewrite !forallb_forall. auto. Qed.

Lemma forallb_firstn {A : Type} (P : A -> bool) (k : nat) (l : list A) :
  forallb P l = true -> forallb P (firstn k l) = true.
Proof.
  rewrite !forallb_forall. intros H x Hx. apply H.
  rewrite <- (firstn_skipn k l). apply in_or_app. now left.
Qed.

Lemma forallb_skipn {A : Type} (P : A -> bool) (k : nat) (l : list A) :
  forallb P l = true -> forallb P (skipn k l) = true.
Proof.
  rewrite !forallb_forall. intros H x Hx. apply H.
  rewrite <- (firstn_skipn k l). apply in_or_app. now right.
Qed.

Lemma forallb_rev {A : Type} (P : A -> bool) (l : list A) :
  forallb P l = true -> forallb P (rev l) = true.
Proof. rewrite !forallb_forall. intros H x Hx. apply H. now apply in_rev. Qed.

Lemma forallb_dropWhile (P p : char -> bool) (s : jsstring) :
  forallb P s = true -> forallb P (dropWhile p s) = true.
Proof.
  induction s as [|c s IH]; intro H; [reflexivity|]. cbn [dropWhile].
  destruct (p c); [|exact H]. cbn in H. apply andb_true_iff in H as [_ H]. now apply IH.
Qed.

Lemma forallb_trim (P : char -> bool) (s : jsstring) :
  forallb P s = true -> forallb P (trim s) = true.
Proof.
  intro H. unfold trim.
  now apply forallb_rev, forallb_dropWhile, forallb_rev, forallb_dropWhile.
Qed.

Lemma forallb_stripLeadingBr (P : char -> bool) (s : jsstring) :
  forallb P s = true -> forallb P (stripLeadingBr s) = true.
Proof.
  assert (G : forall n s, List.length s <= n -> forallb P s = true ->
                          forallb P (stripLeadingBr s) = true).
  { clear s. induction n as [|n IH]; intros s L H.
    - destruct s; [assumption | simpl in L; lia].
    - destruct s as [|c1 [|c2 [|c3 [|c4 rest]]]]; try assumption.
      cbn [stripLeadingBr].
      destruct (str_eqb [c1; c2; c3; c4] (lit "<br>")); [|assumption].
      apply IH; [simpl in L; lia|].
      apply (forallb_skipn P 4 _ H). }
  now apply (G (List.length s)).
Qed.

Lemma forallb_stripLeadingRb (P : char -> bool) (s : jsstring) :
  forallb P s = true -> forallb P (stripLeadingRb s) = true.
Proof.
  assert (G : forall n s, List.length s <= n -> forallb P s = true ->
                          forallb P (stripLeadingRb s) = true).
  { clear s. induction n as [|n IH]; intros s L H.
    - destruct s; [assumption | simpl in L; lia].
    - destruct s as [|c1 [|c2 [|c3 [|c4 rest]]]]; try assumption.
      cbn [stripLeadingRb].
      destruct (str_eqb [c1; c2; c3; c4] (lit ">rb<")); [|assumption].
      apply IH; [simpl in L; lia|].
      apply (forallb_skipn P 4 _ H). }
  now apply (G (List.length s)).
Qed.

Lemma forallb_ends (P : char -> bool) (s : jsstring) :
  forallb P s = true ->
  forallb P (stripTrailingBr (stripLeadingBr (trim s))) = true.
Proof.
  intro H. unfold stripTrailingBr.
  now apply forallb_rev, forallb_stripLeadingRb, forallb_rev,
            forallb_stripLeadingBr, forallb_trim.
Qed.

Lemma isNameChar_notNewline (c : char) : isNameChar c = true -> notNewline c = true.
Proof.
  unfold isNameChar, notNewline, isNewline. intro H.
  destruct (N.eqb_spec c 10) as [->|]; [discriminate H|].
  destruct (N.eqb_spec c 13) as [->|]; [discriminate H | reflexivity].
Qed.

Lemma LEGACY_named : forallb (forallb isNameChar) LEGACY_TAGS = true.
Proof. reflexivity. Qed.

Lemma escapeText_keeps (P : char -> bool) (data : jsstring) :
  (forall c, notNewline c = true -> P c = true) ->
  forallb P data = true -> forallb P (escapeText data) = true.
Proof.
  intros Weak. induction data as [|c data IH]; intro H; [reflexivity|].
  cbn in H. apply andb_true_iff in H as [Hc H].
  unfold escapeText in *. cbn [flat_map]. rewrite forallb_app, (IH H), andb_true_r.
  unfold escapeChar.
  repeat match goal with
         | |- context [if ?b then _ else _] => destruct b
         end;
    try (apply (forallb_weaken notNewline P _ Weak); reflexivity).
  cbn. now rewrite Hc.
Qed.

(** The serialisation of a tree over the dialect holds a line feed or a
    carriage return only if a text node does. *)
Lemma serialize_keeps (P : char -> bool) (n : onode) :
  (forall c, notNewline c = true -> P c = true) ->
  treeOver LEGACY_TAGS n = true -> textsAll P n = true ->
  forallb P (serialize n) = true.
Proof.
  intros Weak.
  induction n as [data | tag children IH] using onode_induction; intros Over Texts.
  - cbn [serialize]. now apply escapeText_keeps.
  - cbn [treeOver] in Over. apply andb_true_iff in Over as [Tag Over].
    cbn [textsAll] in Texts.
    assert (Name : forallb P tag = true).
    { apply (forallb_weaken isNameChar P).
      - intros c Hc. now apply Weak, isNameChar_notNewline.
      - pose proof LEGACY_named as N. rewrite forallb_forall in N. apply N.
        now apply mem_In. }
    assert (Kids : forallb P (flat_map serialize children) = true).
    { clear Tag Name. induction IH as [|c cs Hc _ IHcs]; [reflexivity|].
      cbn in Over, Texts. apply andb_true_iff in Over as [O1 O2].
      apply andb_true_iff in Texts as [T1 T2].
      cbn [flat_map]. rewrite forallb_app, Hc, IHcs; auto. }
    assert (Lt : forallb P (lit "<") = true)
      by (apply (forallb_weaken notNewline P _ Weak); reflexivity).
    assert (Gt : forallb P (lit ">") = true)
      by (apply (forallb_weaken notNewline P _ Weak); reflexivity).
    assert (Close : forallb P (lit "</") = true)
      by (apply (forallb_weaken notNewline P _ Weak); reflexivity).
    cbn [serialize]. rewrite !forallb_app, Name, Lt, Gt.
    destruct (mem tag VOID_ELEMENTS); [reflexivity|].
    now rewrite !forallb_app, Kids, Name, Close, Gt.
Qed.

Lemma innerHTML_keeps (P : char -> bool) (children : list onode) :
  (forall c, notNewline c = true -> P c = true) ->
  forallb (treeOver LEGACY_TAGS) children = true ->
  forallb (textsAll P) children = true ->
  forallb P (innerHTML children) = true.
Proof.
  intros Weak Over Texts. unfold innerHTML.
  induction children as [|c cs IH]; [reflexivity|].
  cbn in Over, Texts. apply andb_true_iff in Over as [O1 O2].
  apply andb_true_iff in Texts as [T1 T2].
  cbn [flat_map]. rewrite forallb_app, IH, andb_true_r by assumption.
  now apply serialize_keeps.
Qed.

(** Replacements that bring in no code unit outside [P]. *)
Lemma replaceAll_keeps (P : char -> bool) (m : matcher) :
  (forall s k r, m s = Some (k, r) -> forallb P s = true -> forallb P r = true) ->
  forall s, forallb P s = true -> forallb P (replaceAll m s) = true.
Proof.
  intro K.
  assert (G : forall n s, List.length s <= n -> forallb P s = true ->
                          forallb P (replaceAll m s) = true).
  { induction n as [|n IH]; intros s L H.
    - destruct s; [reflexivity | simpl in L; lia].
    - destruct s as [|c rest]; [reflexivity|].
      rewrite replaceAll_step.
      pose proof H as H'. cbn in H'. apply andb_true_iff in H' as [Hc Hrest].
      destruct (m (c :: rest)) as [[[|k] r]|] eqn:M.
      + cbn [forallb]. rewrite Hc. apply IH; [simpl in L; lia | exact Hrest].
      + rewrite forallb_app, (K _ _ _ M H). apply IH.
        * rewrite length_skipn. simpl in L. lia.
        * now apply forallb_skipn.
      + cbn [forallb]. rewrite Hc. apply IH; [simpl in L; lia | exact Hrest]. }
  intros s. now apply (G (List.length s)).
Qed.

Lemma replacing_keeps (P : char -> bool) (ps : pattern) (r : jsstring) :
  forallb P r = true ->
  forall s, forallb P s = true -> forallb P (replaceAll (replacing ps r) s) = true.
Proof.
  intro Hr. apply replaceAll_keeps. intros s k r'. unfold replacing.
  destruct (matchPieces ps s); [|discriminate]. cbn. intro E. now injection E as _ <-.
Qed.

Lemma markerBreak_keeps (P : char -> bool) :
  P 32%N = true ->
  forall s, forallb P s = true -> forallb P (replaceAll V2.markerBreak s) = true.
Proof.
  intro Space. apply replaceAll_keeps. intros s k r. unfold V2.markerBreak.
  destruct (match matchPieces [PChar bullet] s with
            | Some k => Some k
            | None => matchPieces [PDigits1; PChar 46%N] s
            end) as [k1|]; [|discriminate].
  destruct (matchPieces _ (skipn k1 s)); [|discriminate].
  intros E H. injection E as _ <-. rewrite forallb_app.
  rewrite (forallb_firstn P k1 s H). cbn. now rewrite Space.
Qed.

(** Step 1 of the clean-up leaves no line feed. *)
Lemma newlineToBr_clears (s : jsstring) :
  forallb notLineFeed (replaceAll V2.newlineToBr s) = true.
Proof.
  induction s as [|c rest IH]; [reflexivity|].
  rewrite replaceAll_step. unfold V2.newlineToBr at 1, replacing.
  cbn [matchPieces]. unfold char_eqb. rewrite N.eqb_sym.
  destruct (c =? 10)%N eqn:E; cbn [option_map].
  - cbn [skipn]. rewrite forallb_app, IH. reflexivity.
  - cbn [forallb]. unfold notLineFeed at 1. now rewrite E, IH.
Qed.

Lemma V2_cleanup_one_line (config : ConversionConfig) (plain : bool) (s : jsstring) :
  (plain = false -> forallb notLineFeed s = true) ->
  forallb notLineFeed (V2.cleanup config plain s) = true.
Proof.
  intro H. unfold V2.cleanup. apply forallb_ends.
  unfold V2.emptyPair. do 6 (apply replacing_keeps; [reflexivity|]).
  assert (Head : forallb notLineFeed
                   (replaceAll V2.leadingBreakInP
                   (replaceAll V2.nestedCloseP
                   (replaceAll V2.nestedOpenP
                   (replaceAll V2.markerBreak
                   (replaceAll V2.normalizeBr
                      (if plain then replaceAll V2.newlineToBr s else s))))))
                 = true).
  { unfold V2.leadingBreakInP, V2.nestedCloseP, V2.nestedOpenP.
    do 3 (apply replacing_keeps; [reflexivity|]).
    apply markerBreak_keeps; [reflexivity|].
    unfold V2.normalizeBr. apply replacing_keeps; [reflexivity|].
    destruct plain; [apply newlineToBr_clears | now apply H]. }
  destruct (negb (useParagraphs config)); [|exact Head].
  unfold V2.closeP, V2.openP. do 2 (apply replacing_keeps; [reflexivity|]).
  exact Head.
Qed.

Lemma digitsFuel_digits (fuel : nat) :
  forall n acc, forallb isDigit acc = true -> forallb isDigit (digitsFuel fuel n acc) = true.
Proof.
  induction fuel as [|fuel IH]; intros n acc H; [exact H|].
  cbn [digitsFuel].
  assert (D : forallb isDigit ((48 + n mod 10)%N :: acc) = true).
  { cbn [forallb]. rewrite H, andb_true_r. unfold isDigit.
    assert (Bound : (n mod 10 < 10)%N) by now apply N.mod_upper_bound.
    remember (n mod 10)%N as d.
    apply andb_true_iff. split; apply N.leb_le; lia. }
  destruct (n <? 10)%N; [exact D | now apply IH].
Qed.

Lemma isDigit_notLineFeed (c : char) : isDigit c = true -> notLineFeed c = true.
Proof.
  unfold isDigit, notLineFeed. intro H.
  destruct (N.eqb_spec c 10) as [->|]; [discriminate H | reflexivity].
Qed.

Lemma stripZeros_keeps (P : char -> bool) (s : jsstring) :
  forallb P s = true -> forallb P (stripZeros s) = true.
Proof.
  induction s as [|c s IH]; intro H; [reflexivity|]. cbn [stripZeros].
  destruct (c =? 48)%N; [|exact H].
  cbn in H. apply andb_true_iff in H as [_ H]. now apply IH.
Qed.

Lemma numberToString_one_line (n : Z) : forallb notLineFeed (numberToString n) = true.
Proof.
  assert (D : forall p, forallb notLineFeed (digits p) = true).
  { intro p. apply (forallb_weaken isDigit notLineFeed _ isDigit_notLineFeed).
    now apply digitsFuel_digits. }
  unfold numberToString. destruct (Z.abs n <? 2 ^ 53)%Z.
  - destruct n as [|p|p]; cbn [decimal]; [reflexivity | apply D|].
    cbn [forallb]. now rewrite D.
  - rewrite forallb_app. apply andb_true_iff. split; [now destruct (n <? 0)%Z|].
    destruct (INFINITY <=? Z.abs n)%Z; [reflexivity|]. unfold large.
    set (ds := digits _).
    assert (Ds : forallb notLineFeed ds = true) by apply D.
    destruct (List.length ds <=? 21); [exact Ds|].
    assert (Sig : forallb notLineFeed (rev (stripZeros (rev ds))) = true)
      by now apply forallb_rev, stripZeros_keeps, forallb_rev.
    destruct (rev (stripZeros (rev ds))) as [|d more]; [exact Ds|].
    cbn [forallb] in Sig. apply andb_true_iff in Sig as [Hd Hmore].
    cbn [forallb]. rewrite Hd. cbn [andb]. rewrite !forallb_app, D.
    replace (forallb notLineFeed (lit "e+")) with true by reflexivity.
    rewrite !andb_true_r.
    destruct more; [reflexivity|]. cbn [forallb] in *. now rewrite Hmore.
Qed.

Lemma V2_prefix_one_line (context : V2.ConversionContext) (tagName : jsstring) :
  forallb (textsAll notLineFeed) (V2.prefixNodes (V2.prefixOf context tagName)) = true.
Proof.
  assert (T : forallb notLineFeed (V2.prefixOf context tagName) = true).
  { unfold V2.prefixOf. destruct (str_eqb tagName (lit "li")).
    - destruct (V2.parentListType context) as [[|]|]; try reflexivity.
      destruct (V2.listIndex context) as [index|]; [|reflexivity].
      now rewrite forallb_app, numberToString_one_line.
    - now destruct (str_eqb tagName (lit "td")). }
  unfold V2.prefixNodes. destruct (V2.prefixOf context tagName); [reflexivity|].
  cbn [forallb textsAll] in *. now rewrite T.
Qed.

Lemma V2_buildElement_texts (P : char -> bool) (context : V2.ConversionContext)
    (tagName styleAttr : jsstring) (fragment : list onode) (hasContent : bool) :
  forallb (textsAll P) fragment = true ->
  forallb (textsAll P)
          (appended (V2.buildElement context tagName styleAttr fragment hasContent))
  = true.
Proof.
  intro H. unfold V2.buildElement, V2.applyWrappers.
  split_ifs; cbn [appended nodesOf wrap br forallb textsAll];
    rewrite ?H; reflexivity.
Qed.

Lemma V2_processNode_one_line (config : ConversionConfig) (n : node) :
  forall context k,
    forallb (textsAll notLineFeed)
            (appended (fst (V2.processNode config false n context k))) = true.
Proof.
  induction n as [data | tagName attrs children IH |] using node_induction;
    intros context k.
  - cbn [V2.processNode fst]. unfold V2.processText.
    destruct data as [|c data]; [reflexivity|]. cbn [negb appended nodesOf forallb textsAll].
    rewrite andb_true_r. apply (forallb_weaken notNewline notLineFeed _ notNewline_notLineFeed).
    destruct (aggressiveWhitespace config).
    + apply (collapseRuns_free isSpace isNewline); auto using isNewline_isSpace.
    + apply (collapseRuns_free isNewline isNewline); auto.
  - cbn [V2.processNode]. destruct (mem tagName V2.IGNORE_TAGS); [reflexivity|].
    match goal with
    | |- context [V2.forEachChild ?f ?p ?o ?b children ?n0 ?k0] =>
        pose proof (V2_forEachChild_all (textsAll notLineFeed) f p o b children IH n0 k0) as A;
        destruct (V2.forEachChild f p o b children n0 k0) as [[nodes hasContent] k']
    end.
    cbn [fst] in *. apply V2_buildElement_texts.
    now rewrite forallb_app, V2_prefix_one_line, A.
  - reflexivity.
Qed.

(** X11 — The [html] that [cleanHtml] returns is one line: it holds no line feed
    and no carriage return in the first variant, and no line feed in the
    second one (which keeps a carriage return of an input it treats as plain
    text). *)
Theorem output_is_one_line :
  forall (sanitize : jsstring -> outcome jsstring)
         (parseFromString : jsstring -> outcome Document)
         (rawHtml : jsstring) (config : ConversionConfig),
    forallb notNewline
            (html (V1.cleanHtml sanitize parseFromString rawHtml config)) = true
    /\ forallb notLineFeed
               (html (V2.cleanHtml parseFromString rawHtml config)) = true.
Proof.
  intros sanitize parseFromString rawHtml config. split.
  - unfold V1.cleanHtml, V1.attempt.
    destruct (sanitize rawHtml) as [c|]; cbn [bind]; [|reflexivity].
    destruct (parseFromString c) as [doc|]; cbn [bind]; [|reflexivity].
    destruct (hasParserError doc); [reflexivity|].
    pose proof (V1_body_over config (body doc) noCounts) as Over.
    pose proof (V1_body_one_line config (body doc) noCounts) as Texts.
    destruct (forEachAppend _ (body doc) noCounts) as [fragment k].
    cbn [fst html] in *. unfold V1.finish. apply forallb_ends.
    apply innerHTML_keeps;
      [auto | now apply V1_postProcess_over | now apply V1_postProcess_texts].
  - unfold V2.cleanHtml, V2.attempt.
    destruct (parseFromString rawHtml) as [doc|]; cbn [bind]; [|reflexivity].
    destruct (hasParserError doc); [reflexivity|].
    pose proof (V2_body_over config (V2.treatAsPlainText doc) (body doc) noCounts)
      as Over.
    assert (Texts : V2.treatAsPlainText doc = false ->
                    forallb (textsAll notLineFeed)
                      (fst (forEachAppend
                              (fun n => V2.processNode config (V2.treatAsPlainText doc)
                                          n V2.topContext) (body doc) noCounts)) = true).
    { intros ->. apply forEachAppend_all. apply Forall_forall. intros n _ k'.
      apply V2_processNode_one_line. }
    destruct (forEachAppend _ (body doc) noCounts) as [fragment k].
    cbn [fst html] in *. apply V2_cleanup_one_line. intro Plain.
    apply innerHTML_keeps;
      [apply notNewline_notLineFeed | exact Over | now apply Texts].
Qed.


(** ** What the engine does not read *)

Lemma forEachAppend_ext
    (f g : node -> counters -> option result * counters) (h : node -> node)
    (l : list node) :
  Forall (fun child => forall k, f child k = g (h child) k) l ->
  forall k, forEachAppend f l k = forEachAppend g (map h l) k.
Proof.
  induction 1 as [|child rest Hc _ IH]; intro k; [reflexivity|].
  cbn [forEachAppend map]. rewrite Hc. destruct (g (h child) k) as [processed k1].
  now rewrite IH.
Qed.

Lemma V2_forEachChild_ext
    (f g : node -> V2.ConversionContext -> counters -> option result * counters)
    (h : node -> node) (plain inOl : bool) (base : V2.ConversionContext)
    (l : list node) :
  (forall child, V2.isListItemNode (h child) = V2.isListItemNode child) ->
  Forall (fun child => forall c k, f child c k = g (h child) c k) l ->
  forall next k,
    V2.forEachChild f plain inOl base l next k
    = V2.forEachChild g plain inOl base (map h l) next k.
Proof.
  intro Item. induction 1 as [|child rest Hc _ IH]; intros next k; [reflexivity|].
  cbn [V2.forEachChild map]. rewrite Item, Hc.
  match goal with
  | |- context [g (h child) ?c k] => destruct (g (h child) c k) as [processed k1]
  end.
  now rewrite IH.
Qed.

Lemma map_id_ext {A : Type} (l : list A) : map (fun x => x) l = l.
Proof. apply map_id. Qed.

Lemma V1_processNode_config (c1 c2 : ConversionConfig) (n : node) :
  aggressiveWhitespace c1 = aggressiveWhitespace c2 ->
  forall context k, V1.processNode c1 n context k = V1.processNode c2 n context k.
Proof.
  intro Same.
  induction n as [data | tagName attrs children IH |] using node_induction;
    intros context k.
  - cbn [V1.processNode]. unfold V1.processText. now rewrite Same.
  - cbn [V1.processNode]. destruct (mem tagName V1.IGNORE_TAGS); [reflexivity|].
    rewrite (forEachAppend_ext _
               (fun child => V1.processNode c2 child (V1.childContextOf context tagName))
               (fun x => x) children).
    + now rewrite map_id_ext.
    + revert IH. apply Forall_impl. intros child Hc k'. apply Hc.
  - reflexivity.
Qed.

Lemma V2_processNode_config (c1 c2 : ConversionConfig) (plain : bool) (n : node) :
  aggressiveWhitespace c1 = aggressiveWhitespace c2 ->
  forall context k,
    V2.processNode c1 plain n context k = V2.processNode c2 plain n context k.
Proof.
  intro Same.
  induction n as [data | tagName attrs children IH |] using node_induction;
    intros context k.
  - cbn [V2.processNode]. unfold V2.processText. now rewrite Same.
  - cbn [V2.processNode]. destruct (mem tagName V2.IGNORE_TAGS); [reflexivity|].
    rewrite (V2_forEachChild_ext _ (V2.processNode c2 plain) (fun x => x)
               plain _ _ children (fun _ => eq_refl) IH).
    now rewrite map_id_ext.
  - reflexivity.
Qed.

(** X12 — Of the configuration the engine reads [useParagraphs] and
    [aggressiveWhitespace] only: two configurations that agree on these two
    give the same result, in both variants. *)
Theorem two_settings_matter :
  forall (sanitize : jsstring -> outcome jsstring)
         (parseFromString : jsstring -> outcome Document)
         (rawHtml : jsstring) (c1 c2 : ConversionConfig),
    useParagraphs c1 = useParagraphs c2 ->
    aggressiveWhitespace c1 = aggressiveWhitespace c2 ->
    V1.cleanHtml sanitize parseFromString rawHtml c1
    = V1.cleanHtml sanitize parseFromString rawHtml c2
    /\ V2.cleanHtml parseFromString rawHtml c1
       = V2.cleanHtml parseFromString rawHtml c2.
Proof.
  intros sanitize parseFromString rawHtml c1 c2 Mode Space. split.
  - unfold V1.cleanHtml, V1.attempt.
    destruct (sanitize rawHtml) as [c|]; cbn [bind]; [|reflexivity].
    destruct (parseFromString c) as [doc|]; cbn [bind]; [|reflexivity].
    destruct (hasParserError doc); [reflexivity|].
    rewrite (forEachAppend_ext _ (fun n => V1.processNode c2 n V1.topContext)
               (fun x => x) (body doc)), map_id_ext.
    + unfold V1.postProcess. now rewrite Mode.
    + apply Forall_forall. intros n _ k. now apply V1_processNode_config.
  - unfold V2.cleanHtml, V2.attempt.
    destruct (parseFromString rawHtml) as [doc|]; cbn [bind]; [|reflexivity].
    destruct (hasParserError doc); [reflexivity|].
    rewrite (forEachAppend_ext _
               (fun n => V2.processNode c2 (V2.treatAsPlainText doc) n V2.topContext)
               (fun x => x) (body doc)), map_id_ext.
    + unfold V2.cleanup. now rewrite Mode.
    + apply Forall_forall. intros n _ k. now apply V2_processNode_config.
Qed.

Lemma two_settings_matter_witness :
  V1.cleanHtml Sample.sanitize Sample.parseFromString
    (lit "<h1>Title</h1><p>Body</p>")
    {| mode := ai; useParagraphs := true; convertDivsToP := false;
       cleanAttributes := false; aggressiveWhitespace := true |}
  = V1.cleanHtml Sample.sanitize Sample.parseFromString
      (lit "<h1>Title</h1><p>Body</p>") (Sample.paragraphs true).
Proof.
  exact (proj1 (two_settings_matter Sample.sanitize Sample.parseFromString
                  (lit "<h1>Title</h1><p>Body</p>")
                  {| mode := ai; useParagraphs := true; convertDivsToP := false;
                     cleanAttributes := false; aggressiveWhitespace := true |}
                  (Sample.paragraphs true) eq_refl eq_refl)).
Defined.

Lemma assoc_one {A : Type} (name : jsstring) (v : A) :
  assoc name [(name, v)] = Some v.
Proof. cbn. now rewrite str_eqb_refl. Qed.

Lemma style_kept (attrs : list (jsstring * jsstring)) :
  attributeOrEmpty (lit "style") (kept (lit "style") attrs)
  = attributeOrEmpty (lit "style") attrs.
Proof.
  unfold attributeOrEmpty, kept, getAttribute.
  destruct (assoc (lit "style") attrs) as [v|]; [|reflexivity].
  now rewrite assoc_one.
Qed.

Lemma style_kept_with_start (attrs : list (jsstring * jsstring)) :
  attributeOrEmpty (lit "style") (kept (lit "style") attrs ++ kept (lit "start") attrs)
  = attributeOrEmpty (lit "style") attrs.
Proof.
  unfold attributeOrEmpty, kept, getAttribute.
  destruct (assoc (lit "style") attrs) as [v|]; cbn [app].
  - cbn [assoc]. now rewrite str_eqb_refl.
  - now destruct (assoc (lit "start") attrs).
Qed.

Lemma start_kept (attrs : list (jsstring * jsstring)) :
  getAttribute (lit "start") (kept (lit "style") attrs ++ kept (lit "start") attrs)
  = getAttribute (lit "start") attrs.
Proof.
  unfold kept, getAttribute.
  destruct (assoc (lit "style") attrs) as [v|]; cbn [app].
  - cbn [assoc]. change (str_eqb (lit "style") (lit "start")) with false. cbn iota.
    destruct (assoc (lit "start") attrs) as [w|]; [apply assoc_one | reflexivity].
  - destruct (assoc (lit "start") attrs) as [w|]; [apply assoc_one | reflexivity].
Qed.

(** X13 — The walkers read no attribute but [style] (and, in the second variant,
    [start]): dropping every other attribute of every element of the input
    tree changes neither what a walker returns nor what it counts. *)
Theorem walkers_read_style_only :
  forall (config : ConversionConfig) (plain : bool) (n : node),
    (forall context k,
       V1.processNode config n context k
       = V1.processNode config (keepStyle n) context k)
    /\ (forall context k,
          V2.processNode config plain n context k
          = V2.processNode config plain (keepStyleAndStart n) context k).
Proof.
  intros config plain n. split.
  - induction n as [data | tagName attrs children IH |] using node_induction;
      intros context k; [reflexivity | | reflexivity].
    cbn [V1.processNode keepStyle].
    destruct (mem tagName V1.IGNORE_TAGS); [reflexivity|].
    rewrite style_kept.
    rewrite (forEachAppend_ext _
               (fun child => V1.processNode config child
                               (V1.childContextOf context tagName))
               keepStyle children); [reflexivity|].
    revert IH. apply Forall_impl. intros child Hc k'. apply Hc.
  - induction n as [data | tagName attrs children IH |] using node_induction;
      intros context k; [reflexivity | | reflexivity].
    cbn [V2.processNode keepStyleAndStart].
    destruct (mem tagName V2.IGNORE_TAGS); [reflexivity|].
    rewrite style_kept_with_start.
    assert (Start : V2.firstListIndex tagName
                      (kept (lit "style") attrs ++ kept (lit "start") attrs)
                    = V2.firstListIndex tagName attrs).
    { unfold V2.firstListIndex. now rewrite start_kept. }
    rewrite Start.
    rewrite (V2_forEachChild_ext _ (V2.processNode config plain) keepStyleAndStart
               plain _ _ children); [reflexivity | | exact IH].
    now intros [| |].
Qed.


(** ** The start of an ordered list *)

Lemma digitsValue_app (a b : jsstring) (acc : N) :
  digitsValue (a ++ b) acc = digitsValue b (digitsValue a acc).
Proof. revert acc; induction a as [|c a IH]; intro acc; [reflexivity | apply IH]. Qed.

(** With fuel enough for the binary length of [n], [digitsFuel] writes the
    decimal digits of [n] in front of the accumulator. *)
Lemma digitsFuel_value (fuel : nat) :
  forall n acc,
    (n < 2 ^ N.of_nat (S fuel))%N ->
    exists ds,
      digitsFuel (S fuel) n acc = ds ++ acc
      /\ ds <> [] /\ forallb isDigit ds = true /\ digitsValue ds 0 = n.
Proof.
  induction fuel as [|fuel IH]; intros n acc Small;
    cbn [digitsFuel];
    assert (Bound : (n mod 10 < 10)%N) by (now apply N.mod_upper_bound);
    assert (Split : (n = 10 * (n / 10) + n mod 10)%N) by (now apply N.div_mod);
    remember (n mod 10)%N as d; remember (n / 10)%N as q;
    assert (Digit : isDigit (48 + d) = true)
      by (unfold isDigit; apply andb_true_iff; split; apply N.leb_le; lia);
    destruct (N.ltb_spec n 10) as [One | Many].
  - exists [(48 + d)%N]. repeat split; [discriminate | cbn [forallb]; now rewrite Digit |].
    cbn [digitsValue]. lia.
  - cbn in Small. lia.
  - exists [(48 + d)%N]. repeat split; [discriminate | cbn [forallb]; now rewrite Digit |].
    cbn [digitsValue]. lia.
  - destruct (IH q ((48 + d)%N :: acc)) as (ds & E & NonEmpty & Digits & Value).
    { rewrite Nat2N.inj_succ, N.pow_succ_r' in Small. lia. }
    exists (ds ++ [(48 + d)%N]). rewrite <- app_assoc. repeat split.
    + exact E.
    + now destruct ds.
    + rewrite forallb_app, Digits. cbn [forallb]. now rewrite Digit.
    + rewrite digitsValue_app, Value. cbn [digitsValue]. lia.
Qed.

Lemma digits_value (p : positive) :
  digits (Npos p) <> []
  /\ forallb isDigit (digits (Npos p)) = true
  /\ digitsValue (digits (Npos p)) 0 = Npos p.
Proof.
  unfold digits.
  destruct (digitsFuel_value (N.to_nat (N.log2 (Npos p))) (Npos p) [])
    as (ds & E & NonEmpty & Digits & Value).
  - rewrite Nat2N.inj_succ, N2Nat.id. apply N.log2_spec. reflexivity.
  - rewrite E, app_nil_r. now repeat split.
Qed.

Lemma spanLength_all (p : char -> bool) (s : jsstring) :
  forallb p s = true -> spanLength p s = List.length s.
Proof.
  induction s as [|c s IH]; [reflexivity|]. cbn. intro H.
  apply andb_true_iff in H as [-> H]. now rewrite IH.
Qed.

Lemma isDigit_cases (c : char) :
  isDigit c = true -> isSpace c = false /\ (c =? 45)%N = false /\ (c =? 43)%N = false.
Proof.
  unfold isDigit, isSpace. intro H. apply andb_true_iff in H as [L U].
  apply N.leb_le in L, U.
  repeat match goal with
         | |- context [(?a =? ?b)%N] => destruct (N.eqb_spec a b); [lia|]
         | |- context [(?a <=? ?b)%N] => destruct (N.leb_spec a b); try lia
         end; now repeat split.
Qed.

Lemma parseInt10_digits (ds : jsstring) :
  ds <> [] -> forallb isDigit ds = true ->
  parseInt10 ds = Some (toNumber (Z.of_N (digitsValue ds 0)))
  /\ parseInt10 (45%N :: ds) = Some (toNumber (- Z.of_N (digitsValue ds 0)))%Z.
Proof.
  intros NonEmpty Digits. destruct ds as [|c ds]; [contradiction|].
  pose proof Digits as Span. apply spanLength_all in Span.
  cbn [forallb] in Digits. apply andb_true_iff in Digits as [Dc _].
  destruct (isDigit_cases c Dc) as (NotSpace & NotMinus & NotPlus).
  unfold parseInt10. split.
  - cbn [dropWhile]. rewrite NotSpace, NotMinus, NotPlus, Span, firstn_all.
    reflexivity.
  - cbn [dropWhile]. change (isSpace 45) with false. cbn iota.
    change (45 =? 45)%N with true. cbn iota. rewrite Span, firstn_all.
    reflexivity.
Qed.

(** The decimal form of a safe integer is read back as that integer. *)
Lemma parseInt10_numberToString (n : Z) :
  safeInteger n ->
  numberToString n <> [] /\ parseInt10 (numberToString n) = Some n.
Proof.
  intro Safe. unfold safeInteger in Safe.
  assert (Exact : forall z, Z.abs z = Z.abs n -> toNumber z = z).
  { intros z E. apply toNumber_exact. rewrite E. now apply Z.lt_le_incl. }
  unfold numberToString. apply Z.ltb_lt in Safe. rewrite Safe.
  destruct n as [|p|p]; cbn [decimal].
  - split; [discriminate | reflexivity].
  - destruct (digits_value p) as (NonEmpty & Digits & Value).
    split; [exact NonEmpty|].
    rewrite (proj1 (parseInt10_digits _ NonEmpty Digits)), Value.
    now rewrite Exact.
  - destruct (digits_value p) as (NonEmpty & Digits & Value).
    split; [discriminate|].
    rewrite (proj2 (parseInt10_digits _ NonEmpty Digits)), Value.
    now rewrite Exact.
Qed.

(** X14 — An ordered list whose [start] attribute is the decimal form of a
    safe integer [n] (other attributes around it or not) numbers its first
    item [n]: the marker in front of the content of the first [li] child is the
    text of [start], a full stop and a space.  A list element other than
    [ol], or an [ol] without the attribute, starts at 1. *)
Theorem ordered_list_starts_at_start :
  forall (n : Z) (attrs : list (jsstring * jsstring)) (tagName : jsstring),
    (safeInteger n ->
     getAttribute (lit "start") attrs = Some (numberToString n) ->
     V2.firstListIndex (lit "ol") attrs = n
     /\ V2.prefixOf {| V2.insideListListItem := false;
                       V2.parentListType := Some V2.ol;
                       V2.listIndex := Some (V2.firstListIndex (lit "ol") attrs) |}
                    (lit "li")
        = numberToString n ++ lit ". ")
    /\ (str_eqb tagName (lit "ol") = false \/ getAttribute (lit "start") attrs = None ->
        V2.firstListIndex tagName attrs = 1%Z).
Proof.
  intros n attrs tagName. split.
  - intros Safe Start.
    destruct (parseInt10_numberToString n Safe) as [NonEmpty Parsed].
    assert (First : V2.firstListIndex (lit "ol") attrs = n).
    { unfold V2.firstListIndex. rewrite str_eqb_refl, Start.
      destruct (numberToString n) as [|c rest]; [contradiction|]. now rewrite Parsed. }
    split; [exact First|]. now rewrite First.
  - unfold V2.firstListIndex. intros [-> | ->]; [reflexivity|].
    now destruct (str_eqb tagName (lit "ol")).
Qed.

Lemma ordered_list_starts_at_start_witness :
  safeInteger 41
  /\ V2.firstListIndex (lit "ol") [(lit "class", lit "x"); (lit "start", lit "41")]
     = 41%Z.
Proof.
  split; [reflexivity|].
  exact (proj1 (proj1 (ordered_list_starts_at_start 41
                         [(lit "class", lit "x"); (lit "start", lit "41")] (lit "ol"))
                      eq_refl eq_refl)).
Defined.

(** ** Text nodes *)

Lemma collapseRuns_single (s : jsstring) (inRun : bool) :
  singleSpaced (collapseRuns isSpace inRun s) = true
  /\ (inRun = true ->
      match collapseRuns isSpace inRun s with
      | [] => True
      | c :: _ => isSpace c = false
      end)
  /\ forallb (fun c => negb (isSpace c) || (c =? 32)%N)
             (collapseRuns isSpace inRun s) = true.
Proof.
  revert inRun. induction s as [|c s IH]; intro inRun; [now repeat split|].
  cbn [collapseRuns]. destruct (isSpace c) eqn:Sc.
  - destruct inRun.
    + apply IH.
    + destruct (IH true) as (Single & Head & Only). split; [|split].
      * cbn [singleSpaced]. specialize (Head eq_refl).
        destruct (collapseRuns isSpace true s) as [|d rest]; [reflexivity|].
        now rewrite Head, andb_false_r.
      * discriminate.
      * cbn [forallb]. now rewrite Only.
  - destruct (IH false) as (Single & _ & Only). split; [|split].
    + cbn [singleSpaced]. destruct (collapseRuns isSpace false s) as [|d rest];
        [reflexivity|]. now rewrite Sc.
    + now intros _.
    + cbn [forallb]. now rewrite Sc, Only.
Qed.

(** X15 — A text node the walkers hand on is not empty.  Unless the second
    variant treats the input as plain text, it holds no line feed or
    carriage return; and under [aggressiveWhitespace] it holds no two
    white-space code units in a row and no white space but U+0020. *)
Theorem text_nodes_are_normalised :
  forall (config : ConversionConfig) (data : jsstring) (r : result),
    V1.processText config data = Some r
    \/ V2.processText config false data = Some r ->
    exists text,
      r = RNode (OText text) /\ text <> []
      /\ forallb notNewline text = true
      /\ (aggressiveWhitespace config = true ->
          singleSpaced text = true
          /\ forallb (fun c => negb (isSpace c) || (c =? 32)%N) text = true).
Proof.
  intros config data r Which.
  set (text := if aggressiveWhitespace config
               then collapseRuns isSpace false (collapseRuns isNewline false data)
               else collapseRuns isNewline false data).
  assert (Line : forallb notNewline text = true).
  { subst text. destruct (aggressiveWhitespace config).
    - apply (collapseRuns_free isSpace isNewline); auto using isNewline_isSpace.
    - apply (collapseRuns_free isNewline isNewline); auto. }
  assert (Space : aggressiveWhitespace config = true ->
                  singleSpaced text = true
                  /\ forallb (fun c => negb (isSpace c) || (c =? 32)%N) text = true).
  { subst text. intros ->.
    destruct (collapseRuns_single (collapseRuns isNewline false data) false)
      as (Single & _ & Only). now split. }
  assert (Filled : data <> [] -> text <> []).
  { subst text. destruct data as [|c data]; [contradiction|]. intros _.
    cbn [collapseRuns]. destruct (isNewline c) eqn:Nc.
    - destruct (aggressiveWhitespace config); [|discriminate].
      cbn [collapseRuns]. change (isSpace 32) with true. cbn iota. discriminate.
    - destruct (aggressiveWhitespace config); [|discriminate].
      cbn [collapseRuns]. destruct (isSpace c); discriminate. }
  exists text. destruct Which as [First | Second].
  - unfold V1.processText in First. fold text in First.
    destruct text as [|c rest] eqn:E; [discriminate|].
    injection First as <-. split; [reflexivity|]. split; [discriminate|].
    now split.
  - unfold V2.processText in Second. destruct data as [|c data]; [discriminate|].
    cbn [negb] in Second. fold text in Second. injection Second as <-.
    split; [reflexivity|]. split; [apply Filled; discriminate|]. now split.
Qed.

Lemma text_nodes_are_normalised_witness :
  exists text,
    RNode (OText (lit "a b")) = RNode (OText text) /\ text <> []
    /\ forallb notNewline text = true
    /\ (aggressiveWhitespace (Sample.paragraphs true) = true ->
        singleSpaced text = true
        /\ forallb (fun c => negb (isSpace c) || (c =? 32)%N) text = true).
Proof.
  exact (text_nodes_are_normalised (Sample.paragraphs true)
           (lit "a" ++ [10%N; 9%N; 160%N] ++ lit "b") (RNode (OText (lit "a b")))
           (or_introl eq_refl)).
Defined.


(** X16 — Clearing the editor, the index in range.  When the content is the entry
    the index points at and is not empty, the empty content is recorded
    behind it and the index points at it.  When the content is not that
    entry (it was typed but not recorded yet), the history ends up with the
    entries up to the current one and one more, the content itself or the
    empty one, while the index has moved on by three: it points behind the
    entries, and the next undo writes the text [undefined] into the
    editor. *)
Theorem clear_and_history :
  forall (h : App1.History) (content : jsstring),
    inRange h ->
    let cleared := App1.handleClear content h in
    (App1.isCurrent (App1.history h) (App1.historyIndex h) content = true ->
     content <> [] ->
     inRange cleared
     /\ App1.history cleared
        = firstn (App1.historyIndex h + 1) (App1.history h) ++ [[]]
     /\ nth_error (App1.history cleared) (App1.historyIndex cleared) = Some [])
    /\ (App1.isCurrent (App1.history h) (App1.historyIndex h) content = false ->
        App1.history cleared
        = firstn (App1.historyIndex h + 1) (App1.history h)
          ++ [if App1.isCurrent (App1.history h) (App1.historyIndex h) []
              then content else []]
        /\ App1.historyIndex cleared = App1.historyIndex h + 3
        /\ ~ inRange cleared
        /\ snd (App1.handleUndo cleared) = Some (lit "undefined")).
Proof.
  intros [entries index] content Range cleared. subst cleared.
  unfold inRange in *. cbn [App1.history App1.historyIndex] in *.
  destruct (firstn_entry entries index Range) as (current & Here & Kept & Len).
  unfold App1.handleClear. cbn [App1.history App1.historyIndex].
  split; intros Is.
  - intro Filled. rewrite Is. unfold App1.addToHistory.
    cbn [App1.history App1.historyIndex].
    assert (Differs : App1.isCurrent entries index [] = false).
    { unfold App1.isCurrent in *. rewrite Here in *. apply str_eqb_eq in Is.
      subst current. now destruct content. }
    rewrite Differs. split; [|split].
    + rewrite length_app, Len. cbn. lia.
    + reflexivity.
    + rewrite nth_error_app2 by lia. now rewrite Len, Nat.sub_diag.
  - rewrite Is. unfold App1.addToHistory. cbn [App1.history App1.historyIndex].
    rewrite Is. cbn [App1.history App1.historyIndex].
    assert (Same : App1.isCurrent (firstn (index + 1) entries ++ [content]) index []
                   = App1.isCurrent entries index []).
    { unfold App1.isCurrent. rewrite nth_error_app1 by lia. now rewrite Kept, Here. }
    rewrite Same.
    assert (Again : firstn (index + 1) (firstn (index + 1) entries ++ [content])
                    = firstn (index + 1) entries).
    { rewrite firstn_app, Len, Nat.sub_diag. cbn [firstn].
      rewrite app_nil_r. apply firstn_all2. lia. }
    assert (Total : List.length
                      (if App1.isCurrent entries index []
                       then firstn (index + 1) entries ++ [content]
                       else firstn (index + 1)
                              (firstn (index + 1) entries ++ [content]) ++ [[]])
                    = index + 2).
    { destruct (App1.isCurrent entries index []);
        rewrite ?Again, length_app, Len; cbn; lia. }
    split; [|split; [|split]].
    + destruct (App1.isCurrent entries index []); [reflexivity | now rewrite Again].
    + lia.
    + rewrite Total. lia.
    + unfold App1.handleUndo. cbn [App1.history App1.historyIndex].
      replace (0 <? index + 1 + 1 + 1) with true by (symmetry; apply Nat.ltb_lt; lia).
      cbn [snd]. unfold App1.written.
      match goal with
      | |- context [nth_error ?l ?i] =>
          replace (nth_error l i) with (@None (list N)); [reflexivity|]
      end.
      symmetry. apply nth_error_None. rewrite Total. lia.
Qed.

Lemma clear_and_history_witness :
  inRange {| App1.history := [[]; lit "abc"]; App1.historyIndex := 1 |}
  /\ App1.handleClear (lit "abcd")
       {| App1.history := [[]; lit "abc"]; App1.historyIndex := 1 |}
     = {| App1.history := [[]; lit "abc"; []]; App1.historyIndex := 4 |}
  /\ snd (App1.handleUndo
            (App1.handleClear (lit "abcd")
               {| App1.history := [[]; lit "abc"]; App1.historyIndex := 1 |}))
     = Some (lit "undefined").
Proof.
  split; [exact (le_n 2)|]. split; [reflexivity|].
  exact (proj2 (proj2 (proj2 (proj2
    (clear_and_history {| App1.history := [[]; lit "abc"]; App1.historyIndex := 1 |}
       (lit "abcd") (le_n 2)) eq_refl)))).
Defined.
